(** * Enhanced rock weathering script (ERW1.py): embedding and properties

    The script is one linear Python program.  It is embedded here as a
    state-passing program over an explicit description of the outside world
    (file system, geochemical engine, plotting library, clock):

    - Python [float]s are IEEE-754 binary64 numbers; the arithmetic of the
      script is written once over an interface [PyFloat] and read at two
      carriers: Rocq's primitive binary64 floats (what the interpreter
      computes) and exact rationals extended with NaN (the arithmetic the
      formulas denote);
    - exceptions, [exit(1)] and the order of the observable actions are kept
      by a small monad that records the trace of events through failures;
    - names that Python binds only on some paths ([final_calcite_si],
      [cao_pct], ...) are optional components of the state. *)

From Stdlib Require Import ZArith QArith Qabs String Ascii List Bool Floats DecimalString Lia.
Import ListNotations.

Close Scope Q_scope.
Open Scope string_scope.

(* ================================================================== *)
(** * Numbers                                                          *)
(* ================================================================== *)

(** The float operations the script uses.  [lit] reads a decimal or integer
    literal of the source text. *)
Class PyFloat (A : Type) := {
  lit   : Q -> A;
  nan   : A;
  add   : A -> A -> A;
  sub   : A -> A -> A;
  mul   : A -> A -> A;
  div   : A -> A -> A;
  fabs  : A -> A;
  eqb   : A -> A -> bool;
  ltb   : A -> A -> bool;
  leb   : A -> A -> bool;
  isnan : A -> bool;
  (** [format(x, '.<k>f')] *)
  fmt_f : nat -> A -> string
}.

Arguments lit {A _} _%_Q.

Declare Scope py_scope.
Delimit Scope py_scope with py.
Infix "+" := add : py_scope.
Infix "-" := sub : py_scope.
Infix "*" := mul : py_scope.
Infix "/" := div : py_scope.
Infix "=?" := eqb : py_scope.
Infix "<?" := ltb : py_scope.
Infix "<=?" := leb : py_scope.

(** ** Fixed-point formatting *)

Module Fmt.

(** Nearest integer to [n / d], ties to even ([n] non-negative). *)
Definition round_half_even (n : Z) (d : positive) : Z :=
  let q := (n / Zpos d)%Z in
  let r := (n mod Zpos d)%Z in
  match (2 * r ?= Zpos d)%Z with
  | Lt => q
  | Gt => (q + 1)%Z
  | Eq => if Z.even q then q else (q + 1)%Z
  end.

Definition digits (n : Z) : string :=
  NilZero.string_of_uint (N.to_uint (Z.to_N n)).

Fixpoint zeros (k : nat) : string :=
  match k with
  | O => ""
  | S k' => "0" ++ zeros k'
  end.

Definition pad_left (k : nat) (s : string) : string :=
  zeros (k - String.length s) ++ s.

(** The text of [n / d] with [k] digits after the point, correctly
    rounded; [neg] is the sign of the number, kept on a zero result as
    Python keeps it. *)
Definition fixed (k : nat) (neg : bool) (n : Z) (d : positive) : string :=
  let p := (10 ^ Z.of_nat k)%Z in
  let scaled := round_half_even (n * p) d in
  (if neg then "-" else "")
    ++ digits (scaled / p)
    ++ match k with
       | O => ""
       | S _ => "." ++ pad_left k (digits (scaled mod p))
       end.

(** [format(x, '+.<k>f')] from [format(x, '.<k>f')]: a plus sign unless
    the text already carries a minus sign. *)
Definition with_plus (s : string) : string :=
  match s with
  | String "-" _ => s
  | _ => "+" ++ s
  end.

(** Groups of three digits, as [format(n, ',')] separates them. *)
Fixpoint group3 (fuel : nat) (n : Z) : string :=
  match fuel with
  | O => digits n
  | S fuel' =>
      if (n <? 1000)%Z then digits n
      else group3 fuel' (n / 1000) ++ "," ++ pad_left 3 (digits (n mod 1000))
  end.

Definition commas (n : nat) : string := group3 n (Z.of_nat n).

End Fmt.

(** ** Binary64: what the interpreter computes *)

Module B64.

Definition of_Z (z : Z) : float :=
  match z with
  | Zneg p => PrimFloat.opp (PrimFloat.of_uint63 (Uint63.of_Z (Zpos p)))
  | _ => PrimFloat.of_uint63 (Uint63.of_Z z)
  end.

(** A literal [n / 10^k] is read as the double nearest to it: numerator and
    denominator are exact doubles and the division rounds correctly. *)
Definition of_literal (q : Q) : float :=
  PrimFloat.div (of_Z (Qnum q)) (of_Z (Zpos (Qden q))).

Definition format (k : nat) (x : float) : string :=
  match Prim2SF x with
  | S754_nan => "nan"
  | S754_infinity s => if s then "-inf" else "inf"
  | S754_zero s => Fmt.fixed k s 0 1
  | S754_finite s m e =>
      match e with
      | Zneg p => Fmt.fixed k s (Zpos m) (2 ^ p)
      | _ => Fmt.fixed k s (Zpos m * 2 ^ e) 1
      end
  end.

End B64.

#[export] Instance binary64 : PyFloat float := {
  lit := B64.of_literal;
  nan := PrimFloat.nan;
  add := PrimFloat.add;
  sub := PrimFloat.sub;
  mul := PrimFloat.mul;
  div := PrimFloat.div;
  fabs := PrimFloat.abs;
  eqb := PrimFloat.eqb;
  ltb := PrimFloat.ltb;
  leb := PrimFloat.leb;
  isnan := PrimFloat.is_nan;
  fmt_f := B64.format
}.

(** ** Exact arithmetic: what the formulas denote *)

Module Exact.

(** A rational, or NaN. *)
Definition t : Type := option Q.

Definition lift2 (f : Q -> Q -> Q) (x y : t) : t :=
  match x, y with
  | Some a, Some b => Some (f a b)
  | _, _ => None
  end.

Definition test2 (f : Q -> Q -> bool) (x y : t) : bool :=
  match x, y with
  | Some a, Some b => f a b
  | _, _ => false
  end.

Definition div (x y : t) : t :=
  match x, y with
  | Some a, Some b => if Qeq_bool b 0%Q then None else Some (a / b)%Q
  | _, _ => None
  end.

Definition format (k : nat) (x : t) : string :=
  match x with
  | None => "nan"
  | Some q => Fmt.fixed k (Qnum q <? 0)%Z (Z.abs (Qnum q)) (Qden q)
  end.

Definition Qlt_bool (a b : Q) : bool := negb (Qle_bool b a).

(** Equality of the carrier as a proposition. *)
Definition eq (x y : t) : Prop :=
  match x, y with
  | Some a, Some b => (a == b)%Q
  | _, _ => False
  end.

End Exact.

#[export] Instance exact : PyFloat Exact.t := {
  lit := fun q => Some q;
  nan := None;
  add := Exact.lift2 Qplus;
  sub := Exact.lift2 Qminus;
  mul := Exact.lift2 Qmult;
  div := Exact.div;
  fabs := option_map Qabs;
  eqb := Exact.test2 Qeq_bool;
  ltb := Exact.test2 Exact.Qlt_bool;
  leb := Exact.test2 Qle_bool;
  isnan := fun x => match x with None => true | Some _ => false end;
  fmt_f := Exact.format
}.

(* ================================================================== *)
(** * Data: survey rows, engine output, result tables                  *)
(* ================================================================== *)

Definition nl : string := String (ascii_of_nat 10) EmptyString.

(** [s * n] on strings. *)
Fixpoint str_repeat (s : string) (n : nat) : string :=
  match n with
  | O => ""
  | S n' => s ++ str_repeat s n'
  end.

(** One row of the major-element table, restricted to the columns the script
    reads.  A numeric cell is a float, NaN when the field is empty;
    [ROCKTYPE] is [None] when the table has no such column. *)
Record Row (A : Type) := mkRow {
  DDPD_ID   : string;
  ROCKTYPE  : option string;
  SiO2_pct  : A;
  CaO_pct   : A;
  MgO_pct   : A;
  Na2O_pct  : A;
  K2O_pct   : A;
  Fe2O3_pct : A;
  Al2O3_pct : A
}.
Arguments mkRow {A}.
Arguments DDPD_ID {A}.
Arguments ROCKTYPE {A}.
Arguments SiO2_pct {A}.
Arguments CaO_pct {A}.
Arguments MgO_pct {A}.
Arguments Na2O_pct {A}.
Arguments K2O_pct {A}.
Arguments Fe2O3_pct {A}.
Arguments Al2O3_pct {A}.

(** A value of the engine's selected-output array. *)
Inductive pyval (A : Type) :=
| PyNum (x : A)
| PyStr (s : string)
| PyNone.
Arguments PyNum {A}.
Arguments PyStr {A}.
Arguments PyNone {A}.

(** What [get_selected_output_array()] returns: a list of rows whose first
    row, when there is one, holds the column headings. *)
Inductive output_array (A : Type) :=
| OutEmpty
| OutRows (headings : list string) (data : list (list (pyval A))).
Arguments OutEmpty {A}.
Arguments OutRows {A}.

Definition output_len {A} (o : output_array A) : nat :=
  match o with
  | OutEmpty => 0
  | OutRows _ data => S (length data)
  end.

(** A [pandas.DataFrame] with default index: column labels and rows. *)
Record Frame (C : Type) := mkFrame {
  columns : list string;
  rows    : list (list C)
}.
Arguments mkFrame {C}.
Arguments columns {C}.
Arguments rows {C}.

Fixpoint index_of (name : string) (cols : list string) : option nat :=
  match cols with
  | [] => None
  | c :: cs => if String.eqb name c then Some 0
               else option_map S (index_of name cs)
  end.

(** [name in df.columns] *)
Definition has_column {C} (df : Frame C) (name : string) : bool :=
  existsb (String.eqb name) (columns df).

Fixpoint has_dup (l : list string) : bool :=
  match l with
  | [] => false
  | x :: xs => existsb (String.eqb x) xs || has_dup xs
  end.

(** The cells of a column, top to bottom. *)
Definition column {C} (dflt : C) (df : Frame C) (name : string)
  : option (list C) :=
  option_map (fun i => map (fun r => nth i r dflt) (rows df))
             (index_of name (columns df)).

(** [pd.DataFrame({label: values, ...})] for columns of one length: the
    labels in dictionary order, row [i] made of the [i]-th values. *)
Definition frame_of_columns {C} (dflt : C) (cols : list (string * list C))
  : Frame C :=
  let n := match cols with [] => 0 | c :: _ => length (snd c) end in
  mkFrame (map fst cols)
          (map (fun i => map (fun c => nth i (snd c) dflt) cols) (seq 0 n)).

(* ================================================================== *)
(** * Effects: events, outcomes, the outside world                     *)
(* ================================================================== *)

(** Observable actions, in the order they happen.  [EvStep n] is the
    banner "STEP n" the script prints when a step begins; [EvBuildInput]
    marks the call of [generate_advanced_phreeqc_input] and [EvSynthetic]
    the entry of the synthetic branch. *)
Inductive event :=
| EvStep (n : nat)
| EvReadCsv (path : string)
| EvEngineNew
| EvLoadDatabase (path : string)
| EvBuildInput
| EvRunString (input : string)
| EvSynthetic
| EvSaveFig (path : string)
| EvWriteFile (path : string) (content : string).

Inductive exn :=
| KeyError (key : string)
| NameError (name : string)
| IndexError
| ValueError
| TypeError
| OSError
| EngineError
| PlotError.

(** How a computation ends: with a value, by [exit(code)], or with an
    exception on its way up. *)
Inductive outcome (X : Type) :=
| Ok (x : X)
| Exit (code : Z)
| Raise (e : exn).
Arguments Ok {X}.
Arguments Exit {X}.
Arguments Raise {X}.

(** A computation yields the events it performed, in order, and an outcome;
    the events performed before a failure stay in the trace. *)
Definition M (X : Type) : Type := (list event * outcome X)%type.

Definition ret {X} (x : X) : M X := ([], Ok x).

Definition bind {X Y} (m : M X) (k : X -> M Y) : M Y :=
  match m with
  | (es, Ok x) => let (es', r) := k x in ((es ++ es')%list, r)
  | (es, Exit c) => (es, Exit c)
  | (es, Raise e) => (es, Raise e)
  end.

Definition emit (e : event) : M unit := ([e], Ok tt).
Definition raise {X} (e : exn) : M X := ([], Raise e).
Definition sys_exit {X} (c : Z) : M X := ([], Exit c).

(** [try: m  except ...: h] for the exceptions of this model.  [exit]
    inside [m] is not intercepted (no [try] body of the script calls it). *)
Definition try_except {X} (m : M X) (h : exn -> M X) : M X :=
  match m with
  | (es, Raise e) => let (es', r) := h e in ((es ++ es')%list, r)
  | r => r
  end.

Notation "x <- m ;; k" := (bind m (fun x => k))
  (at level 61, m at next level, right associativity).
Notation "m ;;; k" := (bind m (fun _ => k))
  (at level 61, right associativity).

(** The outside world of one run. *)
Record Env (A : Type) := mkEnv {
  (** the rows [pd.read_csv] returns for the majors file, [None] when it
      raises *)
  fs_majors : option (list (Row A));
  (** whether [pd.read_csv] of the mineralogy and trace files returns *)
  fs_mineralogy : bool;
  fs_trace : bool;
  (** whether [IPhreeqc()] returns *)
  engine_new : bool;
  (** whether [load_database(path)] returns *)
  engine_load_database : string -> bool;
  (** the value of [os.path.join(dirname(phreeqpy.__file__), 'database',
      'phreeqc.dat')] *)
  package_database : string;
  (** [run_string(input)] followed by [get_selected_output_array()]:
      [None] when either raises *)
  engine_run : string -> option (output_array A);
  (** the number a string denotes for [pd.to_numeric], if any *)
  parse_number : string -> option A;
  (** whether the drawing calls of matplotlib return *)
  matplotlib_ok : bool;
  (** whether [savefig] returns *)
  savefig_ok : bool;
  (** whether opening and writing the report file returns *)
  fs_write_ok : bool;
  (** [datetime.now().strftime("%Y-%m-%d %H:%M:%S")] at report time *)
  clock : string
}.
Arguments mkEnv {A}.
Arguments fs_majors {A}.
Arguments fs_mineralogy {A}.
Arguments fs_trace {A}.
Arguments engine_new {A}.
Arguments engine_load_database {A}.
Arguments package_database {A}.
Arguments engine_run {A}.
Arguments parse_number {A}.
Arguments matplotlib_ok {A}.
Arguments savefig_ok {A}.
Arguments fs_write_ok {A}.
Arguments clock {A}.

(** File names of the script. *)
Definition majors_path : string :=
  "C:\Users\Manadip\Downloads\AGDB4_text\AGDB4_text\BV_WholeRock_Majors.txt".
Definition mineralogy_path : string :=
  "C:\Users\Manadip\Downloads\AGDB4_text\AGDB4_text\Mineralogy.txt".
Definition trace_path : string :=
  "C:\Users\Manadip\Downloads\AGDB4_text\AGDB4_text\Chem_A_Br.txt".
Definition figure_path : string := "Enhanced_Rock_Weathering_Analysis.png".
Definition report_path : string := "Enhanced_Rock_Weathering_Report.txt".

Definition database_paths : list string :=
  [ "C:\Program Files\USGS\phreeqc-3.8.6-17100-x64\database\wateq4f.dat";
    "C:\Program Files\USGS\phreeqc-3.7.3-15968-x64\database\wateq4f.dat";
    "C:\Program Files (x86)\USGS\phreeqc-3.8.6-17100-x64\database\wateq4f.dat";
    "C:\phreeqc\database\wateq4f.dat";
    "wateq4f.dat";
    "phreeqc.dat";
    "llnl.dat" ].

(* ================================================================== *)
(** * The script                                                       *)
(* ================================================================== *)

Section Script.

Context {A : Type} {num : PyFloat A}.

(** [pd.notna(x)] *)
Definition notna (x : A) : bool := negb (isnan x).

(** [float(x) if pd.notna(x) else d] *)
Definition or_default (x d : A) : A := if notna x then x else d.

(** ** Step 1: data loading *)

Definition read_optional (path : string) (ok : bool) : M bool :=
  try_except
    (emit (EvReadCsv path) ;;;
     if ok then ret true else raise OSError)
    (fun _ => ret false).

Definition step1_load (env : Env A) : M (list (Row A)) :=
  emit (EvStep 1) ;;;
  try_except
    (emit (EvReadCsv majors_path) ;;;
     match fs_majors env with
     | None => raise OSError
     | Some majors =>
         mineralogy_loaded <- read_optional mineralogy_path (fs_mineralogy env) ;;
         trace_loaded <- read_optional trace_path (fs_trace env) ;;
         ret majors
     end)
    (fun _ => sys_exit 1).

(** ** Step 2: engine initialisation and database search *)

Definition load_database (env : Env A) (db_path : string) : M unit :=
  emit (EvLoadDatabase db_path) ;;;
  if engine_load_database env db_path then ret tt else raise EngineError.

(** The [for ... in database_paths] loop: [break] on the first load that
    returns, [continue] on an exception. *)
Fixpoint try_databases (env : Env A) (paths : list string) : M bool :=
  match paths with
  | [] => ret false
  | db_path :: rest =>
      loaded <- try_except (load_database env db_path ;;; ret true)
                           (fun _ => ret false) ;;
      if loaded then ret true else try_databases env rest
  end.

(** The result is [use_synthetic]. *)
Definition step2_init (env : Env A) : M bool :=
  emit (EvStep 2) ;;;
  try_except
    (emit EvEngineNew ;;;
     (if engine_new env then ret tt else raise EngineError) ;;;
     database_loaded <- try_databases env database_paths ;;
     database_loaded <-
       (if negb database_loaded
        then try_except
               (load_database env (package_database env) ;;; ret true)
               (fun _ => ret database_loaded)
        else ret database_loaded) ;;
     if negb database_loaded then ret true else ret false)
    (fun _ => ret true).

(** ** Step 3: sample selection *)

Definition complete (r : Row A) : bool :=
  notna (SiO2_pct r) && notna (CaO_pct r) && notna (MgO_pct r)
  && notna (Na2O_pct r) && notna (K2O_pct r) && notna (Fe2O3_pct r).

(** [majors.dropna(subset=[...])] *)
Definition dropna (majors : list (Row A)) : list (Row A) :=
  filter complete majors.

Record Selection := mkSelection {
  majors_table   : list (Row A);
  sample         : Row A;
  sample_id      : string;
  major_elements : list (string * A);
  total_oxides   : A
}.

Definition major_elements_of (s : Row A) : list (string * A) :=
  [ ("SiO₂", SiO2_pct s); ("CaO", CaO_pct s); ("MgO", MgO_pct s);
    ("Na₂O", Na2O_pct s); ("K₂O", K2O_pct s); ("Fe₂O₃", Fe2O3_pct s);
    ("Al₂O₃", Al2O3_pct s) ].

(** [sum([v for v in major_elements.values() if pd.notna(v)])] *)
Definition total_oxides_of (elements : list (string * A)) : A :=
  fold_left add (filter notna (map snd elements)) (lit 0).

Definition step3_select (majors : list (Row A)) : M Selection :=
  emit (EvStep 3) ;;;
  match dropna majors with
  | [] => sys_exit 1
  | s :: _ =>
      ret (mkSelection majors s (DDPD_ID s) (major_elements_of s)
                       (total_oxides_of (major_elements_of s)))
  end.

(** ** Step 4: the engine payload *)

Record Oxides := mkOxides {
  o_SiO2 : A; o_CaO : A; o_MgO : A; o_Na2O : A; o_K2O : A;
  o_Fe2O3 : A; o_Al2O3 : A
}.

Definition oxides_of (s : Row A) : Oxides :=
  {| o_SiO2  := or_default (SiO2_pct s) (lit 60.0);
     o_CaO   := or_default (CaO_pct s) (lit 5.0);
     o_MgO   := or_default (MgO_pct s) (lit 3.0);
     o_Na2O  := or_default (Na2O_pct s) (lit 3.0);
     o_K2O   := or_default (K2O_pct s) (lit 2.0);
     o_Fe2O3 := or_default (Fe2O3_pct s) (lit 5.0);
     o_Al2O3 := or_default (Al2O3_pct s) (lit 15.0) |}.

Record MineralMoles := mkMineralMoles {
  quartz : A; anorthite : A; forsterite : A; albite : A; kfeldspar : A;
  hematite : A
}.

Definition mineral_moles_of (oxides : Oxides) : MineralMoles :=
  {| quartz     := (o_SiO2 oxides / lit 100 * lit 1000 / lit 60.08)%py;
     anorthite  := (o_CaO oxides / lit 100 * lit 1000 / lit 278.2)%py;
     forsterite := (o_MgO oxides / lit 100 * lit 1000 / lit 140.7)%py;
     albite     := (o_Na2O oxides / lit 100 * lit 1000 / lit 208.2)%py;
     kfeldspar  := (o_K2O oxides / lit 100 * lit 1000 / lit 278.3)%py;
     hematite   := (o_Fe2O3 oxides / lit 100 * lit 1000 / lit 159.7)%py |}.

Definition generate_advanced_phreeqc_input (sample : Row A) : string :=
  let oxides := oxides_of sample in
  let mineral_moles := mineral_moles_of oxides in
  String.concat nl
    [ "TITLE Enhanced Rock Weathering Analysis - Sample " ++ DDPD_ID sample;
      "# Multi-component geochemical weathering simulation";
      "# Data source: USGS Alaska Geochemical Database (AGDB4)";
      "";
      "SOLUTION 1 Initial Rainwater";
      "    pH 5.6";
      "    temp 25.0";
      "    pe 4.0";
      "    units mol/kgw";
      "    C(4) 1e-5  # Atmospheric CO2";
      "";
      "EQUILIBRIUM_PHASES 1";
      "    CO2(g) -3.5  # Atmospheric CO2 pressure";
      "    Quartz 0.0 " ++ fmt_f 4 (quartz mineral_moles);
      "    Anorthite 0.0 " ++ fmt_f 4 (anorthite mineral_moles);
      "    Forsterite 0.0 " ++ fmt_f 4 (forsterite mineral_moles);
      "    Albite 0.0 " ++ fmt_f 4 (albite mineral_moles);
      "    K-feldspar 0.0 " ++ fmt_f 4 (kfeldspar mineral_moles);
      "    Hematite 0.0 " ++ fmt_f 4 (hematite mineral_moles);
      "    Calcite 0.0 0.0  # Allow precipitation";
      "    Dolomite 0.0 0.0  # Allow precipitation";
      "    Gibbsite 0.0 0.0  # Al hydroxide formation";
      "";
      "KINETICS 1";
      "# Kinetic dissolution of primary minerals";
      "Anorthite";
      "-formula CaAl2Si2O8 1";
      "-m0 " ++ fmt_f 4 (anorthite mineral_moles);
      "-parms 1.26e-12 0.5 62800  # Rate constant, n, Ea (J/mol)";
      "";
      "Forsterite";
      "-formula Mg2SiO4 1";
      "-m0 " ++ fmt_f 4 (forsterite mineral_moles);
      "-parms 1.0e-11 0.6 79000";
      "";
      "Albite";
      "-formula NaAlSi3O8 1";
      "-m0 " ++ fmt_f 4 (albite mineral_moles);
      "-parms 2.75e-13 0.457 65000";
      "";
      "INCREMENTAL_REACTIONS true";
      "";
      "REACTION 1";
      "# Simulate progressive acid addition (enhanced weathering)";
      "H+ 1.0";
      "0.001 0.005 0.01 0.05 0.1 0.5 1.0 mmol";
      "";
      "SELECTED_OUTPUT";
      "    -reset false";
      "    -pH true";
      "    -pe true";
      "    -temperature true";
      "    -molalities Ca+2 Mg+2 Na+ K+ Al+3 Fe+3 Fe+2 SiO2 HCO3- CO3-2";
      "    -si Calcite Dolomite Gibbsite Quartz Anorthite Forsterite Albite";
      "    -totals C(4) Ca Mg Na K Al Fe Si";
      "    -alkalinity";
      "";
      "PRINT";
      "    -reset false";
      "    -status true";
      "";
      "END" ].

(** ** Step 4: the synthetic series *)

Definition scaled (k : A) (xs : list A) : list A := map (fun x => (k * x)%py) xs.
Definition per_thousand (xs : list A) : list A := map (fun x => (x / lit 1000)%py) xs.

(** [xs + ys] on arrays of one length *)
Fixpoint array_add (xs ys : list A) : list A :=
  match xs, ys with
  | x :: xs', y :: ys' => (x + y)%py :: array_add xs' ys'
  | _, _ => []
  end.

Definition pH_values : list A :=
  [lit 5.6; lit 6.0; lit 6.4; lit 6.8; lit 7.2; lit 7.6; lit 8.0].
Definition ca_profile : list A :=
  [lit 0; lit 0.1; lit 0.25; lit 0.45; lit 0.7; lit 0.9; lit 1.0].
Definition mg_profile : list A :=
  [lit 0; lit 0.08; lit 0.2; lit 0.4; lit 0.65; lit 0.85; lit 1.0].
Definition na_profile : list A :=
  [lit 0; lit 0.15; lit 0.35; lit 0.55; lit 0.75; lit 0.9; lit 1.0].
Definition k_profile : list A :=
  [lit 0; lit 0.1; lit 0.3; lit 0.5; lit 0.7; lit 0.85; lit 1.0].
Definition si_values : list A :=
  [lit 0.1; lit 0.3; lit 0.6; lit 1.0; lit 1.5; lit 2.1; lit 2.8].
Definition hco3_values : list A :=
  [lit 0.05; lit 0.3; lit 0.8; lit 1.5; lit 2.5; lit 3.8; lit 5.2].
Definition co3_values : list A :=
  [lit 0; lit 0.01; lit 0.03; lit 0.08; lit 0.15; lit 0.25; lit 0.4].
Definition calcite_si : list A :=
  [lit (-2.8); lit (-2.1); lit (-1.4); lit (-0.7); lit 0.0; lit 0.6; lit 1.1].
Definition dolomite_si : list A :=
  [lit (-3.5); lit (-2.7); lit (-1.9); lit (-1.1); lit (-0.3); lit 0.4; lit 1.0].
Definition gibbsite_si : list A :=
  [lit (-1.5); lit (-1.0); lit (-0.5); lit 0.0; lit 0.4; lit 0.7; lit 1.0].

(** [alkalinity = hco3_values + 2 * co3_values] *)
Definition alkalinity : list A :=
  array_add hco3_values (scaled (lit 2) co3_values).

Definition ca_values (cao_pct : A) : list A :=
  let ca_max := (cao_pct * lit 0.08)%py in scaled ca_max ca_profile.
Definition mg_values (mgo_pct : A) : list A :=
  let mg_max := (mgo_pct * lit 0.06)%py in scaled mg_max mg_profile.
Definition na_values (na2o_pct : A) : list A :=
  let na_max := (na2o_pct * lit 0.05)%py in scaled na_max na_profile.
Definition k_values (k2o_pct : A) : list A :=
  let k_max := (k2o_pct * lit 0.03)%py in scaled k_max k_profile.

(** The table of the synthetic branch, from the five oxide values it
    reads. *)
Definition synthetic_table (cao_pct mgo_pct sio2_pct na2o_pct k2o_pct : A)
  : Frame A :=
  frame_of_columns nan
    [ ("pH", pH_values);
      ("Ca+2", per_thousand (ca_values cao_pct));
      ("Mg+2", per_thousand (mg_values mgo_pct));
      ("Na+", per_thousand (na_values na2o_pct));
      ("K+", per_thousand (k_values k2o_pct));
      ("SiO2", per_thousand si_values);
      ("HCO3-", per_thousand hco3_values);
      ("CO3-2", per_thousand co3_values);
      ("si_Calcite", calcite_si);
      ("si_Dolomite", dolomite_si);
      ("si_Gibbsite", gibbsite_si);
      ("Alk", per_thousand alkalinity) ].

Definition cao_pct_of (s : Row A) : A := or_default (CaO_pct s) (lit 5.0).
Definition mgo_pct_of (s : Row A) : A := or_default (MgO_pct s) (lit 3.0).
Definition sio2_pct_of (s : Row A) : A := or_default (SiO2_pct s) (lit 60.0).
Definition na2o_pct_of (s : Row A) : A := or_default (Na2O_pct s) (lit 3.0).
Definition k2o_pct_of (s : Row A) : A := or_default (K2O_pct s) (lit 2.0).

Definition synthetic_results (s : Row A) : Frame A :=
  synthetic_table (cao_pct_of s) (mgo_pct_of s) (sio2_pct_of s)
                  (na2o_pct_of s) (k2o_pct_of s).

(** ** Step 4: running the engine *)

Definition max_width {C} (data : list (list C)) : nat :=
  fold_right (fun r m => Nat.max (length r) m) 0 data.

Definition pad_row {C} (fill : C) (n : nat) (r : list C) : list C :=
  (r ++ repeat fill (n - length r))%list.

(** [pd.DataFrame(data, columns=columns)] on a list of rows: short rows are
    filled with [None]; the widest row must have as many cells as there
    are labels. *)
Definition DataFrame (data : list (list (pyval A))) (cols : list string)
  : M (Frame (pyval A)) :=
  if Nat.eqb (max_width data) (length cols)
  then ret (mkFrame cols (map (pad_row PyNone (length cols)) data))
  else raise ValueError.

(** [pd.to_numeric(_, errors='coerce')] on one cell *)
Definition to_numeric (env : Env A) (v : pyval A) : A :=
  match v with
  | PyNum x => x
  | PyStr s => match parse_number env s with
               | Some x => x
               | None => nan
               end
  | PyNone => nan
  end.

(** The loop over [results_df.columns].  Under a repeated label
    [results_df[col]] is a table, which [pd.to_numeric] refuses. *)
Definition coerce_columns (env : Env A) (df : Frame (pyval A)) : M (Frame A) :=
  if has_dup (columns df) then raise TypeError
  else ret (mkFrame (columns df) (map (map (to_numeric env)) (rows df))).

(** The [try] block of the simulation; the result is the table when
    [simulation_success] is set. *)
Definition run_engine (env : Env A) (s : Row A) : M (option (Frame A)) :=
  try_except
    (emit EvBuildInput ;;;
     let input_str := generate_advanced_phreeqc_input s in
     emit (EvRunString input_str) ;;;
     match engine_run env input_str with
     | None => raise EngineError
     | Some output =>
         if Nat.ltb 1 (output_len output) then
           match output with
           | OutRows cols data =>
               raw <- DataFrame data cols ;;
               results_df <- coerce_columns env raw ;;
               ret (Some results_df)
           | OutEmpty => raise IndexError
           end
         else ret None
     end)
    (fun _ => ret None).

(** The state after step 4: the results table, and the values of
    [cao_pct] and [mgo_pct], bound only by the synthetic branch. *)
Record Sim := mkSim {
  results_df    : Frame A;
  fallback_pcts : option (A * A)
}.

Definition step4_simulate (env : Env A) (use_synthetic : bool) (s : Row A)
  : M Sim :=
  emit (EvStep 4) ;;;
  simulated <- (if negb use_synthetic then run_engine env s else ret None) ;;
  match simulated with
  | Some df => ret (mkSim df None)
  | None =>
      emit EvSynthetic ;;;
      ret (mkSim (synthetic_results s)
                 (Some (cao_pct_of s, mgo_pct_of s)))
  end.

(** ** Step 5: results analysis *)

(** [df[name]] *)
Definition getitem (df : Frame A) (name : string) : M (list A) :=
  match column nan df name with
  | Some c => ret c
  | None => raise (KeyError name)
  end.

(** [series.iloc[0]] and [series.iloc[-1]] *)
Definition iloc_first (xs : list A) : M A :=
  match xs with
  | [] => raise IndexError
  | x :: _ => ret x
  end.

Definition iloc_last (xs : list A) : M A :=
  match xs with
  | [] => raise IndexError
  | _ :: _ => ret (last xs nan)
  end.

(** The names step 5 binds; the two saturation indices only when the
    table has a column [si_Calcite]. *)
Record Analysis := mkAnalysis {
  initial_pH           : A;
  final_pH             : A;
  pH_change            : A;
  total_ca_release     : A;
  total_mg_release     : A;
  total_cation_release : A;
  co2_sequestration    : A;
  alkalinity_generated : A;
  final_calcite_si     : option A;
  final_dolomite_si    : option A
}.

Definition step5_analyse (df : Frame A) : M Analysis :=
  emit (EvStep 5) ;;;
  pH <- getitem df "pH" ;;
  initial_pH <- iloc_first pH ;;
  final_pH <- iloc_last pH ;;
  let pH_change := (final_pH - initial_pH)%py in
  ca <- getitem df "Ca+2" ;;
  ca_last <- iloc_last ca ;;
  let total_ca_release := (ca_last * lit 1000)%py in
  mg <- getitem df "Mg+2" ;;
  mg_last <- iloc_last mg ;;
  let total_mg_release := (mg_last * lit 1000)%py in
  let total_cation_release := (total_ca_release + total_mg_release)%py in
  carbon <-
    (if has_column df "HCO3-" then
       hco3 <- getitem df "HCO3-" ;;
       hco3_last <- iloc_last hco3 ;;
       alk <- (if has_column df "Alk" then getitem df "Alk" else ret hco3) ;;
       alk_last <- iloc_last alk ;;
       ret ((hco3_last * lit 1000 * lit 44)%py, (alk_last * lit 1000)%py)
     else ret (lit 0, lit 0)) ;;
  si <-
    (if has_column df "si_Calcite" then
       calcite <- getitem df "si_Calcite" ;;
       final_calcite_si <- iloc_last calcite ;;
       dolomite <- getitem df "si_Dolomite" ;;
       final_dolomite_si <- iloc_last dolomite ;;
       ret (Some final_calcite_si, Some final_dolomite_si)
     else ret (None, None)) ;;
  ret (mkAnalysis initial_pH final_pH pH_change total_ca_release
                  total_mg_release total_cation_release (fst carbon)
                  (snd carbon) (fst si) (snd si)).

(** ** Step 6: visualisation *)

(** The [try] block of the figure.  Panel 8 reads [cao_pct] and [mgo_pct]
    when the table has both cation columns; the drawing calls are the
    plotting library's; the figure is saved last.  Which of the first two
    fails first is not observable: the handler only prints. *)
Definition step6_visualise (env : Env A) (sim : Sim) : M unit :=
  emit (EvStep 6) ;;;
  try_except
    ((if has_column (results_df sim) "Ca+2" && has_column (results_df sim) "Mg+2"
      then match fallback_pcts sim with
           | Some _ => ret tt
           | None => raise (NameError "cao_pct")
           end
      else ret tt) ;;;
     (if matplotlib_ok env then ret tt else raise PlotError) ;;;
     emit (EvSaveFig figure_path) ;;;
     if savefig_ok env then ret tt else raise OSError)
    (fun _ => ret tt).

(** ** Step 7: the report *)

(** [sample.get('ROCKTYPE', d)] *)
Definition sample_get_ROCKTYPE (s : Row A) (d : string) : string :=
  match ROCKTYPE s with
  | Some r => r
  | None => d
  end.

Definition rule80 : string := str_repeat "=" 80.

(** A name read before any assignment. *)
Definition bound (name : string) (v : option A) : M A :=
  match v with
  | Some x => ret x
  | None => raise (NameError name)
  end.

Definition report_lines (env : Env A) (sel : Selection) (an : Analysis)
           (cs ds : A) : list string :=
    [ "";
      rule80;
      "ENHANCED ROCK WEATHERING ANALYSIS - TECHNICAL REPORT";
      rule80;
      "";
      "PROJECT OVERVIEW:";
      "• Analysis Date: " ++ clock env;
      "• Analyst: Manadip";
      "• Method: Multi-component geochemical modeling using PHREEQC-Python integration";
      "• Data Source: USGS Alaska Geochemical Database (AGDB4)";
      "• Sample Universe: " ++ Fmt.commas (length (majors_table sel)) ++ " rock samples from Alaska, USA";
      "";
      "SAMPLE CHARACTERIZATION:";
      "• Sample ID: " ++ sample_id sel;
      "• Geographic Region: Alaska, USA";
      "• Rock Type: " ++ sample_get_ROCKTYPE (sample sel) "Not specified";
      "• Total Analyzed Oxides: " ++ fmt_f 1 (total_oxides sel) ++ " wt%";
      "";
      "MAJOR ELEMENT COMPOSITION (wt%):";
      "• SiO₂ (Silica): " ++ fmt_f 2 (SiO2_pct (sample sel)) ++ "%";
      "• CaO (Lime): " ++ fmt_f 2 (CaO_pct (sample sel)) ++ "%";
      "• MgO (Magnesia): " ++ fmt_f 2 (MgO_pct (sample sel)) ++ "%";
      "• Na₂O (Soda): " ++ fmt_f 2 (Na2O_pct (sample sel)) ++ "%";
      "• K₂O (Potash): " ++ fmt_f 2 (K2O_pct (sample sel)) ++ "%";
      "• Fe₂O₃ (Iron oxide): " ++ fmt_f 2 (Fe2O3_pct (sample sel)) ++ "%";
      "• Al₂O₃ (Alumina): " ++ fmt_f 2 (Al2O3_pct (sample sel)) ++ "%";
      "";
      "WEATHERING SIMULATION RESULTS:";
      "• pH Evolution: " ++ fmt_f 2 (initial_pH an) ++ " → " ++ fmt_f 2 (final_pH an) ++ " (Δ = " ++ Fmt.with_plus (fmt_f 2 (pH_change an)) ++ ")";
      "• Acid Neutralization Capacity: " ++ fmt_f 2 (fabs (pH_change an)) ++ " pH units";
      "• Total Cation Release: " ++ fmt_f 2 (total_cation_release an) ++ " mmol/L";
      "  - Calcium (Ca²⁺): " ++ fmt_f 2 (total_ca_release an) ++ " mmol/L";
      "  - Magnesium (Mg²⁺): " ++ fmt_f 2 (total_mg_release an) ++ " mmol/L";
      "• CO₂ Sequestration Potential: " ++ fmt_f 1 (co2_sequestration an) ++ " mg CO₂/L";
      "• Alkalinity Generation: " ++ fmt_f 2 (alkalinity_generated an) ++ " meq/L";
      "";
      "MINERAL SATURATION ASSESSMENT:";
      "• Calcite (CaCO₃): " ++ (if (lit 0 <? cs)%py then "Supersaturated" else "Undersaturated") ++ " (SI = " ++ fmt_f 2 cs ++ ")";
      "• Dolomite (CaMg(CO₃)₂): " ++ (if (lit 0 <? ds)%py then "Supersaturated" else "Undersaturated") ++ " (SI = " ++ fmt_f 2 ds ++ ")";
      "";
      "ENHANCED ROCK WEATHERING POTENTIAL:";
      "• pH Buffering: " ++ (if (lit 1.5 <? fabs (pH_change an))%py then "Excellent" else if (lit 1.0 <? fabs (pH_change an))%py then "Good" else "Moderate");
      "• Cation Supply: " ++ (if (lit 2.0 <? total_cation_release an)%py then "High" else if (lit 1.0 <? total_cation_release an)%py then "Medium" else "Low");
      "• CO₂ Sequestration: " ++ (if (lit 100 <? co2_sequestration an)%py then "High" else if (lit 50 <? co2_sequestration an)%py then "Medium" else "Low");
      "";
      "TECHNICAL METHODOLOGY:";
      "• Geochemical Engine: PHREEQC v3.x with WATEQ4F thermodynamic database";
      "• Python Integration: PhreeqPy v0.6.0 with automated batch processing";
      "• Simulation Approach: Kinetic mineral dissolution with equilibrium precipitation";
      "• Quality Control: Multi-database fallback with synthetic validation";
      "";
      "APPLICATIONS AND IMPLICATIONS:";
      "• Climate Change Mitigation: CO₂ sequestration through enhanced weathering";
      "• Agricultural Enhancement: Nutrient release (Ca, Mg, K) for soil improvement";
      "• Acid Mine Drainage: pH buffering capacity for environmental remediation";
      "• Geochemical Modeling: Validation of rock-water interaction processes";
      "";
      "TECHNICAL SKILLS DEMONSTRATED:";
      "• Multi-dataset integration and preprocessing";
      "• PHREEQC geochemical modeling and automation";
      "• Python scientific computing and data visualization";
      "• Statistical analysis and quality control";
      "• Professional technical reporting";
      "";
      rule80;
      "Analysis completed successfully | Enhanced Rock Weathering Project 2025";
      rule80;
      "" ].

Definition report_text (env : Env A) (sel : Selection) (an : Analysis)
           (cs ds : A) : string :=
  String.concat nl (report_lines env sel an cs ds).

Definition step7_report (env : Env A) (sel : Selection) (an : Analysis)
  : M unit :=
  emit (EvStep 7) ;;;
  cs <- bound "final_calcite_si" (final_calcite_si an) ;;
  ds <- bound "final_dolomite_si" (final_dolomite_si an) ;;
  let report := report_text env sel an cs ds in
  emit (EvWriteFile report_path report) ;;;
  if fs_write_ok env then ret tt else raise OSError.

(** ** Step 8: the closing summary (prints only) *)

Definition step8_summary (an : Analysis) : M unit :=
  emit (EvStep 8) ;;;
  cs <- bound "final_calcite_si" (final_calcite_si an) ;;
  ret tt.

(** ** The whole script *)

(** Steps 1 to 4: everything up to the results table. *)
Definition simulate (env : Env A) : M (Selection * Sim) :=
  majors <- step1_load env ;;
  use_synthetic <- step2_init env ;;
  sel <- step3_select majors ;;
  sim <- step4_simulate env use_synthetic (sample sel) ;;
  ret (sel, sim).

(** Steps 5 to 8. *)
Definition publish (env : Env A) (st : Selection * Sim) : M unit :=
  an <- step5_analyse (results_df (snd st)) ;;
  step6_visualise env (snd st) ;;;
  step7_report env (fst st) an ;;;
  step8_summary an.

Definition script (env : Env A) : M unit :=
  st <- simulate env ;;
  publish env st.

(** One run: its trace and how it ended. *)
Definition run (env : Env A) : list event * outcome unit := script env.

End Script.

Arguments Selection : clear implicits.
Arguments Oxides : clear implicits.
Arguments MineralMoles : clear implicits.
Arguments Sim : clear implicits.
Arguments Analysis : clear implicits.
Arguments generate_advanced_phreeqc_input : simpl never.
Arguments report_text : simpl never.

(* ================================================================== *)
(** * Reasoning about traces                                           *)
(* ================================================================== *)

Lemma bind_pair {X Y} (es : list event) (o : outcome X) (k : X -> M Y) :
  bind (es, o) k =
  match o with
  | Ok x => ((es ++ fst (k x))%list, snd (k x))
  | Exit c => (es, Exit c)
  | Raise e => (es, Raise e)
  end.
Proof.
  destruct o; simpl; trivial.
  destruct (k x); reflexivity.
Qed.

Lemma bind_emit {Y} (e : event) (k : unit -> M Y) :
  bind (emit e) k = (e :: fst (k tt), snd (k tt)).
Proof. unfold emit. rewrite bind_pair. reflexivity. Qed.

Lemma bind_ret {X Y} (x : X) (k : X -> M Y) : bind (ret x) k = k x.
Proof. unfold ret. rewrite bind_pair. destruct (k x); reflexivity. Qed.

Ltac bind_step :=
  match goal with
  | |- context [@bind ?X ?Y (?es, ?o) ?k] => rewrite (@bind_pair X Y es o k)
  end.

(** The paths a search over [paths] tries: up to and including the first
    one that loads. *)
Fixpoint attempted (load : string -> bool) (paths : list string) : list string :=
  match paths with
  | [] => []
  | p :: ps => p :: (if load p then [] else attempted load ps)
  end.

Section Shapes.

Context {A : Type} {num : PyFloat A}.
Implicit Types (env : Env A) (s : Row A).

Lemma step1_load_eq env :
  step1_load env =
  match fs_majors env with
  | None => ([EvStep 1; EvReadCsv majors_path], Exit 1%Z)
  | Some majors =>
      ([EvStep 1; EvReadCsv majors_path; EvReadCsv mineralogy_path;
        EvReadCsv trace_path], Ok majors)
  end.
Proof.
  unfold step1_load, read_optional.
  destruct (fs_majors env), (fs_mineralogy env), (fs_trace env); reflexivity.
Qed.

Lemma try_databases_eq env paths :
  try_databases env paths =
  (map EvLoadDatabase (attempted (engine_load_database env) paths),
   Ok (existsb (engine_load_database env) paths)).
Proof.
  induction paths as [|p ps IH]; [reflexivity|].
  cbn [try_databases attempted existsb map]. unfold load_database.
  destruct (engine_load_database env p); cbn.
  - reflexivity.
  - rewrite IH. reflexivity.
Qed.

(** Every path the engine is asked to load in step 2, in order. *)
Definition load_attempts env : list string :=
  if engine_new env then
    (attempted (engine_load_database env) database_paths
     ++ (if existsb (engine_load_database env) database_paths then []
         else [package_database env]))%list
  else [].

Definition database_found env : bool :=
  existsb (engine_load_database env) database_paths
  || engine_load_database env (package_database env).

Lemma step2_init_eq env :
  step2_init env =
  (EvStep 2 :: EvEngineNew :: map EvLoadDatabase (load_attempts env),
   Ok (negb (engine_new env && database_found env))).
Proof.
  unfold step2_init, load_attempts, database_found.
  rewrite bind_emit.
  destruct (engine_new env); [|reflexivity].
  cbn [try_except bind emit ret fst snd app].
  rewrite try_databases_eq.
  destruct (existsb (engine_load_database env) database_paths).
  - cbn. rewrite !app_nil_r. reflexivity.
  - unfold load_database.
    destruct (engine_load_database env (package_database env));
      cbn; rewrite ?app_nil_r, ?map_app; reflexivity.
Qed.

Lemma step3_select_eq (majors : list (Row A)) :
  step3_select majors =
  ([EvStep 3],
   match dropna majors with
   | [] => Exit 1%Z
   | s :: _ => Ok (mkSelection majors s (DDPD_ID s) (major_elements_of s)
                               (total_oxides_of (major_elements_of s)))
   end).
Proof.
  unfold step3_select. rewrite bind_emit.
  destruct (dropna majors); reflexivity.
Qed.

(** The selected output under its headings, every cell coerced. *)
Definition coerced_output env (cols : list string) (data : list (list (pyval A)))
  : Frame A :=
  mkFrame cols (map (map (to_numeric env))
                    (map (pad_row PyNone (length cols)) data)).

(** The table the engine branch produces, if it produces one. *)
Definition engine_table env s : option (Frame A) :=
  match engine_run env (generate_advanced_phreeqc_input s) with
  | Some (OutRows cols (d :: data)) =>
      if Nat.eqb (max_width (d :: data)) (length cols) && negb (has_dup cols)
      then Some (coerced_output env cols (d :: data))
      else None
  | _ => None
  end.

Lemma engine_table_some env s df :
  engine_table env s = Some df ->
  exists cols d data,
    engine_run env (generate_advanced_phreeqc_input s)
    = Some (OutRows cols (d :: data))
    /\ df = coerced_output env cols (d :: data).
Proof.
  unfold engine_table.
  destruct (engine_run env (generate_advanced_phreeqc_input s))
    as [[|cols [|d data]]|]; try discriminate.
  destruct (Nat.eqb _ _ && negb _); [|discriminate].
  intros [= <-]. eauto.
Qed.

Definition engine_events s : list event :=
  [EvBuildInput; EvRunString (generate_advanced_phreeqc_input s)].

Lemma run_engine_eq env s :
  run_engine env s = (engine_events s, Ok (engine_table env s)).
Proof.
  unfold run_engine, engine_table, engine_events, coerced_output.
  rewrite !bind_emit.
  destruct (engine_run env (generate_advanced_phreeqc_input s))
    as [[|cols [|d data]]|]; try reflexivity.
  unfold DataFrame, coerce_columns.
  cbn [output_len Nat.ltb Nat.leb length fst snd try_except].
  destruct (Nat.eqb (max_width (d :: data)) (length cols)); [|reflexivity].
  cbn [bind ret columns rows fst snd andb].
  destruct (has_dup cols); reflexivity.
Qed.

Definition synthetic_sim s : Sim A :=
  mkSim (synthetic_results s) (Some (cao_pct_of s, mgo_pct_of s)).

Lemma step4_simulate_eq env (use_synthetic : bool) s :
  step4_simulate env use_synthetic s =
  if use_synthetic then ([EvStep 4; EvSynthetic], Ok (synthetic_sim s))
  else match engine_table env s with
       | Some df => (EvStep 4 :: engine_events s, Ok (mkSim df None))
       | None => (EvStep 4 :: (engine_events s ++ [EvSynthetic])%list,
                  Ok (synthetic_sim s))
       end.
Proof.
  unfold step4_simulate. rewrite bind_emit.
  destruct use_synthetic; cbn [negb].
  - rewrite bind_ret. reflexivity.
  - rewrite run_engine_eq, bind_pair.
    destruct (engine_table env s); reflexivity.
Qed.

(** Computations that perform no event. *)
Definition silent {X} (m : M X) : Prop := fst m = [].

Lemma silent_ret {X} (x : X) : silent (ret x).
Proof. reflexivity. Qed.

Lemma silent_raise {X} (e : exn) : silent (@raise X e).
Proof. reflexivity. Qed.

Lemma silent_bind {X Y} (m : M X) (k : X -> M Y) :
  silent m -> (forall x, silent (k x)) -> silent (bind m k).
Proof.
  unfold silent. destruct m as [es [x|c|e]]; cbn; intros -> Hk; trivial.
  specialize (Hk x). destruct (k x); cbn in *; assumption.
Qed.

Lemma silent_getitem (df : Frame A) name : silent (getitem df name).
Proof. unfold getitem. destruct (column nan df name); reflexivity. Qed.

Lemma silent_iloc_first (xs : list A) : silent (iloc_first xs).
Proof. destruct xs; reflexivity. Qed.

Lemma silent_iloc_last (xs : list A) : silent (iloc_last xs).
Proof. destruct xs; reflexivity. Qed.

Lemma silent_bound name (v : option A) : silent (bound name v).
Proof. destruct v; reflexivity. Qed.

Lemma silent_if {X} (b : bool) (m1 m2 : M X) :
  silent m1 -> silent m2 -> silent (if b then m1 else m2).
Proof. destruct b; trivial. Qed.

Lemma step5_analyse_events (df : Frame A) :
  fst (step5_analyse df) = [EvStep 5].
Proof.
  unfold step5_analyse. rewrite bind_emit. cbn [fst]. f_equal.
  repeat first
    [ apply silent_bind; [|intros]
    | apply silent_if
    | apply silent_getitem | apply silent_iloc_first | apply silent_iloc_last
    | apply silent_ret ].
Qed.

(** Computations that never call [exit]. *)
Definition stays {X} (m : M X) : Prop := forall c, snd m <> Exit c.

Lemma stays_ret {X} (x : X) : stays (ret x).
Proof. intros c. discriminate. Qed.

Lemma stays_raise {X} (e : exn) : stays (@raise X e).
Proof. intros c. discriminate. Qed.

Lemma stays_emit (e : event) : stays (emit e).
Proof. intros c. discriminate. Qed.

Lemma stays_bind {X Y} (m : M X) (k : X -> M Y) :
  stays m -> (forall x, stays (k x)) -> stays (bind m k).
Proof.
  unfold stays. destruct m as [es [x|c|e]]; cbn; intros Hm Hk c'.
  - specialize (Hk x c'). destruct (k x); exact Hk.
  - elim (Hm c). reflexivity.
  - discriminate.
Qed.

Lemma stays_getitem (df : Frame A) name : stays (getitem df name).
Proof. unfold getitem. destruct (column nan df name); intros c; discriminate. Qed.

Lemma stays_iloc_first (xs : list A) : stays (iloc_first xs).
Proof. destruct xs; intros c; discriminate. Qed.

Lemma stays_iloc_last (xs : list A) : stays (iloc_last xs).
Proof. destruct xs; intros c; discriminate. Qed.

Lemma stays_if {X} (b : bool) (m1 m2 : M X) :
  stays m1 -> stays m2 -> stays (if b then m1 else m2).
Proof. destruct b; trivial. Qed.

Lemma step5_stays (df : Frame A) : stays (step5_analyse df).
Proof.
  unfold step5_analyse.
  repeat first
    [ apply stays_bind; [|intros]
    | apply stays_if
    | apply stays_emit
    | apply stays_getitem | apply stays_iloc_first | apply stays_iloc_last
    | apply stays_ret ].
Qed.

(** Whether step 6 gets as far as calling [savefig]. *)
Definition reaches_savefig env (sim : Sim A) : bool :=
  (negb (has_column (results_df sim) "Ca+2" && has_column (results_df sim) "Mg+2")
   || match fallback_pcts sim with Some _ => true | None => false end)
  && matplotlib_ok env.

Lemma step6_visualise_eq env (sim : Sim A) :
  step6_visualise env sim =
  (EvStep 6 :: (if reaches_savefig env sim then [EvSaveFig figure_path] else []),
   Ok tt).
Proof.
  unfold step6_visualise, reaches_savefig. rewrite bind_emit.
  destruct (has_column (results_df sim) "Ca+2" && has_column (results_df sim) "Mg+2"),
    (fallback_pcts sim), (matplotlib_ok env), (savefig_ok env); reflexivity.
Qed.

Lemma step7_report_eq env (sel : Selection A) (an : Analysis A) :
  step7_report env sel an =
  match final_calcite_si an, final_dolomite_si an with
  | Some cs, Some ds =>
      ([EvStep 7; EvWriteFile report_path (report_text env sel an cs ds)],
       if fs_write_ok env then Ok tt else Raise OSError)
  | Some _, None => ([EvStep 7], Raise (NameError "final_dolomite_si"))
  | None, _ => ([EvStep 7], Raise (NameError "final_calcite_si"))
  end.
Proof.
  unfold step7_report. rewrite bind_emit.
  destruct (final_calcite_si an), (final_dolomite_si an); try reflexivity.
  cbn [bound]. rewrite !bind_ret, bind_emit.
  destruct (fs_write_ok env); reflexivity.
Qed.

Lemma step8_summary_eq (an : Analysis A) :
  step8_summary an =
  ([EvStep 8],
   match final_calcite_si an with
   | Some _ => Ok tt
   | None => Raise (NameError "final_calcite_si")
   end).
Proof.
  unfold step8_summary. rewrite bind_emit.
  destruct (final_calcite_si an); reflexivity.
Qed.

End Shapes.

Section Runs.

Context {A : Type} {num : PyFloat A}.
Implicit Types (env : Env A) (s : Row A).

Definition loading_events : list event :=
  [EvStep 1; EvReadCsv majors_path; EvReadCsv mineralogy_path;
   EvReadCsv trace_path].

Definition init_events env : list event :=
  EvStep 2 :: EvEngineNew :: map EvLoadDatabase (load_attempts env).

(** The value of [use_synthetic] after step 2. *)
Definition synthetic_mode env : bool :=
  negb (engine_new env && database_found env).

Definition selection_of (majors : list (Row A)) s : Selection A :=
  mkSelection majors s (DDPD_ID s) (major_elements_of s)
              (total_oxides_of (major_elements_of s)).

Lemma step4_simulate_ok env (b : bool) s :
  exists sim, snd (step4_simulate env b s) = Ok sim.
Proof.
  rewrite step4_simulate_eq.
  destruct b; [|destruct (engine_table env s)]; eexists; reflexivity.
Qed.

Lemma simulate_eq env :
  simulate env =
  match fs_majors env with
  | None => ([EvStep 1; EvReadCsv majors_path], Exit 1%Z)
  | Some majors =>
      match dropna majors with
      | [] => ((loading_events ++ init_events env ++ [EvStep 3])%list, Exit 1%Z)
      | s :: _ =>
          ((loading_events ++ init_events env ++ [EvStep 3]
            ++ fst (step4_simulate env (synthetic_mode env) s))%list,
           match snd (step4_simulate env (synthetic_mode env) s) with
           | Ok sim => Ok (selection_of majors s, sim)
           | Exit c => Exit c
           | Raise e => Raise e
           end)
      end
  end.
Proof.
  unfold simulate. rewrite step1_load_eq.
  destruct (fs_majors env) as [majors|]; [|reflexivity].
  bind_step. cbn beta.
  rewrite step2_init_eq. bind_step. cbn beta.
  rewrite step3_select_eq. bind_step.
  fold (init_events env). fold (synthetic_mode env). fold loading_events.
  destruct (dropna majors) as [|s rest]; [reflexivity|].
  cbn beta iota. cbn [sample]. fold (selection_of majors s).
  destruct (step4_simulate env (synthetic_mode env) s) as [es4 [sim|c|e]];
    bind_step; cbn [fst snd ret]; rewrite ?app_nil_r; reflexivity.
Qed.

(** What a run that reaches step 5 has gone through. *)
Lemma simulate_inv env es (sel : Selection A) (sim : Sim A) :
  simulate env = (es, Ok (sel, sim)) ->
  exists majors s rest,
    fs_majors env = Some majors /\ dropna majors = s :: rest
    /\ sel = selection_of majors s
    /\ snd (step4_simulate env (synthetic_mode env) s) = Ok sim.
Proof.
  rewrite simulate_eq.
  destruct (fs_majors env) as [majors|]; [|discriminate].
  destruct (dropna majors) as [|s rest] eqn:Hdrop; [discriminate|].
  destruct (snd (step4_simulate env (synthetic_mode env) s)) as [sim'|c|e] eqn:E;
    try discriminate.
  intros [= <- <- <-].
  exists majors, s, rest. repeat split; trivial.
Qed.

(** The table of step 4 is the synthetic one, or the engine was there and
    answered with at least one row of data. *)
Lemma step4_table env s (sim : Sim A) :
  snd (step4_simulate env (synthetic_mode env) s) = Ok sim ->
  sim = synthetic_sim s
  \/ (engine_new env = true /\ database_found env = true
      /\ exists cols d data,
           engine_run env (generate_advanced_phreeqc_input s)
           = Some (OutRows cols (d :: data))
           /\ results_df sim = coerced_output env cols (d :: data)).
Proof.
  rewrite step4_simulate_eq. unfold synthetic_mode.
  destruct (engine_new env); [|intros [= <-]; now left].
  destruct (database_found env); [|intros [= <-]; now left].
  cbn [andb negb].
  destruct (engine_table env s) as [df|] eqn:E; intros [= <-]; [|now left].
  right. destruct (engine_table_some _ _ _ E) as (cols & d & data & Hrun & ->).
  repeat split; eauto.
Qed.

Definition figure_events env (sim : Sim A) : list event :=
  if reaches_savefig env sim then [EvSaveFig figure_path] else [].

Lemma publish_eq env (sel : Selection A) (sim : Sim A) :
  publish env (sel, sim) =
  match snd (step5_analyse (results_df sim)) with
  | Ok an =>
      match final_calcite_si an, final_dolomite_si an with
      | Some cs, Some ds =>
          if fs_write_ok env then
            ((EvStep 5 :: EvStep 6 :: figure_events env sim
              ++ [EvStep 7; EvWriteFile report_path (report_text env sel an cs ds);
                  EvStep 8])%list, Ok tt)
          else
            ((EvStep 5 :: EvStep 6 :: figure_events env sim
              ++ [EvStep 7; EvWriteFile report_path (report_text env sel an cs ds)])%list,
             Raise OSError)
      | Some _, None =>
          ((EvStep 5 :: EvStep 6 :: figure_events env sim ++ [EvStep 7])%list,
           Raise (NameError "final_dolomite_si"))
      | None, _ =>
          ((EvStep 5 :: EvStep 6 :: figure_events env sim ++ [EvStep 7])%list,
           Raise (NameError "final_calcite_si"))
      end
  | Exit c => ([EvStep 5], Exit c)
  | Raise e => ([EvStep 5], Raise e)
  end.
Proof.
  unfold publish. cbn [fst snd].
  pose proof (step5_analyse_events (results_df sim)) as E5.
  destruct (step5_analyse (results_df sim)) as [es5 [an|c|e]];
    cbn [fst snd] in *; subst es5; bind_step; try reflexivity.
  cbn beta. rewrite step6_visualise_eq. bind_step. cbn beta.
  rewrite step7_report_eq, step8_summary_eq. fold (figure_events env sim).
  destruct (final_calcite_si an), (final_dolomite_si an);
    try (bind_step; cbn [fst snd app]; rewrite ?app_nil_r; reflexivity).
  destruct (fs_write_ok env); bind_step; cbn [fst snd app];
    rewrite ?app_nil_r; reflexivity.
Qed.

End Runs.

(* ================================================================== *)
(** * The synthetic series                                             *)
(* ================================================================== *)

Section Synthetic.

Context {A : Type} {num : PyFloat A}.
Implicit Types (env : Env A) (s : Row A).


Lemma synthetic_columns (c m si n k : A) :
  let df := synthetic_table c m si n k in
  column nan df "pH" = Some pH_values
  /\ column nan df "Ca+2" = Some (per_thousand (ca_values c))
  /\ column nan df "Mg+2" = Some (per_thousand (mg_values m))
  /\ column nan df "Na+" = Some (per_thousand (na_values n))
  /\ column nan df "K+" = Some (per_thousand (k_values k))
  /\ column nan df "HCO3-" = Some (per_thousand hco3_values)
  /\ column nan df "CO3-2" = Some (per_thousand co3_values)
  /\ column nan df "Alk" = Some (per_thousand alkalinity).
Proof. repeat split; reflexivity. Qed.


(** The analysis of the synthetic table. *)
Definition synthetic_analysis s : Analysis A :=
  let ca := (cao_pct_of s * lit 0.08 * lit 1.0 / lit 1000 * lit 1000)%py in
  let mg := (mgo_pct_of s * lit 0.06 * lit 1.0 / lit 1000 * lit 1000)%py in
  mkAnalysis (lit 5.6) (lit 8.0) (lit 8.0 - lit 5.6)%py
             ca mg (ca + mg)%py
             (lit 5.2 / lit 1000 * lit 1000 * lit 44)%py
             ((lit 5.2 + lit 2 * lit 0.4) / lit 1000 * lit 1000)%py
             (Some (lit 1.1)) (Some (lit 1.0)).

Lemma step5_synthetic s :
  step5_analyse (synthetic_results s) = ([EvStep 5], Ok (synthetic_analysis s)).
Proof. reflexivity. Qed.

End Synthetic.

(* ================================================================== *)
(** * Whole runs                                                       *)
(* ================================================================== *)

(** ** Projections of a trace *)

Definition steps_of (es : list event) : list nat :=
  flat_map (fun e => match e with EvStep n => [n] | _ => [] end) es.

Definition db_attempts (es : list event) : list string :=
  flat_map (fun e => match e with EvLoadDatabase p => [p] | _ => [] end) es.

Definition reads_of (es : list event) : list string :=
  flat_map (fun e => match e with EvReadCsv p => [p] | _ => [] end) es.

(** The files a trace opens for writing. *)
Definition writes_of (es : list event) : list string :=
  flat_map (fun e => match e with
                     | EvSaveFig p => [p]
                     | EvWriteFile p _ => [p]
                     | _ => []
                     end) es.

Definition builds_of (es : list event) : nat :=
  length (filter (fun e => match e with EvBuildInput => true | _ => false end) es).

(** Simulation, plotting and report writing: everything from step 4 on. *)
Definition downstream (e : event) : bool :=
  match e with
  | EvStep n => Nat.leb 4 n
  | EvBuildInput | EvRunString _ | EvSynthetic | EvSaveFig _ | EvWriteFile _ _ => true
  | EvReadCsv _ | EvEngineNew | EvLoadDatabase _ => false
  end.

Lemma steps_of_app es1 es2 : steps_of (es1 ++ es2) = (steps_of es1 ++ steps_of es2)%list.
Proof. apply flat_map_app. Qed.

Lemma db_attempts_app es1 es2 :
  db_attempts (es1 ++ es2) = (db_attempts es1 ++ db_attempts es2)%list.
Proof. apply flat_map_app. Qed.

Lemma reads_of_app es1 es2 : reads_of (es1 ++ es2) = (reads_of es1 ++ reads_of es2)%list.
Proof. apply flat_map_app. Qed.

Lemma writes_of_app es1 es2 : writes_of (es1 ++ es2) = (writes_of es1 ++ writes_of es2)%list.
Proof. apply flat_map_app. Qed.

Lemma builds_of_app es1 es2 : builds_of (es1 ++ es2) = builds_of es1 + builds_of es2.
Proof. unfold builds_of. rewrite filter_app, length_app. reflexivity. Qed.

Lemma steps_of_loads l : steps_of (map EvLoadDatabase l) = [].
Proof. induction l; trivial. Qed.

Lemma db_attempts_loads l : db_attempts (map EvLoadDatabase l) = l.
Proof. unfold db_attempts. induction l as [|p l IH]; [reflexivity|]. cbn. now rewrite IH. Qed.

Lemma reads_of_loads l : reads_of (map EvLoadDatabase l) = [].
Proof. induction l; trivial. Qed.

Lemma writes_of_loads l : writes_of (map EvLoadDatabase l) = [].
Proof. induction l; trivial. Qed.

Lemma builds_of_loads l : builds_of (map EvLoadDatabase l) = 0.
Proof. induction l; trivial. Qed.

Lemma downstream_loads l :
  Forall (fun e => downstream e = false) (map EvLoadDatabase l).
Proof. induction l; constructor; trivial. Qed.

Create Rewrite HintDb trace.
#[local] Hint Rewrite steps_of_app db_attempts_app reads_of_app writes_of_app
  builds_of_app steps_of_loads db_attempts_loads reads_of_loads writes_of_loads
  builds_of_loads app_nil_r : trace.

Section WholeRun.

Context {A : Type} {num : PyFloat A}.
Implicit Types (env : Env A) (s : Row A).

Lemma run_eq env :
  run env =
  match fs_majors env with
  | None => ([EvStep 1; EvReadCsv majors_path], Exit 1%Z)
  | Some majors =>
      match dropna majors with
      | [] => ((loading_events ++ init_events env ++ [EvStep 3])%list, Exit 1%Z)
      | s :: _ =>
          match snd (step4_simulate env (synthetic_mode env) s) with
          | Ok sim =>
              ((loading_events ++ init_events env ++ [EvStep 3]
                ++ fst (step4_simulate env (synthetic_mode env) s)
                ++ fst (publish env (selection_of majors s, sim)))%list,
               snd (publish env (selection_of majors s, sim)))
          | Exit c =>
              ((loading_events ++ init_events env ++ [EvStep 3]
                ++ fst (step4_simulate env (synthetic_mode env) s))%list, Exit c)
          | Raise e =>
              ((loading_events ++ init_events env ++ [EvStep 3]
                ++ fst (step4_simulate env (synthetic_mode env) s))%list, Raise e)
          end
      end
  end.
Proof.
  unfold run, script. rewrite simulate_eq.
  destruct (fs_majors env) as [majors|]; [|reflexivity].
  destruct (dropna majors) as [|s rest]; [reflexivity|].
  destruct (snd (step4_simulate env (synthetic_mode env) s));
    bind_step; rewrite <- ?app_assoc; reflexivity.
Qed.

(** Case analysis of a run along the branches the script can take. *)
Ltac run_cases env :=
  rewrite (run_eq env);
  destruct (fs_majors env) as [?majors|];
  [ destruct (dropna majors) as [|?s ?rest];
    [ | rewrite step4_simulate_eq;
        destruct (synthetic_mode env);
        [ | destruct (engine_table env s) ];
        cbn [fst snd]; rewrite publish_eq;
        cbn [fst snd results_df synthetic_sim];
        match goal with
        | |- context [snd (step5_analyse ?df)] =>
            destruct (snd (step5_analyse df)) as [?an|?c|?e];
            [ destruct (final_calcite_si an), (final_dolomite_si an),
                (fs_write_ok env) | | ]
        end;
        unfold figure_events;
        match goal with
        | |- context [reaches_savefig ?e ?sm] => destruct (reaches_savefig e sm)
        | _ => idtac
        end ]
  | ].

Lemma steps_of_init env : steps_of (init_events env) = [2].
Proof. unfold init_events. cbn. apply f_equal, steps_of_loads. Qed.

Lemma reads_of_init env : reads_of (init_events env) = [].
Proof. unfold init_events. cbn. apply reads_of_loads. Qed.

Lemma writes_of_init env : writes_of (init_events env) = [].
Proof. unfold init_events. cbn. apply writes_of_loads. Qed.

Lemma builds_of_init env : builds_of (init_events env) = 0.
Proof. unfold init_events. cbn. apply builds_of_loads. Qed.

Lemma db_attempts_init env : db_attempts (init_events env) = load_attempts env.
Proof. unfold init_events. cbn. apply db_attempts_loads. Qed.

Lemma steps_of_run env :
  exists n, 1 <= n <= 8
    /\ steps_of (fst (run env)) = seq 1 n
    /\ (snd (run env) = Ok tt -> n = 8)
    /\ (n < 5 -> snd (run env) = Exit 1%Z).
Proof.
  run_cases env; cbn [fst snd];
    autorewrite with trace; rewrite ?steps_of_init;
    match goal with
    | |- exists n, _ /\ ?l = _ /\ _ =>
        let k := eval cbn in (length l) in exists k
    end;
    (split; [lia|]); (split; [reflexivity|]);
    (split; [intros; (reflexivity || discriminate) | intros; (reflexivity || lia)]).
Qed.


Lemma dropna_none (majors : list (Row A)) :
  Forall (fun r => complete r = false) majors -> dropna majors = [].
Proof.
  unfold dropna. induction 1 as [|r l Hr _ IH]; cbn; [reflexivity|].
  now rewrite Hr.
Qed.

Lemma dropna_first (pre : list (Row A)) s post :
  Forall (fun r => complete r = false) pre -> complete s = true ->
  dropna (pre ++ s :: post) = s :: dropna post.
Proof.
  unfold dropna. induction 1 as [|r l Hr _ IH]; cbn; intros Hs.
  - now rewrite Hs.
  - rewrite Hr. auto.
Qed.

Lemma attempted_first (load : string -> bool) pre p post :
  Forall (fun q => load q = false) pre -> load p = true ->
  attempted load (pre ++ p :: post) = (pre ++ [p])%list
  /\ existsb load (pre ++ p :: post) = true.
Proof.
  induction 1 as [|q l Hq _ IH]; cbn; intros Hp.
  - now rewrite Hp.
  - rewrite Hq. destruct (IH Hp) as [-> ->]. auto.
Qed.

Lemma attempted_all (load : string -> bool) paths :
  Forall (fun q => load q = false) paths ->
  attempted load paths = paths /\ existsb load paths = false.
Proof.
  induction 1 as [|q l Hq _ [IH1 IH2]]; cbn; [auto|].
  rewrite Hq, IH1, IH2. auto.
Qed.

(** The engine is unavailable for sample [s]: its initialisation raises,
    no database can be loaded, the run raises, or the selected output has
    at most one row. *)
Definition engine_unavailable env s : Prop :=
  engine_new env = false
  \/ (Forall (fun p => engine_load_database env p = false) database_paths
      /\ engine_load_database env (package_database env) = false)
  \/ engine_run env (generate_advanced_phreeqc_input s) = None
  \/ (exists output,
        engine_run env (generate_advanced_phreeqc_input s) = Some output
        /\ output_len output <= 1).

Lemma unavailable_synthetic env s (sim : Sim A) :
  snd (step4_simulate env (synthetic_mode env) s) = Ok sim ->
  engine_unavailable env s -> sim = synthetic_sim s.
Proof.
  intros H4 Hun.
  destruct (step4_table _ _ _ H4)
    as [-> | (Hnew & Hdb & cols & d & data & Hrun & _)]; [reflexivity|].
  exfalso.
  destruct Hun as [H | [[Hall Hpkg] | [H | (output & H & Hlen)]]].
  - congruence.
  - unfold database_found in Hdb.
    destruct (attempted_all _ _ Hall) as [_ Hnone].
    rewrite Hnone, Hpkg in Hdb. discriminate Hdb.
  - congruence.
  - rewrite Hrun in H. injection H as <-. cbn in Hlen. lia.
Qed.

Lemma db_attempts_run env :
  db_attempts (fst (run env)) =
  match fs_majors env with
  | None => []
  | Some _ => load_attempts env
  end.
Proof.
  run_cases env; cbn [fst snd]; autorewrite with trace;
    rewrite ?db_attempts_init; cbn; rewrite ?app_nil_r; reflexivity.
Qed.

(** C4. The database search tries the seven listed paths in list order,
    each at most once, and stops at the first one that loads; the package
    database is tried once, and only after all seven have failed.  No
    database is tried when the script stops in step 1 or the engine cannot
    be created. *)
Theorem database_search_is_linear env :
  let load := engine_load_database env in
  let attempts := db_attempts (fst (run env)) in
  length database_paths = 7 /\ NoDup database_paths
  /\ (fs_majors env = None \/ engine_new env = false -> attempts = [])
  /\ (fs_majors env <> None -> engine_new env = true ->
      (forall pre p post,
          database_paths = (pre ++ p :: post)%list ->
          Forall (fun q => load q = false) pre -> load p = true ->
          attempts = (pre ++ [p])%list)
      /\ (Forall (fun q => load q = false) database_paths ->
          attempts = (database_paths ++ [package_database env])%list)).
Proof.
  cbn zeta. rewrite db_attempts_run. unfold load_attempts.
  split; [reflexivity|]. split.
  { repeat constructor; cbn; intuition discriminate. }
  split.
  - intros [->| ->]; [reflexivity|]. destruct (fs_majors env); reflexivity.
  - intros Hm ->. destruct (fs_majors env); [clear Hm|congruence].
    split.
    + intros pre p post -> Hpre Hp.
      destruct (attempted_first _ pre p post Hpre Hp) as [-> ->].
      apply app_nil_r.
    + intros Hall. destruct (attempted_all _ _ Hall) as [-> ->]. reflexivity.
Qed.

Lemma no_payload_in_synthetic_mode env :
  synthetic_mode env = true -> builds_of (fst (run env)) = 0.
Proof.
  intros Hsyn. rewrite run_eq.
  destruct (fs_majors env) as [majors|]; [|reflexivity].
  destruct (dropna majors) as [|s rest]; cbn [fst snd];
    [autorewrite with trace; rewrite ?builds_of_init; reflexivity|].
  rewrite step4_simulate_eq, Hsyn. cbn [fst snd]. rewrite publish_eq.
  destruct (snd (step5_analyse (results_df (synthetic_sim s)))) as [an|c|e];
    [destruct (final_calcite_si an), (final_dolomite_si an), (fs_write_ok env)| |];
    unfold figure_events; try destruct (reaches_savefig env (synthetic_sim s));
    cbn [fst snd]; autorewrite with trace; rewrite ?builds_of_init; reflexivity.
Qed.

(** How often the script's banner [STEP n] appears in a trace. *)
Definition step_count (n : nat) (es : list event) : nat :=
  count_occ Nat.eq_dec (steps_of es) n.

(** Where a run stops early, and why. *)
Lemma early_stops env :
  (fs_majors env = None ->
     steps_of (fst (run env)) = [1] /\ snd (run env) = Exit 1%Z)
  /\ (forall majors, fs_majors env = Some majors -> dropna majors = [] ->
        steps_of (fst (run env)) = [1; 2; 3] /\ snd (run env) = Exit 1%Z)
  /\ (forall majors s rest,
        fs_majors env = Some majors -> dropna majors = s :: rest ->
        (exists n, 5 <= n <= 8 /\ steps_of (fst (run env)) = seq 1 n)
        /\ forall c, snd (run env) <> Exit c).
Proof.
  rewrite (run_eq env).
  destruct (fs_majors env) as [majors|].
  2:{ split; [intros _; split; reflexivity|]. split; intros; discriminate. }
  split; [discriminate|].
  destruct (dropna majors) as [|s rest] eqn:Hd.
  - split.
    + intros ? [= <-] _. cbn [fst snd]. autorewrite with trace.
      rewrite steps_of_init. split; reflexivity.
    + intros ? ? ? [= <-] H. congruence.
  - split; [intros ? [= <-] H; congruence|]. intros _ _ _ _ _.
    rewrite step4_simulate_eq.
    destruct (synthetic_mode env); [|destruct (engine_table env s)];
      cbn [fst snd]; rewrite publish_eq; cbn [fst snd results_df synthetic_sim];
      match goal with
      | |- context [snd (step5_analyse ?df)] =>
          generalize (step5_stays df); unfold stays;
          destruct (snd (step5_analyse df)) as [an|c|e]; intros Hst;
          [ destruct (final_calcite_si an), (final_dolomite_si an),
              (fs_write_ok env)
          | exfalso; exact (Hst c eq_refl) | ]
      end;
      unfold figure_events;
      match goal with
      | |- context [reaches_savefig ?e ?sm] => destruct (reaches_savefig e sm)
      | _ => idtac
      end;
      cbn [fst snd]; autorewrite with trace; rewrite ?steps_of_init;
      (split; [|intros ?; discriminate]);
      match goal with
      | |- exists n, _ /\ ?l = _ =>
          let k := eval cbn in (length l) in exists k
      end;
      (split; [lia|reflexivity]).
Qed.

(** C5 (as amended). The steps run in the fixed order 1, 2, ..., each at
    most once and never again after a later one: the banners of a run are
    an initial segment of 1..8.  A run that ends normally has run every
    step exactly once; a run that ends before step 5 has ended by
    [exit(1)]; the engine payload is built at most once, and not at all
    when the engine cannot be created.  A run stops by [exit(1)] after
    step 1 when the majors file cannot be loaded, after step 3 when the
    table has no complete row, and in no other case: with a complete row
    it reaches step 5 and never exits. *)
Theorem steps_run_in_order env :
  (exists n, 1 <= n <= 8
     /\ steps_of (fst (run env)) = seq 1 n
     /\ (snd (run env) = Ok tt -> n = 8)
     /\ (n < 5 -> snd (run env) = Exit 1%Z))
  /\ (forall k, step_count k (fst (run env)) <= 1)
  /\ builds_of (fst (run env)) <= 1
  /\ (engine_new env = false -> builds_of (fst (run env)) = 0)
  /\ (snd (run env) = Ok tt ->
        forall k, 1 <= k <= 8 -> step_count k (fst (run env)) = 1)
  /\ (fs_majors env = None ->
        steps_of (fst (run env)) = [1] /\ snd (run env) = Exit 1%Z)
  /\ (forall majors, fs_majors env = Some majors -> dropna majors = [] ->
        steps_of (fst (run env)) = [1; 2; 3] /\ snd (run env) = Exit 1%Z)
  /\ (forall majors s rest,
        fs_majors env = Some majors -> dropna majors = s :: rest ->
        (exists n, 5 <= n <= 8 /\ steps_of (fst (run env)) = seq 1 n)
        /\ forall c, snd (run env) <> Exit c).
Proof.
  split; [apply steps_of_run|]. split; [|split; [|split; [|split]]].
  5: apply early_stops.
  3:{ intros Hnew. apply no_payload_in_synthetic_mode.
      unfold synthetic_mode. now rewrite Hnew. }
  - intros k. unfold step_count.
    destruct (steps_of_run env) as (n & _ & -> & _).
    apply NoDup_count_occ, seq_NoDup.
  - run_cases env; cbn [fst snd]; autorewrite with trace;
      rewrite ?builds_of_init; cbn; lia.
  - intros Hok k Hk. unfold step_count.
    destruct (steps_of_run env) as (n & _ & -> & Hn & _).
    rewrite (Hn Hok).
    assert (H : In k [1; 2; 3; 4; 5; 6; 7; 8]) by (cbn; lia).
    cbn in H. repeat (destruct H as [<-|H]; [reflexivity|]). contradiction.
Qed.

(** C7. Each of the three input files is read at most once, each of the
    two output files is opened for writing at most once, nothing else is
    written, and no output file is an input file. *)
Theorem files_read_and_written_once env :
  (forall p, count_occ string_dec (reads_of (fst (run env))) p <= 1)
  /\ incl (reads_of (fst (run env))) [majors_path; mineralogy_path; trace_path]
  /\ (forall p, count_occ string_dec (writes_of (fst (run env))) p <= 1)
  /\ incl (writes_of (fst (run env))) [figure_path; report_path]
  /\ (forall p, In p [majors_path; mineralogy_path; trace_path] ->
                ~ In p (writes_of (fst (run env)))).
Proof.
  assert (Hr : reads_of (fst (run env)) = [majors_path]
               \/ reads_of (fst (run env))
                  = [majors_path; mineralogy_path; trace_path]).
  { run_cases env; cbn [fst snd]; autorewrite with trace;
      rewrite ?reads_of_init; cbn; auto. }
  assert (Hw : exists fig rep,
             writes_of (fst (run env)) = (fig ++ rep)%list
             /\ (fig = [] \/ fig = [figure_path])
             /\ (rep = [] \/ rep = [report_path])).
  { run_cases env; cbn [fst snd]; autorewrite with trace;
      rewrite ?writes_of_init; cbn;
      first [ exists [], []; now auto
            | exists [figure_path], []; now auto
            | exists [], [report_path]; now auto
            | exists [figure_path], [report_path]; now auto ]. }
  assert (Hnodup_r : NoDup [majors_path; mineralogy_path; trace_path]).
  { repeat constructor; cbn; intuition discriminate. }
  assert (Hnodup_w : NoDup [figure_path; report_path]).
  { repeat constructor; cbn; intuition discriminate. }
  assert (Hincl_w : incl (writes_of (fst (run env))) [figure_path; report_path]).
  { destruct Hw as (fig & rep & -> & [->| ->] & [->| ->]); cbn;
      intros x Hx; cbn in *; tauto. }
  split; [|split; [|split; [|split]]].
  - intros p. destruct Hr as [-> | ->].
    + apply (NoDup_count_occ string_dec). repeat constructor; cbn; tauto.
    + apply (NoDup_count_occ string_dec), Hnodup_r.
  - destruct Hr as [-> | ->]; intros x Hx; cbn in *; tauto.
  - intros p. apply (NoDup_count_occ string_dec).
    destruct Hw as (fig & rep & -> & [->| ->] & [->| ->]); cbn;
      repeat constructor; cbn; intuition discriminate.
  - exact Hincl_w.
  - intros p Hp Hin. apply Hincl_w in Hin.
    cbn in Hp, Hin.
    destruct Hp as [<-|[<-|[<-|[]]]]; destruct Hin as [H|[H|[]]]; discriminate H.
Qed.

(** C8. If no row of the majors table has all six oxide columns non-null,
    the run ends by [exit(1)] before any simulation, plotting or report
    writing; otherwise the sample the script analyses is the first row
    that has. *)
Theorem sample_is_first_complete_row env (majors : list (Row A)) :
  fs_majors env = Some majors ->
  (Forall (fun r => complete r = false) majors ->
     snd (run env) = Exit 1%Z
     /\ Forall (fun e => downstream e = false) (fst (run env)))
  /\ (forall pre s post,
        majors = (pre ++ s :: post)%list ->
        Forall (fun r => complete r = false) pre -> complete s = true ->
        exists es sel sim,
          simulate env = (es, Ok (sel, sim)) /\ sample sel = s
          /\ run env = bind (es, Ok (sel, sim)) (publish env)).
Proof.
  intros Hm. split.
  - intros Hnone. rewrite run_eq, Hm, (dropna_none _ Hnone). cbn [fst snd].
    split; [reflexivity|].
    unfold loading_events, init_events.
    repeat (apply Forall_cons; [reflexivity|]).
    apply Forall_app. split; [apply downstream_loads|].
    repeat constructor.
  - intros pre s post -> Hpre Hs.
    unfold run, script. rewrite simulate_eq, Hm, (dropna_first _ _ _ Hpre Hs).
    destruct (step4_simulate_ok env (synthetic_mode env) s) as [sim ->].
    eexists _, _, sim. split; [reflexivity|]. split; reflexivity.
Qed.

Lemma run_after_simulate env es (st : Selection A * Sim A) :
  simulate env = (es, Ok st) ->
  run env = ((es ++ fst (publish env st))%list, snd (publish env st)).
Proof.
  intros H. unfold run, script. rewrite H. bind_step. reflexivity.
Qed.

Lemma writes_of_simulate env : writes_of (fst (simulate env)) = [].
Proof.
  rewrite simulate_eq.
  destruct (fs_majors env) as [majors|]; [|reflexivity].
  destruct (dropna majors) as [|s rest]; cbn [fst];
    autorewrite with trace; rewrite ?writes_of_init; [reflexivity|].
  rewrite step4_simulate_eq.
  destruct (synthetic_mode env); [|destruct (engine_table env s)]; reflexivity.
Qed.

Lemma bind_ok_inv {X Y} (m : M X) (k : X -> M Y) y :
  snd (bind m k) = Ok y -> exists x, snd m = Ok x /\ snd (k x) = Ok y.
Proof.
  destruct m as [es [x|c|e]]; cbn; try discriminate.
  destruct (k x) as [es' r] eqn:E. cbn. intros ->. exists x. rewrite E. auto.
Qed.

Lemma index_of_has_column (name : string) cols i :
  index_of name cols = Some i -> existsb (String.eqb name) cols = true.
Proof.
  revert i. induction cols as [|c cs IH]; cbn; [discriminate|].
  destruct (String.eqb name c); [reflexivity|].
  destruct (index_of name cs); [|discriminate]. eauto.
Qed.

Lemma getitem_ok (df : Frame A) name c :
  snd (getitem df name) = Ok c -> has_column df name = true.
Proof.
  unfold getitem, column, has_column.
  destruct (index_of name (columns df)) eqn:E; [|discriminate].
  intros _. eapply index_of_has_column, E.
Qed.

(** Step 5 only passes on a table that has both cation columns. *)
Lemma step5_needs_cations (df : Frame A) an :
  snd (step5_analyse df) = Ok an ->
  has_column df "Ca+2" = true /\ has_column df "Mg+2" = true.
Proof.
  unfold step5_analyse. intros H.
  apply bind_ok_inv in H. destruct H as (_ & _ & H).
  apply bind_ok_inv in H. destruct H as (pH & _ & H).
  apply bind_ok_inv in H. destruct H as (p0 & _ & H).
  apply bind_ok_inv in H. destruct H as (p1 & _ & H).
  apply bind_ok_inv in H. destruct H as (ca & Hca & H).
  apply bind_ok_inv in H. destruct H as (ca1 & _ & H).
  apply bind_ok_inv in H. destruct H as (mg & Hmg & H).
  split; eapply getitem_ok; eassumption.
Qed.

(** Steps 1 to 4 have all begun when the results table is there. *)
Lemma steps_of_simulate env es (st : Selection A * Sim A) :
  simulate env = (es, Ok st) -> steps_of es = [1; 2; 3; 4].
Proof.
  rewrite simulate_eq.
  destruct (fs_majors env) as [majors|]; [|discriminate].
  destruct (dropna majors) as [|s rest]; [discriminate|].
  rewrite step4_simulate_eq.
  destruct (synthetic_mode env); [|destruct (engine_table env s)];
    cbn [fst snd]; intros H; apply (f_equal fst) in H; cbn [fst] in H;
    rewrite <- H; autorewrite with trace; rewrite steps_of_init; reflexivity.
Qed.

(** What the steps after a fallback do: step 5 computes its figures from
    the synthetic table, steps 6 and 7 follow, and only the writing of the
    report can still fail. *)
Lemma run_on_synthetic env es (sel : Selection A) :
  simulate env = (es, Ok (sel, synthetic_sim (sample sel))) ->
  steps_of (fst (run env))
  = (if fs_write_ok env then [1; 2; 3; 4; 5; 6; 7; 8] else [1; 2; 3; 4; 5; 6; 7])
  /\ snd (run env) = (if fs_write_ok env then Ok tt else Raise OSError)
  /\ In report_path (writes_of (fst (run env))).
Proof.
  intros Hsim.
  rewrite (run_after_simulate _ _ _ Hsim).
  pose proof (steps_of_simulate _ _ _ Hsim) as Hes.
  rewrite publish_eq. cbn [results_df synthetic_sim].
  rewrite step5_synthetic.
  cbn [fst snd synthetic_analysis final_calcite_si final_dolomite_si].
  unfold figure_events.
  destruct (fs_write_ok env), (reaches_savefig _ _); cbn [fst snd];
    autorewrite with trace; rewrite Hes;
    (split; [reflexivity|]); (split; [reflexivity|]);
    apply in_or_app; right; cbn; auto.
Qed.

(** C1. Whenever the engine is unavailable (initialisation raises, no
    database loads, the run raises, or the selected output has at most one
    row), the results table the script leaves for step 5 is the synthetic
    table of the fallback branch: twelve columns of seven values, the
    series written in the branch, with the four cation columns scaled by
    the sample's defaulted oxide percentages.  Step 5 computes its figures
    from it, steps 6 and 7 run, the report is written, and nothing but the
    writing of the report can still fail.  In every run that reaches
    step 5 the results table has at least one row. *)
Theorem fallback_when_engine_unavailable env es (sel : Selection A) (sim : Sim A) :
  simulate env = (es, Ok (sel, sim)) ->
  (engine_unavailable env (sample sel) ->
     let s := sample sel in
     let df := results_df sim in
     let cao_pct := or_default (CaO_pct s) (lit 5.0) in
     let mgo_pct := or_default (MgO_pct s) (lit 3.0) in
     let na2o_pct := or_default (Na2O_pct s) (lit 3.0) in
     let k2o_pct := or_default (K2O_pct s) (lit 2.0) in
     let released (rate : A) (profile : list A) :=
       map (fun p => (rate * p / lit 1000)%py) profile in
     let milli (values : list A) := map (fun v => (v / lit 1000)%py) values in
     (results_df sim = synthetic_results (sample sel)
      /\ length (rows (results_df sim)) = 7)
     /\ columns df
        = ["pH"; "Ca+2"; "Mg+2"; "Na+"; "K+"; "SiO2"; "HCO3-"; "CO3-2";
           "si_Calcite"; "si_Dolomite"; "si_Gibbsite"; "Alk"]
     /\ Forall (fun r => length r = 12) (rows df)
     /\ column nan df "pH"
        = Some [lit 5.6; lit 6.0; lit 6.4; lit 6.8; lit 7.2; lit 7.6; lit 8.0]
     /\ column nan df "Ca+2"
        = Some (released (cao_pct * lit 0.08)%py
                  [lit 0; lit 0.1; lit 0.25; lit 0.45; lit 0.7; lit 0.9; lit 1.0])
     /\ column nan df "Mg+2"
        = Some (released (mgo_pct * lit 0.06)%py
                  [lit 0; lit 0.08; lit 0.2; lit 0.4; lit 0.65; lit 0.85; lit 1.0])
     /\ column nan df "Na+"
        = Some (released (na2o_pct * lit 0.05)%py
                  [lit 0; lit 0.15; lit 0.35; lit 0.55; lit 0.75; lit 0.9; lit 1.0])
     /\ column nan df "K+"
        = Some (released (k2o_pct * lit 0.03)%py
                  [lit 0; lit 0.1; lit 0.3; lit 0.5; lit 0.7; lit 0.85; lit 1.0])
     /\ column nan df "SiO2"
        = Some (milli [lit 0.1; lit 0.3; lit 0.6; lit 1.0; lit 1.5; lit 2.1; lit 2.8])
     /\ column nan df "HCO3-"
        = Some (milli [lit 0.05; lit 0.3; lit 0.8; lit 1.5; lit 2.5; lit 3.8; lit 5.2])
     /\ column nan df "CO3-2"
        = Some (milli [lit 0; lit 0.01; lit 0.03; lit 0.08; lit 0.15; lit 0.25; lit 0.4])
     /\ column nan df "si_Calcite"
        = Some [lit (-2.8); lit (-2.1); lit (-1.4); lit (-0.7); lit 0.0; lit 0.6;
                lit 1.1]
     /\ column nan df "si_Dolomite"
        = Some [lit (-3.5); lit (-2.7); lit (-1.9); lit (-1.1); lit (-0.3); lit 0.4;
                lit 1.0]
     /\ column nan df "si_Gibbsite"
        = Some [lit (-1.5); lit (-1.0); lit (-0.5); lit 0.0; lit 0.4; lit 0.7; lit 1.0]
     /\ column nan df "Alk"
        = Some (milli [(lit 0.05 + lit 2 * lit 0)%py; (lit 0.3 + lit 2 * lit 0.01)%py;
                       (lit 0.8 + lit 2 * lit 0.03)%py; (lit 1.5 + lit 2 * lit 0.08)%py;
                       (lit 2.5 + lit 2 * lit 0.15)%py; (lit 3.8 + lit 2 * lit 0.25)%py;
                       (lit 5.2 + lit 2 * lit 0.4)%py])
     /\ (exists an, step5_analyse df = ([EvStep 5], Ok an))
     /\ steps_of (fst (run env))
        = (if fs_write_ok env then [1; 2; 3; 4; 5; 6; 7; 8]
           else [1; 2; 3; 4; 5; 6; 7])
     /\ snd (run env) = (if fs_write_ok env then Ok tt else Raise OSError)
     /\ In report_path (writes_of (fst (run env))))
  /\ rows (results_df sim) <> [].
Proof.
  intros Hsim.
  destruct (simulate_inv _ _ _ _ Hsim) as (majors & s & rest & _ & _ & Hsel & H4).
  split.
  - intros Hun. cbv zeta.
    assert (E : sim = synthetic_sim (sample sel)).
    { subst sel. cbn [sample selection_of] in *.
      exact (unavailable_synthetic _ _ _ H4 Hun). }
    rewrite E in Hsim. rewrite E.
    destruct (run_on_synthetic _ _ _ Hsim) as (Hsteps & Hout & Hrep).
    split; [split; reflexivity|].
    split; [reflexivity|].
    split; [repeat constructor|].
    do 12 (split; [reflexivity|]).
    split; [eexists; apply step5_synthetic|].
    auto.
  - destruct (step4_table _ _ _ H4)
      as [-> | (_ & _ & cols & d & data & _ & ->)]; [|discriminate].
    intros H. apply (f_equal (@length _)) in H. discriminate H.
Qed.

(** In a run that falls back to the synthetic table, nothing after step 4
    fails unless the report file cannot be written: the run goes through
    all eight steps and writes the report. *)
Theorem fallback_run_writes_report env es (sel : Selection A) (sim : Sim A) :
  simulate env = (es, Ok (sel, sim)) ->
  engine_unavailable env (sample sel) ->
  fs_write_ok env = true ->
  snd (run env) = Ok tt
  /\ steps_of (fst (run env)) = [1; 2; 3; 4; 5; 6; 7; 8]
  /\ In report_path (writes_of (fst (run env))).
Proof.
  intros Hsim Hun Hw.
  destruct (steps_of_run env) as (n & _ & Hsteps & Hn & _).
  rewrite Hsteps.
  rewrite (run_after_simulate _ _ _ Hsim) in *.
  destruct (simulate_inv _ _ _ _ Hsim) as (majors & s & rest & _ & _ & -> & H4).
  cbn [sample selection_of] in Hun.
  rewrite (unavailable_synthetic _ _ _ H4 Hun) in *.
  rewrite publish_eq in *. cbn [results_df synthetic_sim] in *.
  rewrite step5_synthetic in *. cbn [fst snd synthetic_analysis final_calcite_si
                                     final_dolomite_si] in *.
  rewrite Hw in *. cbn [fst snd] in *.
  split; [reflexivity|]. split; [now rewrite (Hn eq_refl)|].
  rewrite writes_of_app. apply in_or_app. right.
  unfold figure_events. destruct (reaches_savefig _ _); cbn; auto.
Qed.

(** When the engine's table is used the figure is never saved: panel 8
    reads [cao_pct] and [mgo_pct], which only the synthetic branch binds,
    and the handler of step 6 swallows the error. *)
Theorem figure_lost_when_engine_succeeds env es (sel : Selection A) (sim : Sim A) :
  simulate env = (es, Ok (sel, sim)) ->
  fallback_pcts sim = None ->
  ~ In figure_path (writes_of (fst (run env))).
Proof.
  intros Hsim Hnone.
  rewrite (run_after_simulate _ _ _ Hsim). cbn [fst].
  rewrite writes_of_app.
  replace es with (fst (simulate env)) by now rewrite Hsim.
  rewrite writes_of_simulate. cbn [app].
  rewrite publish_eq.
  destruct (snd (step5_analyse (results_df sim))) as [an|c|e] eqn:E5;
    [|cbn; tauto|cbn; tauto].
  destruct (step5_needs_cations _ _ E5) as [Hca Hmg].
  assert (Hfig : figure_events env sim = []).
  { unfold figure_events, reaches_savefig. now rewrite Hca, Hmg, Hnone. }
  rewrite Hfig.
  destruct (final_calcite_si an), (final_dolomite_si an), (fs_write_ok env);
    cbn; intuition discriminate.
Qed.

End WholeRun.


(** ** Order along a column *)

Section Order.

Context {A : Type} {num : PyFloat A}.

(** Every cell is [<=] (resp. [<]) the next one. *)
Fixpoint nondecreasing (xs : list A) : bool :=
  match xs with
  | x :: (y :: _) as rest => (x <=? y)%py && nondecreasing rest
  | _ => true
  end.

Fixpoint increasing (xs : list A) : bool :=
  match xs with
  | x :: (y :: _) as rest => (x <? y)%py && increasing rest
  | _ => true
  end.

(** Row by row, whether [Alk == HCO3- + 2 * CO3-2]. *)
Fixpoint alk_agrees (alk hco3 co3 : list A) : list bool :=
  match alk, hco3, co3 with
  | a :: alk', h :: hco3', c :: co3' =>
      (a =? h + lit 2 * c)%py :: alk_agrees alk' hco3' co3'
  | _, _, _ => []
  end.

Definition alk_is_carbonate_sum (df : Frame A) : bool :=
  match column nan df "Alk", column nan df "HCO3-", column nan df "CO3-2" with
  | Some alk, Some hco3, Some co3 => forallb (fun b => b) (alk_agrees alk hco3 co3)
  | _, _, _ => false
  end.

End Order.

(* ================================================================== *)
(** * Concrete worlds (binary64)                                       *)
(* ================================================================== *)

Module Examples.

Definition basalt : Row float :=
  mkRow "AK-0417" (Some "basalt")
        (lit 49.5) (lit 9.8) (lit 7.2) (lit 2.6) (lit 0.9) (lit 11.3) (lit 14.1).

Definition granite : Row float :=
  mkRow "AK-0933" (Some "granite")
        (lit 72.0) (lit 1.8) (lit 0.7) (lit 3.7) (lit 4.1) (lit 2.9) (lit 14.4).

(** A row without a CaO value. *)
Definition partial : Row float :=
  mkRow "AK-0002" None
        (lit 61.0) nan (lit 2.2) (lit 3.1) (lit 2.4) (lit 6.0) nan.

Definition package_db : string := "C:\Python\Lib\site-packages\phreeqpy\database\phreeqc.dat".
Definition timestamp : string := "2025-01-15 10:30:00".

(** No engine: [IPhreeqc()] raises. *)
Definition no_engine (majors : option (list (Row float))) : Env float :=
  mkEnv majors true true false (fun _ => false) package_db
        (fun _ => None) (fun _ => None) true true true timestamp.

(** An engine that loads the sixth listed database and answers every
    payload with [output]. *)
Definition with_engine (majors : list (Row float)) (output : output_array float)
  : Env float :=
  mkEnv (Some majors) true true true (fun p => String.eqb p "phreeqc.dat")
        package_db (fun _ => Some output) (fun _ => None) true true true
        timestamp.

(** Selected output with the cation columns the analysis reads and no
    saturation index. *)
Definition output_without_si : output_array float :=
  OutRows ["pH"; "Ca+2"; "Mg+2"; "HCO3-"]
          [ [PyNum (lit 5.6); PyNum (lit 0); PyNum (lit 0); PyNum (lit 0.00005)];
            [PyNum (lit 7.9); PyNum (lit 0.0007); PyNum (lit 0.0004); PyNum (lit 0.005)] ].

(** Selected output under the headings the engine gives to molalities. *)
Definition output_engine_headings : output_array float :=
  OutRows ["pH"; "pe"; "temp(C)"; "Alk(eq/kgw)"; "m_Ca+2(mol/kgw)";
           "m_Mg+2(mol/kgw)"; "m_HCO3-(mol/kgw)"; "si_Calcite"; "si_Dolomite"]
          [ [PyNum (lit 5.6); PyNum (lit 4.0); PyNum (lit 25.0); PyNum (lit 0.00005);
             PyNum (lit 0); PyNum (lit 0); PyNum (lit 0.00005);
             PyNum (lit (-2.8)); PyNum (lit (-3.5))];
            [PyNum (lit 7.9); PyNum (lit 4.0); PyNum (lit 25.0); PyNum (lit 0.006);
             PyNum (lit 0.0007); PyNum (lit 0.0004); PyNum (lit 0.005);
             PyNum (lit 1.1); PyNum (lit 1.0)] ].

End Examples.

(** C2 (the code at a failing input). With the majors table loaded, a
    complete sample, a working engine and a database found, a selected
    output without the column [si_Calcite] makes step 7 stop on the unbound
    name [final_calcite_si]; under the engine's own headings step 5 stops
    on the missing column [Ca+2].  Neither exception is caught and the
    report is not written. *)
Theorem report_lost_when_engine_succeeds :
  let e1 := Examples.with_engine [Examples.basalt] Examples.output_without_si in
  let e2 := Examples.with_engine [Examples.basalt] Examples.output_engine_headings in
  (dropna [Examples.basalt] = [Examples.basalt]
   /\ synthetic_mode e1 = false /\ synthetic_mode e2 = false)
  /\ (snd (run e1) = Raise (NameError "final_calcite_si")
      /\ steps_of (fst (run e1)) = [1; 2; 3; 4; 5; 6; 7]
      /\ writes_of (fst (run e1)) = [])
  /\ (snd (run e2) = Raise (KeyError "Ca+2")
      /\ steps_of (fst (run e2)) = [1; 2; 3; 4; 5]
      /\ writes_of (fst (run e2)) = []).
Proof. vm_compute. repeat split. Qed.


(** C5 (counterexample). When the majors file cannot be read the run stops
    in step 1 and steps 2 to 7 do not run; and a run that ends normally on
    the synthetic fallback has never built the engine payload. *)
Lemma steps_skipped_without_data :
  (steps_of (fst (run (Examples.no_engine None))) = [1]
   /\ ~ (forall k, 1 <= k <= 7 ->
           step_count k (fst (run (Examples.no_engine None))) = 1))
  /\ (snd (run (Examples.no_engine (Some [Examples.basalt]))) = Ok tt
      /\ builds_of (fst (run (Examples.no_engine (Some [Examples.basalt])))) = 0).
Proof.
  split; split; try reflexivity.
  intros H. specialize (H 7 ltac:(lia)). vm_compute in H. discriminate H.
Qed.

(** C10 (counterexample). In binary64 the Alk cell of the second row is not
    the sum of the HCO3- cell and twice the CO3-2 cell. *)
Lemma alk_differs_in_binary64 :
  alk_is_carbonate_sum (synthetic_results Examples.basalt) = false.
Proof. vm_compute. reflexivity. Qed.

(* ================================================================== *)
(** * Defaults and coercion                                            *)
(* ================================================================== *)

Section Defaults.

Context {A : Type} {num : PyFloat A}.
Implicit Types (env : Env A) (s : Row A).

(** [v] is the cell [x], or the default [d] when the cell is missing. *)
Definition defaulted (x v d : A) : Prop :=
  (isnan x = true -> v = d) /\ (isnan x = false -> v = x).

Lemma or_default_defaulted (x d : A) : defaulted x (or_default x d) d.
Proof.
  unfold defaulted, or_default, notna.
  destruct (isnan x); cbn; split; congruence.
Qed.

Lemma results_table_origin env es (sel : Selection A) (sim : Sim A) :
  simulate env = (es, Ok (sel, sim)) ->
  results_df sim = synthetic_results (sample sel)
  \/ exists cols data,
       engine_run env (generate_advanced_phreeqc_input (sample sel))
       = Some (OutRows cols data)
       /\ results_df sim = coerced_output env cols data.
Proof.
  intros Hsim.
  destruct (simulate_inv _ _ _ _ Hsim) as (majors & s & rest & _ & _ & -> & H4).
  cbn [sample selection_of].
  destruct (step4_table _ _ _ H4)
    as [-> | (_ & _ & cols & d & data & Hrun & ->)]; [now left|].
  right. eauto.
Qed.

(** C6. Each of the seven oxide values behind the engine payload, and each
    of the five behind the synthetic series, is the sample's value or,
    when that is missing, its fixed default (SiO2 60.0, CaO 5.0, MgO 3.0,
    Na2O 3.0, K2O 2.0, Fe2O3 5.0, Al2O3 15.0); the payload and the
    synthetic table are computed from these values only.  The table that
    reaches the analysis is the synthetic one or the engine's output with
    every cell coerced to a number: numbers are kept, strings are parsed,
    and strings that do not parse and empty cells become NaN. *)
Theorem oxides_defaulted_and_output_coerced :
  (forall s,
      defaulted (SiO2_pct s) (o_SiO2 (oxides_of s)) (lit 60.0)
      /\ defaulted (CaO_pct s) (o_CaO (oxides_of s)) (lit 5.0)
      /\ defaulted (MgO_pct s) (o_MgO (oxides_of s)) (lit 3.0)
      /\ defaulted (Na2O_pct s) (o_Na2O (oxides_of s)) (lit 3.0)
      /\ defaulted (K2O_pct s) (o_K2O (oxides_of s)) (lit 2.0)
      /\ defaulted (Fe2O3_pct s) (o_Fe2O3 (oxides_of s)) (lit 5.0)
      /\ defaulted (Al2O3_pct s) (o_Al2O3 (oxides_of s)) (lit 15.0))
  /\ (forall s1 s2,
        DDPD_ID s1 = DDPD_ID s2 -> oxides_of s1 = oxides_of s2 ->
        generate_advanced_phreeqc_input s1 = generate_advanced_phreeqc_input s2)
  /\ (forall s,
        defaulted (CaO_pct s) (cao_pct_of s) (lit 5.0)
        /\ defaulted (MgO_pct s) (mgo_pct_of s) (lit 3.0)
        /\ defaulted (SiO2_pct s) (sio2_pct_of s) (lit 60.0)
        /\ defaulted (Na2O_pct s) (na2o_pct_of s) (lit 3.0)
        /\ defaulted (K2O_pct s) (k2o_pct_of s) (lit 2.0)
        /\ synthetic_results s
           = synthetic_table (cao_pct_of s) (mgo_pct_of s) (sio2_pct_of s)
                             (na2o_pct_of s) (k2o_pct_of s))
  /\ (forall env es (sel : Selection A) (sim : Sim A),
        simulate env = (es, Ok (sel, sim)) ->
        results_df sim = synthetic_results (sample sel)
        \/ exists cols data,
             engine_run env (generate_advanced_phreeqc_input (sample sel))
             = Some (OutRows cols data)
             /\ results_df sim = coerced_output env cols data)
  /\ (forall env,
        (forall x, to_numeric env (PyNum x) = x)
        /\ (forall str x, parse_number env str = Some x ->
                          to_numeric env (PyStr str) = x)
        /\ (forall str, parse_number env str = None ->
                        to_numeric env (PyStr str) = nan)
        /\ to_numeric env PyNone = nan).
Proof.
  split; [|split; [|split; [|split]]].
  - intros s. repeat split; apply or_default_defaulted.
  - intros s1 s2 Hid Hox. unfold generate_advanced_phreeqc_input.
    now rewrite Hid, Hox.
  - intros s. repeat split; apply or_default_defaulted.
  - apply results_table_origin.
  - intros env. repeat split; cbn; trivial; intros str; intros; now rewrite H.
Qed.

End Defaults.

(* ================================================================== *)
(** * The pH series and the carbonate columns                          *)
(* ================================================================== *)

Section ReportedChange.

Context {A : Type} {num : PyFloat A}.

(** The line of the report that gives the pH change. *)
Definition pH_line (an : Analysis A) : string :=
  "• pH Evolution: " ++ fmt_f 2 (initial_pH an) ++ " → " ++ fmt_f 2 (final_pH an)
    ++ " (Δ = " ++ Fmt.with_plus (fmt_f 2 (pH_change an)) ++ ")".

Lemma report_has_pH_line (env : Env A) (sel : Selection A) (an : Analysis A)
      (cs ds : A) :
  In (pH_line an) (report_lines env sel an cs ds).
Proof.
  apply (nth_error_In _ 28). reflexivity.
Qed.

(** What the fallback reports for sample [s]: a table of seven rows whose
    pH column is the listed series, strictly increasing; a pH change that
    is [8.0 - 5.6] and is printed as [+2.40]. *)
Definition fallback_pH_report (s : Row A) : Prop :=
  length (rows (synthetic_results s)) = 7
  /\ column nan (synthetic_results s) "pH"
     = Some [lit 5.6; lit 6.0; lit 6.4; lit 6.8; lit 7.2; lit 7.6; lit 8.0]
  /\ increasing [lit 5.6; lit 6.0; lit 6.4; lit 6.8; lit 7.2; lit 7.6; lit 8.0]
     = true
  /\ exists an,
       step5_analyse (synthetic_results s) = ([EvStep 5], Ok an)
       /\ pH_change an = (lit 8.0 - lit 5.6)%py
       /\ Fmt.with_plus (fmt_f 2 (pH_change an)) = "+2.40"
       /\ forall env sel cs ds,
            In "• pH Evolution: 5.60 → 8.00 (Δ = +2.40)"
               (report_lines env sel an cs ds).

End ReportedChange.

(** C9. In the synthetic fallback the results table has seven rows and its
    pH column is the strictly increasing series 5.6, 6.0, 6.4, 6.8, 7.2,
    7.6, 8.0, whatever the sample; the pH change is final minus initial pH
    and the report gives it as +2.40, both in binary64 and in exact
    arithmetic, where it is the number 2.4.  (The binary64 difference is
    the double next above the one nearest to 2.4; two decimals hide it.) *)
Theorem fallback_pH_change_is_constant :
  (forall s : Row float, fallback_pH_report s)
  /\ (forall s : Row Exact.t,
        fallback_pH_report s /\ Exact.eq (lit 8.0 - lit 5.6)%py (lit 2.4))
  /\ (PrimFloat.eqb (lit 8.0 - lit 5.6)%py (lit 2.4) = false
      /\ PrimFloat.eqb (lit 8.0 - lit 5.6)%py (PrimFloat.next_up (lit 2.4)) = true).
Proof.
  split; [intros s | split; [intros s; split; [|reflexivity]
                            | split; vm_compute; reflexivity]].
  all: unfold fallback_pH_report;
    (split; [reflexivity|]); (split; [reflexivity|]);
    (split; [vm_compute; reflexivity|]);
    exists (synthetic_analysis s);
    (split; [apply step5_synthetic|]); (split; [reflexivity|]);
    (split; [vm_compute; reflexivity|]);
    intros env sel cs ds;
    assert (E : pH_line (synthetic_analysis s)
                = "• pH Evolution: 5.60 → 8.00 (Δ = +2.40)")
      by (vm_compute; reflexivity);
    rewrite <- E; apply report_has_pH_line.
Qed.

(** ** Cation columns in exact arithmetic *)

Module ExactFacts.

(** Adjacent rationals in order. *)
Fixpoint Qsorted (l : list Q) : Prop :=
  match l with
  | x :: (y :: _) as rest => (x <= y)%Q /\ Qsorted rest
  | _ => True
  end.

(** A percentage that is non-negative, or missing. *)
Definition nonneg_or_missing (x : Exact.t) : Prop :=
  match x with
  | Some q => (0 <= q)%Q
  | None => True
  end.

Lemma or_default_nonneg (x : Exact.t) (d : Q) :
  nonneg_or_missing x -> (0 <= d)%Q ->
  exists q, or_default x (lit d) = Some q /\ (0 <= q)%Q.
Proof.
  destruct x as [q|]; cbn; intros Hx Hd; eauto.
Qed.

Lemma cell_le (k a b : Q) :
  (0 <= k)%Q -> (a <= b)%Q ->
  ((Some k * Some a) / lit 1000 <=? (Some k * Some b) / lit 1000)%py = true.
Proof.
  intros Hk Hab. cbn. apply Qle_bool_iff.
  apply Qmult_le_compat_r; [|discriminate].
  rewrite !(Qmult_comm k). apply Qmult_le_compat_r; assumption.
Qed.

Lemma scaled_nondecreasing (k : Q) (profile : list Q) :
  (0 <= k)%Q -> Qsorted profile ->
  nondecreasing (per_thousand (scaled (Some k) (map Some profile))) = true.
Proof.
  intros Hk. induction profile as [|a [|b rest] IH]; intros Hs; trivial.
  destruct Hs as [Hab Hs].
  change (nondecreasing (per_thousand (scaled (Some k) (map Some (a :: b :: rest)))))
    with (((Some k * Some a) / lit 1000 <=? (Some k * Some b) / lit 1000)%py
          && nondecreasing (per_thousand (scaled (Some k) (map Some (b :: rest))))).
  rewrite (cell_le k a b Hk Hab), (IH Hs). reflexivity.
Qed.

Ltac sorted := cbn; repeat split; discriminate.

Lemma ca_nondecreasing (q : Q) :
  (0 <= q)%Q -> nondecreasing (per_thousand (ca_values (Some q))) = true.
Proof.
  intros Hq.
  apply (scaled_nondecreasing (q * 0.08) [0; 0.1; 0.25; 0.45; 0.7; 0.9; 1.0]%Q);
    [apply Qmult_le_0_compat; [assumption|discriminate] | sorted].
Qed.

Lemma mg_nondecreasing (q : Q) :
  (0 <= q)%Q -> nondecreasing (per_thousand (mg_values (Some q))) = true.
Proof.
  intros Hq.
  apply (scaled_nondecreasing (q * 0.06) [0; 0.08; 0.2; 0.4; 0.65; 0.85; 1.0]%Q);
    [apply Qmult_le_0_compat; [assumption|discriminate] | sorted].
Qed.

Lemma na_nondecreasing (q : Q) :
  (0 <= q)%Q -> nondecreasing (per_thousand (na_values (Some q))) = true.
Proof.
  intros Hq.
  apply (scaled_nondecreasing (q * 0.05) [0; 0.15; 0.35; 0.55; 0.75; 0.9; 1.0]%Q);
    [apply Qmult_le_0_compat; [assumption|discriminate] | sorted].
Qed.

Lemma k_nondecreasing (q : Q) :
  (0 <= q)%Q -> nondecreasing (per_thousand (k_values (Some q))) = true.
Proof.
  intros Hq.
  apply (scaled_nondecreasing (q * 0.03) [0; 0.1; 0.3; 0.5; 0.7; 0.85; 1.0]%Q);
    [apply Qmult_le_0_compat; [assumption|discriminate] | sorted].
Qed.

End ExactFacts.

(* ================================================================== *)
(** * Binary64: rounding to nearest is monotone                        *)
(* ================================================================== *)

(** The products and quotients of the synthetic branch are rounded to
    nearest, ties to even.  This part follows the rounding of
    [SpecFloat.binary_round_aux] on positive values and shows that it
    keeps the order, so that multiplying by a non-negative factor and
    dividing by a positive one do. *)

Module Rounding.

Local Open Scope Z_scope.

(** Powers of two as atoms of linear arithmetic. *)
Ltac pow_atoms :=
  repeat match goal with
         | |- context [2 ^ ?e] =>
             let x := fresh "pw" in
             let H := fresh "Hpw" in
             assert (H : 0 < 2 ^ e) by (apply Z.pow_pos_nonneg; lia);
             set (x := 2 ^ e) in *; clearbody x
         | _ : context [2 ^ ?e] |- _ =>
             let x := fresh "pw" in
             let H := fresh "Hpw" in
             assert (H : 0 < 2 ^ e) by (apply Z.pow_pos_nonneg; lia);
             set (x := 2 ^ e) in *; clearbody x
         end.

(** * Digits *)

Lemma digits2_pos_bounds (p : positive) :
  2 ^ (Zpos (digits2_pos p) - 1) <= Zpos p < 2 ^ Zpos (digits2_pos p).
Proof.
  induction p as [p IH|p IH|]; cbn [digits2_pos]; rewrite ?Pos2Z.inj_succ.
  - replace (Z.succ (Zpos (digits2_pos p)) - 1) with (Z.succ (Zpos (digits2_pos p) - 1)) by lia.
    rewrite !Z.pow_succ_r by lia. rewrite (Pos2Z.inj_xI p). pow_atoms. lia.
  - replace (Z.succ (Zpos (digits2_pos p)) - 1) with (Z.succ (Zpos (digits2_pos p) - 1)) by lia.
    rewrite !Z.pow_succ_r by lia. rewrite (Pos2Z.inj_xO p). pow_atoms. lia.
  - cbn. lia.
Qed.

Lemma Zdigits2_nonneg m : 0 <= Zdigits2 m.
Proof. destruct m; cbn; lia. Qed.

Lemma Zdigits2_bounds m :
  0 < m -> 2 ^ (Zdigits2 m - 1) <= m < 2 ^ Zdigits2 m.
Proof. destruct m; try lia. intros _. apply digits2_pos_bounds. Qed.

Lemma Zdigits2_upper m : 0 <= m -> m < 2 ^ Zdigits2 m.
Proof.
  intros H. destruct (Z.eq_dec m 0) as [->|]; [cbn; lia|].
  apply Zdigits2_bounds. lia.
Qed.

Lemma Zdigits2_le m k : 0 <= m -> 0 <= k -> m < 2 ^ k -> Zdigits2 m <= k.
Proof.
  intros Hm Hk H. destruct (Z.eq_dec m 0) as [->|]; [cbn; lia|].
  destruct (Zdigits2_bounds m ltac:(lia)) as [Hl _].
  destruct (Z.le_gt_cases (Zdigits2 m) k) as [|Hgt]; [assumption|].
  assert (2 ^ k <= 2 ^ (Zdigits2 m - 1)) by (apply Z.pow_le_mono_r; lia). lia.
Qed.

Lemma Zdigits2_ge m k : 0 <= k -> 2 ^ k <= m -> k + 1 <= Zdigits2 m.
Proof.
  intros Hk H. assert (0 < m) by (pose proof (Z.pow_pos_nonneg 2 k); lia).
  destruct (Zdigits2_bounds m ltac:(lia)) as [_ Hu].
  destruct (Z.le_gt_cases (k + 1) (Zdigits2 m)) as [|Hgt]; [assumption|].
  assert (2 ^ Zdigits2 m <= 2 ^ k)
    by (apply Z.pow_le_mono_r; [lia|pose proof (Zdigits2_nonneg m); lia]).
  lia.
Qed.

(** * Round to nearest, ties to even, as a relation *)

(** [a] is the integer nearest to [N / D], the even one of two nearest. *)
Definition IsRne (N D a : Z) : Prop :=
  (2 * a - 1) * D <= 2 * N <= (2 * a + 1) * D
  /\ (2 * N = (2 * a + 1) * D -> Z.even a = true)
  /\ (2 * N = (2 * a - 1) * D -> Z.even a = true).

Lemma IsRne_mono N D a N' D' a' :
  0 < D -> 0 < D' -> IsRne N D a -> IsRne N' D' a' ->
  N * D' <= N' * D -> a <= a'.
Proof.
  intros HD HD' (Ha & _ & Hlo) (Ha' & Hhi' & _) Hle.
  destruct (Z.le_gt_cases a a') as [|Hgt]; [assumption|exfalso].
  assert (Ha1 : (2 * a' + 1) * D <= 2 * N) by nia.
  assert (E1 : 2 * N * D' = (2 * a' + 1) * D * D') by nia.
  assert (E2 : 2 * N' * D = (2 * a' + 1) * D' * D) by nia.
  assert (T' : 2 * N' = (2 * a' + 1) * D') by nia.
  assert (T : 2 * N = (2 * a' + 1) * D) by nia.
  assert (a = a' + 1) by nia. subst a.
  specialize (Hhi' T'). 
  assert (Z.even (a' + 1) = true) by (apply Hlo; nia).
  rewrite Z.even_add in H. rewrite Hhi' in H. discriminate H.
Qed.

Lemma IsRne_scale N D a c : 0 < c -> IsRne N D a -> IsRne (N * c) (D * c) a.
Proof.
  intros Hc (Ha & Hhi & Hlo). repeat split.
  - nia.
  - nia.
  - intros E. apply Hhi. nia.
  - intros E. apply Hlo. nia.
Qed.

Lemma IsRne_upper N D a K : 0 < D -> IsRne N D a -> N <= K * D -> a <= K.
Proof.
  intros HD (Ha & _ & _) H. nia.
Qed.

Lemma IsRne_lower N D a K : 0 < D -> IsRne N D a -> K * D <= N -> K <= a.
Proof.
  intros HD (Ha & _ & _) H. nia.
Qed.

Lemma IsRne_nonneg N D a : 0 < D -> 0 <= N -> IsRne N D a -> 0 <= a.
Proof. intros HD HN H. apply (IsRne_lower N D a 0 HD H). lia. Qed.

(** * Shifting a mantissa with its rounding bits *)

(** The record [mrs] stands for the rational [N / D]: its mantissa is the
    integer part and its two bits place the remainder against one half. *)
Definition bracket (mrs : shr_record) (N D : Z) : Prop :=
  let x := N - shr_m mrs * D in
  0 <= shr_m mrs /\ 0 <= x < D
  /\ match shr_r mrs, shr_s mrs with
     | false, false => x = 0
     | false, true => 0 < x /\ 2 * x < D
     | true, false => 2 * x = D
     | true, true => D < 2 * x
     end.

Lemma bracket_shr_1 mrs N D :
  bracket mrs N D -> bracket (shr_1 mrs) N (2 * D).
Proof.
  destruct mrs as [m r s]. unfold bracket. cbn [shr_m shr_r shr_s].
  intros (Hm & Hx & Hloc).
  destruct m as [|[p|p|]|p]; try lia; cbn [shr_1 shr_m shr_r shr_s];
    rewrite ?(Pos2Z.inj_xI p), ?(Pos2Z.inj_xO p) in *;
    destruct r, s; cbn [orb]; nia.
Qed.

Lemma bracket_iter_shr mrs N D (p : positive) :
  bracket mrs N D -> bracket (iter_pos shr_1 p mrs) N (D * 2 ^ Zpos p).
Proof.
  revert mrs D. induction p as [p IH|p IH|]; intros mrs D H; cbn [iter_pos].
  - apply bracket_shr_1 in H. apply IH in H. apply IH in H.
    replace (D * 2 ^ Zpos p~1) with (2 * D * 2 ^ Zpos p * 2 ^ Zpos p); [exact H|].
    rewrite (Pos2Z.inj_xI p).
    replace (2 * Zpos p + 1) with (Zpos p + Zpos p + 1) by lia.
    rewrite !Z.pow_add_r by lia. rewrite Z.pow_1_r. ring.
  - apply IH in H. apply IH in H.
    replace (D * 2 ^ Zpos p~0) with (D * 2 ^ Zpos p * 2 ^ Zpos p); [exact H|].
    rewrite (Pos2Z.inj_xO p).
    replace (2 * Zpos p) with (Zpos p + Zpos p) by lia.
    rewrite !Z.pow_add_r by lia. ring.
  - apply bracket_shr_1 in H.
    replace (D * 2 ^ 1) with (2 * D) by (rewrite Z.pow_1_r; ring). exact H.
Qed.

(** The shift of [shr]: by [n] binary places when [n] is positive. *)
Lemma bracket_shr mrs N D e n :
  bracket mrs N D -> 0 <= n ->
  bracket (fst (shr mrs e n)) N (D * 2 ^ n) /\ snd (shr mrs e n) = e + n.
Proof.
  intros H Hn. destruct n as [|p|p]; try lia; cbn [shr fst snd].
  - rewrite Z.mul_1_r. split; [exact H|lia].
  - split; [apply bracket_iter_shr, H|reflexivity].
Qed.

Lemma bracket_of_loc m l N D :
  0 <= m -> 0 < D ->
  (let x := N - m * D in
   0 <= x < D /\
   match l with
   | loc_Exact => x = 0
   | loc_Inexact Lt => 0 < x /\ 2 * x < D
   | loc_Inexact Eq => 2 * x = D
   | loc_Inexact Gt => D < 2 * x
   end) ->
  bracket (shr_record_of_loc m l) N D.
Proof.
  intros Hm HD (Hx & Hl). unfold bracket.
  destruct l as [|[| |]]; cbn [shr_record_of_loc shr_m shr_r shr_s]; auto.
Qed.

(** Rounding the bracketed value to the nearest integer. *)
Lemma bracket_round mrs N D :
  0 < D -> bracket mrs N D ->
  IsRne N D (round_nearest_even (shr_m mrs) (loc_of_shr_record mrs)).
Proof.
  destruct mrs as [m r s]. unfold bracket, IsRne. cbn [shr_m shr_r shr_s].
  intros HD (Hm & Hx & Hloc).
  destruct r, s; cbn [loc_of_shr_record round_nearest_even].
  - repeat split; try nia; intros E; exfalso; nia.
  - destruct (Z.even m) eqn:Ev.
    + repeat split; try nia; intros E; try assumption; exfalso; nia.
    + assert (Z.even (m + 1) = true).
      { rewrite Z.even_add, Ev. reflexivity. }
      repeat split; try nia; intros E; try assumption; exfalso; nia.
  - repeat split; try nia; intros E; exfalso; nia.
  - repeat split; try nia; intros E; exfalso; nia.
Qed.

(** * The rounding of [binary_round_aux] *)

Abbreviation fexp64 := (SpecFloat.fexp prec emax).
Abbreviation emin64 := (SpecFloat.emin prec emax).

Lemma fexp64_eq e : fexp64 e = Z.max (e - 53) (-1074).
Proof. reflexivity. Qed.

(** The float for mantissa [a] at exponent [fe], after a carry into bit 53
    and the check for overflow. *)
Definition norm (a fe : Z) : spec_float :=
  match a with
  | Z0 => S754_zero false
  | Zpos p =>
      if a =? 2 ^ 53 then
        if fe + 1 <=? 971 then S754_finite false (2 ^ 52)%positive (fe + 1)
        else S754_infinity false
      else if fe <=? 971 then S754_finite false p fe
           else S754_infinity false
  | Zneg _ => S754_nan
  end.

(** Mantissa and exponent of a rounded positive value. *)
Definition canon (a fe : Z) : Prop :=
  0 <= a <= 2 ^ 53 /\ -1074 <= fe /\ (-1074 < fe -> 2 ^ 52 <= a).

Lemma second_shift a fe :
  canon a fe ->
  (let '(mrs, e) := shr_fexp prec emax a fe loc_Exact in
   match shr_m mrs with
   | Z0 => S754_zero false
   | Zpos m => if e <=? emax - prec then S754_finite false m e else S754_infinity false
   | Zneg _ => S754_nan
   end) = norm a fe.
Proof.
  intros ((Ha0 & Ha1) & Hfe & _).
  unfold shr_fexp. rewrite fexp64_eq.
  destruct (Z.eq_dec a (2 ^ 53)) as [->|Hne].
  - change (Zdigits2 (2 ^ 53)) with 54.
    replace (Z.max (54 + fe - 53) (-1074) - fe) with 1 by lia.
    cbn [shr_record_of_loc shr iter_pos shr_1 shr_m]. unfold norm.
    change (2 ^ 53) with 9007199254740992. cbn [Z.eqb Pos.eqb].
    change (emax - prec) with 971. reflexivity.
  - assert (Hd : Zdigits2 a <= 53) by (apply Zdigits2_le; lia).
    pose proof (Zdigits2_nonneg a) as Hd0.
    destruct (Z.max (Zdigits2 a + fe - 53) (-1074) - fe) as [|p|p] eqn:En; try lia;
      cbn [shr shr_record_of_loc shr_m]; unfold norm;
      (destruct a as [|q|q]; [reflexivity| |lia]);
      (destruct (Z.eqb_spec (Zpos q) (2 ^ 53)); [contradiction|]);
      change (emax - prec) with 971; reflexivity.
Qed.

Lemma round_aux_spec N D m e l :
  0 < D -> bracket (shr_record_of_loc m l) N D ->
  e <= fexp64 (Zdigits2 m + e) ->
  exists a,
    IsRne N (D * 2 ^ (fexp64 (Zdigits2 m + e) - e)) a
    /\ canon a (fexp64 (Zdigits2 m + e))
    /\ binary_round_aux prec emax false m e l = norm a (fexp64 (Zdigits2 m + e)).
Proof.
  intros HD Hb Hn.
  set (fe := fexp64 (Zdigits2 m + e)) in *.
  assert (Hm : 0 <= m).
  { destruct Hb as (Hm & _). destruct l as [|[| |]]; exact Hm. }
  unfold binary_round_aux, shr_fexp. fold fe.
  destruct (bracket_shr _ N D e (fe - e) Hb ltac:(lia)) as [Hb' He'].
  destruct (shr (shr_record_of_loc m l) e (fe - e)) as [mrs' e'].
  cbn [fst snd] in Hb', He'.
  assert (HD' : 0 < D * 2 ^ (fe - e)).
  { apply Z.mul_pos_pos; [assumption|apply Z.pow_pos_nonneg; lia]. }
  pose proof (bracket_round _ _ _ HD' Hb') as Hr.
  set (a := round_nearest_even (shr_m mrs') (loc_of_shr_record mrs')) in *.
  assert (Hfe : -1074 <= fe) by (unfold fe; rewrite fexp64_eq; lia).
  pose proof (Zdigits2_nonneg m) as Hd0.
  assert (Hcanon : canon a fe).
  { assert (HN : 0 <= N).
    { destruct Hb as (_ & Hx & _).
      destruct l as [|[| |]]; cbn [shr_record_of_loc shr_m] in Hx; nia. }
    assert (Hup : N < 2 ^ Zdigits2 m * D).
    { pose proof (Zdigits2_upper m Hm).
      destruct Hb as (_ & Hx & _).
      destruct l as [|[| |]]; cbn [shr_record_of_loc shr_m] in Hx; nia. }
    repeat split.
    - eapply IsRne_nonneg; eassumption.
    - apply (IsRne_upper N (D * 2 ^ (fe - e)) a (2 ^ 53) HD' Hr).
      assert (2 ^ Zdigits2 m <= 2 ^ 53 * 2 ^ (fe - e)).
      { rewrite <- Z.pow_add_r by lia. apply Z.pow_le_mono_r; [lia|].
        unfold fe. rewrite fexp64_eq. lia. }
      nia.
    - exact Hfe.
    - intros Hgt.
      assert (Efe : fe = Zdigits2 m + e - 53) by (unfold fe in *; rewrite fexp64_eq in *; lia).
      assert (Hmpos : 0 < m).
      { destruct (Z.eq_dec m 0) as [->|]; [cbn in Efe; lia|lia]. }
      destruct (Zdigits2_bounds m Hmpos) as [Hlo _].
      apply (IsRne_lower N (D * 2 ^ (fe - e)) a (2 ^ 52) HD' Hr).
      assert (2 ^ 52 * 2 ^ (fe - e) = 2 ^ (Zdigits2 m - 1)).
      { rewrite <- Z.pow_add_r by lia. f_equal. lia. }
      destruct Hb as (_ & Hx & _).
      destruct l as [|[| |]]; cbn [shr_record_of_loc shr_m] in Hx; nia. }
  exists a. split; [exact Hr|]. split; [exact Hcanon|].
  subst e'. replace (e + (fe - e)) with fe by lia.
  exact (second_shift a fe Hcanon).
Qed.

(** * Order of rounded values *)

Lemma pow2_split (a b : Z) : 0 <= a -> 0 <= b -> 2 ^ (a + b) = 2 ^ a * 2 ^ b.
Proof. intros. apply Z.pow_add_r; assumption. Qed.

Lemma leb_finite (m m' : positive) (e e' : Z) :
  e < e' \/ (e = e' /\ (m <= m')%positive) ->
  SFleb (S754_finite false m e) (S754_finite false m' e') = true.
Proof.
  unfold SFleb, SFcompare. intros [H|[-> H]].
  - apply Z.compare_lt_iff in H. now rewrite H.
  - rewrite Z.compare_refl. fold (Pos.compare m m').
    destruct (Pos.compare_spec m m'); try reflexivity. lia.
Qed.

Lemma norm_leb E0 a fe a' fe' :
  E0 <= -1074 -> canon a fe -> canon a' fe' ->
  a * 2 ^ (fe - E0) <= a' * 2 ^ (fe' - E0) ->
  SFleb (norm a fe) (norm a' fe') = true.
Proof.
  intros HE ((Ha0 & Ha1) & Hfe & Hn) ((Ha0' & Ha1') & Hfe' & Hn') Hle.
  assert (HP : 0 < 2 ^ (fe - E0)) by (apply Z.pow_pos_nonneg; lia).
  assert (HP' : 0 < 2 ^ (fe' - E0)) by (apply Z.pow_pos_nonneg; lia).
  destruct (Z.eq_dec a 0) as [->|Hapos].
  { cbn [norm]. unfold norm. destruct a' as [|p|p]; [reflexivity| |lia].
    destruct (Zpos p =? 2 ^ 53); [destruct (fe' + 1 <=? 971)|destruct (fe' <=? 971)];
      reflexivity. }
  assert (Ha'pos : 0 < a') by nia.
  (* the pairs after the carry *)
  set (mu := if a =? 2 ^ 53 then 2 ^ 52 else a).
  set (ep := if a =? 2 ^ 53 then fe + 1 else fe).
  set (mu' := if a' =? 2 ^ 53 then 2 ^ 52 else a').
  set (ep' := if a' =? 2 ^ 53 then fe' + 1 else fe').
  assert (Hnorm : norm a fe = if ep <=? 971 then S754_finite false (Z.to_pos mu) ep
                              else S754_infinity false).
  { unfold norm, mu, ep. destruct a as [|p|p]; try lia.
    destruct (Zpos p =? 2 ^ 53); reflexivity. }
  assert (Hnorm' : norm a' fe' = if ep' <=? 971 then S754_finite false (Z.to_pos mu') ep'
                                 else S754_infinity false).
  { unfold norm, mu', ep'. destruct a' as [|p|p]; try lia.
    destruct (Zpos p =? 2 ^ 53); reflexivity. }
  assert (Hmu : 0 < mu < 2 ^ 53 /\ (-1074 < ep -> 2 ^ 52 <= mu)
                /\ mu * 2 ^ (ep - E0) = a * 2 ^ (fe - E0) /\ -1074 <= ep).
  { unfold mu, ep. destruct (Z.eqb_spec a (2 ^ 53)) as [->|Hne].
    - replace (fe + 1 - E0) with (1 + (fe - E0)) by lia.
      rewrite pow2_split by lia. change (2 ^ 53) with (2 ^ 52 * 2 ^ 1).
      repeat split; try lia.
    - repeat split; try lia. }
  assert (Hmu' : 0 < mu' < 2 ^ 53 /\ (-1074 < ep' -> 2 ^ 52 <= mu')
                 /\ mu' * 2 ^ (ep' - E0) = a' * 2 ^ (fe' - E0) /\ -1074 <= ep').
  { unfold mu', ep'. destruct (Z.eqb_spec a' (2 ^ 53)) as [->|Hne].
    - replace (fe' + 1 - E0) with (1 + (fe' - E0)) by lia.
      rewrite pow2_split by lia. change (2 ^ 53) with (2 ^ 52 * 2 ^ 1).
      repeat split; try lia.
    - repeat split; try lia. }
  clearbody mu ep mu' ep'.
  destruct Hmu as (Hmu & Hmun & Hmuv & Hep).
  destruct Hmu' as (Hmu' & Hmun' & Hmuv' & Hep').
  rewrite <- Hmuv, <- Hmuv' in Hle.
  (* exponents cannot go down *)
  assert (Hord : ep < ep' \/ (ep = ep' /\ mu <= mu')).
  { destruct (Z.lt_trichotomy ep ep') as [Hlt|[Heq|Hgt]].
    - now left.
    - right. split; [assumption|]. subst ep'.
      apply (Z.mul_le_mono_pos_r _ _ (2 ^ (ep - E0))); [|exact Hle].
      apply Z.pow_pos_nonneg; lia.
    - exfalso.
      assert (E : 2 ^ (ep - E0) = 2 ^ (ep - ep') * 2 ^ (ep' - E0)).
      { rewrite <- pow2_split by lia. f_equal. lia. }
      assert (2 ^ 1 <= 2 ^ (ep - ep')) by (apply Z.pow_le_mono_r; lia).
      assert (0 < 2 ^ (ep' - E0)) by (apply Z.pow_pos_nonneg; lia).
      specialize (Hmun ltac:(lia)).
      rewrite E, Z.mul_assoc in Hle. change (2 ^ 1) with 2 in *.
      apply Z.mul_le_mono_pos_r in Hle; [|assumption].
      assert (mu * 2 <= mu * 2 ^ (ep - ep'))
        by (apply Z.mul_le_mono_nonneg_l; lia).
      change (2 ^ 52) with 4503599627370496 in *.
      change (2 ^ 53) with 9007199254740992 in *.
      lia. }
  rewrite Hnorm, Hnorm'.
  destruct (Z.leb_spec ep 971), (Z.leb_spec ep' 971); try reflexivity.
  - apply leb_finite. destruct Hord as [|[-> Hm]]; [now left|right].
    split; [reflexivity|]. lia.
  - exfalso. lia.
Qed.

(** * Rounding is monotone *)

(** Two bracketed positive values, the first not above the second, round
    to floats in the same order.  Values are [N * 2 ^ e / D]; [E0] is any
    exponent below all others, used to compare without fractions. *)
Lemma round_aux_mono E0 N1 D1 m1 e1 l1 N2 D2 m2 e2 l2 :
  E0 <= -1074 -> E0 <= e1 -> E0 <= e2 ->
  0 < D1 -> 0 < D2 ->
  bracket (shr_record_of_loc m1 l1) N1 D1 ->
  bracket (shr_record_of_loc m2 l2) N2 D2 ->
  e1 <= fexp64 (Zdigits2 m1 + e1) ->
  e2 <= fexp64 (Zdigits2 m2 + e2) ->
  N1 * 2 ^ (e1 - E0) * D2 <= N2 * 2 ^ (e2 - E0) * D1 ->
  SFleb (binary_round_aux prec emax false m1 e1 l1)
        (binary_round_aux prec emax false m2 e2 l2) = true.
Proof.
  intros HE0 HE1 HE2 HD1 HD2 Hb1 Hb2 Hn1 Hn2 Hle.
  destruct (round_aux_spec N1 D1 m1 e1 l1 HD1 Hb1 Hn1) as (a1 & Hr1 & Hc1 & ->).
  destruct (round_aux_spec N2 D2 m2 e2 l2 HD2 Hb2 Hn2) as (a2 & Hr2 & Hc2 & ->).
  set (d1 := Zdigits2 m1) in *. set (d2 := Zdigits2 m2) in *.
  set (fe1 := fexp64 (d1 + e1)) in *. set (fe2 := fexp64 (d2 + e2)) in *.
  apply (norm_leb E0); try assumption.
  (* brackets of the inputs *)
  assert (Hm1 : 0 <= m1 /\ m1 * D1 <= N1 < (m1 + 1) * D1).
  { destruct Hb1 as (Hm & Hx & _).
    destruct l1 as [|[| |]]; cbn [shr_record_of_loc shr_m] in *; lia. }
  assert (Hm2 : 0 <= m2 /\ m2 * D2 <= N2 < (m2 + 1) * D2).
  { destruct Hb2 as (Hm & Hx & _).
    destruct l2 as [|[| |]]; cbn [shr_record_of_loc shr_m] in *; lia. }
  destruct Hm1 as (Hm1 & Hlo1 & Hhi1). destruct Hm2 as (Hm2 & Hlo2 & Hhi2).
  pose proof (Zdigits2_nonneg m1) as Hd1. fold d1 in Hd1.
  pose proof (Zdigits2_nonneg m2) as Hd2. fold d2 in Hd2.
  assert (Efe1 : fe1 = Z.max (d1 + e1 - 53) (-1074)) by reflexivity.
  assert (Efe2 : fe2 = Z.max (d2 + e2 - 53) (-1074)) by reflexivity.
  clearbody fe1 fe2.
  destruct Hc1 as ((Ha1lo & Ha1hi) & Hfe1 & Ha1n).
  destruct Hc2 as ((Ha2lo & Ha2hi) & Hfe2 & Ha2n).
  (* the rounded mantissas against a common scale *)
  pose proof (IsRne_scale _ _ _ (2 ^ (e1 - E0)) ltac:(apply Z.pow_pos_nonneg; lia) Hr1) as Hs1.
  pose proof (IsRne_scale _ _ _ (2 ^ (e2 - E0)) ltac:(apply Z.pow_pos_nonneg; lia) Hr2) as Hs2.
  assert (EP1 : 2 ^ (fe1 - e1) * 2 ^ (e1 - E0) = 2 ^ (fe1 - E0)).
  { rewrite <- pow2_split by lia. f_equal. lia. }
  assert (EP2 : 2 ^ (fe2 - e2) * 2 ^ (e2 - E0) = 2 ^ (fe2 - E0)).
  { rewrite <- pow2_split by lia. f_equal. lia. }
  rewrite <- Z.mul_assoc, EP1 in Hs1. rewrite <- Z.mul_assoc, EP2 in Hs2.
  assert (HP1 : 0 < 2 ^ (fe1 - E0)) by (apply Z.pow_pos_nonneg; lia).
  assert (HP2 : 0 < 2 ^ (fe2 - E0)) by (apply Z.pow_pos_nonneg; lia).
  assert (HC1 : 0 < 2 ^ (e1 - E0)) by (apply Z.pow_pos_nonneg; lia).
  assert (HC2 : 0 < 2 ^ (e2 - E0)) by (apply Z.pow_pos_nonneg; lia).
  destruct (Z.lt_trichotomy fe1 fe2) as [Hlt|[Heq|Hgt]].
  - (* a coarser grid for the second *)
    assert (E : 2 ^ (fe2 - E0) = 2 ^ (fe2 - fe1) * 2 ^ (fe1 - E0)).
    { rewrite <- pow2_split by lia. f_equal. lia. }
    assert (2 ^ 1 <= 2 ^ (fe2 - fe1)) by (apply Z.pow_le_mono_r; lia).
    specialize (Ha2n ltac:(lia)).
    rewrite E, Z.mul_assoc. change (2 ^ 1) with 2 in *.
    apply Z.mul_le_mono_nonneg_r; [lia|].
    assert (a2 * 2 <= a2 * 2 ^ (fe2 - fe1))
      by (apply Z.mul_le_mono_nonneg_l; lia).
    change (2 ^ 52) with 4503599627370496 in *.
    change (2 ^ 53) with 9007199254740992 in *.
    lia.
  - (* the same grid *)
    rewrite <- Heq in *.
    assert (a1 <= a2).
    { apply (IsRne_mono _ _ _ _ _ _ (Z.mul_pos_pos _ _ HD1 HP1)
                        (Z.mul_pos_pos _ _ HD2 HP1) Hs1 Hs2).
      rewrite !Z.mul_assoc. apply Z.mul_le_mono_nonneg_r; lia. }
    apply Z.mul_le_mono_nonneg_r; lia.
  - (* a finer grid for the second: the values are in the other order *)
    exfalso.
    assert (Ed1 : fe1 = d1 + e1 - 53) by lia.
    assert (Hm1pos : 0 < m1).
    { destruct (Z.eq_dec m1 0) as [E|]; [|lia]. subst m1. cbn in d1. lia. }
    destruct (Zdigits2_bounds m1 Hm1pos) as [Hdl1 _]. fold d1 in Hdl1.
    pose proof (Zdigits2_upper m2 Hm2) as Hdu2. fold d2 in Hdu2.
    assert (Hmag : d2 + e2 <= d1 + e1 - 1) by lia.
    assert (E1 : 2 ^ (d1 - 1) * 2 ^ (e1 - E0) = 2 ^ (d1 + e1 - 1 - E0)).
    { rewrite <- pow2_split by lia. f_equal. lia. }
    assert (E2 : 2 ^ d2 * 2 ^ (e2 - E0) <= 2 ^ (d1 + e1 - 1 - E0)).
    { rewrite <- pow2_split by lia. apply Z.pow_le_mono_r; lia. }
    set (B := 2 ^ (d1 + e1 - 1 - E0)) in *.
    set (C1 := 2 ^ (e1 - E0)) in *. set (C2 := 2 ^ (e2 - E0)) in *.
    set (L1 := 2 ^ (d1 - 1)) in *. set (U2 := 2 ^ d2) in *.
    assert (HB : 0 < B) by (apply Z.pow_pos_nonneg; lia).
    pose proof Hlo1 as Hm1lo. pose proof Hhi2 as Hm2hi.
    clear - HD1 HD2 HC1 HC2 HB E1 E2 Hdl1 Hdu2 Hm1lo Hm2hi Hle.
    clearbody B C1 C2 L1 U2.
    assert (H1 : B * D1 <= N1 * C1).
    { rewrite <- E1. transitivity (m1 * D1 * C1).
      - replace (L1 * C1 * D1) with (L1 * (C1 * D1)) by ring.
        replace (m1 * D1 * C1) with (m1 * (C1 * D1)) by ring.
        apply Z.mul_le_mono_nonneg_r; [|exact Hdl1].
        apply Z.lt_le_incl, Z.mul_pos_pos; assumption.
      - apply Z.mul_le_mono_nonneg_r; [lia|exact Hm1lo]. }
    assert (H2 : N2 * C2 < B * D2).
    { apply Z.lt_le_trans with ((m2 + 1) * D2 * C2).
      - apply Z.mul_lt_mono_pos_r; assumption.
      - transitivity (U2 * C2 * D2).
        + replace ((m2 + 1) * D2 * C2) with ((m2 + 1) * (C2 * D2)) by ring.
          replace (U2 * C2 * D2) with (U2 * (C2 * D2)) by ring.
          apply Z.mul_le_mono_nonneg_r; [|lia].
          apply Z.lt_le_incl, Z.mul_pos_pos; assumption.
        + apply Z.mul_le_mono_nonneg_r; [lia|exact E2]. }
    assert (H3 : B * D1 * D2 <= N1 * C1 * D2)
      by (apply Z.mul_le_mono_nonneg_r; [lia|exact H1]).
    assert (H4 : N2 * C2 * D1 < B * D2 * D1)
      by (apply Z.mul_lt_mono_pos_r; assumption).
    lia.
Qed.

(** * Multiplication and division of non-negative floats *)

(** Zeros, positive finite floats and plus infinity. *)
Definition nonneg (f : spec_float) : Prop :=
  match f with
  | S754_zero _ | S754_finite false _ _ | S754_infinity false => True
  | _ => False
  end.

(** Zeros and positive finite floats. *)
Definition finite_nonneg (f : spec_float) : Prop :=
  match f with
  | S754_zero _ | S754_finite false _ _ => True
  | _ => False
  end.

(** A positive float with a full mantissa. *)
Definition normal_pos (f : spec_float) : Prop :=
  match f with
  | S754_finite false m _ => 2 ^ 52 <= Zpos m < 2 ^ 53
  | _ => False
  end.

Lemma norm_nonneg a fe : 0 <= a -> nonneg (norm a fe).
Proof.
  unfold norm. destruct a as [|p|p]; try lia; intros _; [exact I|].
  destruct (Zpos p =? 2 ^ 53); [destruct (fe + 1 <=? 971)|destruct (fe <=? 971)];
    exact I.
Qed.

Lemma leb_zero_nonneg s f : nonneg f -> SFleb (S754_zero s) f = true.
Proof. destruct f as [?|[|]| |[|] ? ?]; cbn; trivial; contradiction. Qed.

Lemma leb_nonneg_inf f : nonneg f -> SFleb f (S754_infinity false) = true.
Proof. destruct f as [?|[|]| |[|] ? ?]; cbn; trivial; contradiction. Qed.

(** Canonical mantissas, from [valid_binary]. *)
Lemma valid_finite s m e :
  valid_binary (S754_finite s m e) = true ->
  Zpos m < 2 ^ 53 /\ -1074 <= e <= 971 /\ (-1074 < e -> 2 ^ 52 <= Zpos m).
Proof.
  cbn [SpecFloat.valid_binary]. unfold bounded, canonical_mantissa.
  rewrite andb_true_iff, Z.eqb_eq, Z.leb_le, fexp64_eq.
  change (emax - prec) with 971.
  intros [Hc He].
  pose proof (digits2_pos_bounds m) as [Hlo Hhi].
  set (d := Zpos (digits2_pos m)) in *.
  assert (Hd : d <= 53) by lia.
  split; [|split; [lia|]].
  - assert (2 ^ d <= 2 ^ 53) by (apply Z.pow_le_mono_r; lia). lia.
  - intros Hgt. assert (d = 53) by lia.
    replace (d - 1) with 52 in Hlo by lia. exact Hlo.
Qed.

(** The order of two valid positive floats, read on their values. *)
Lemma leb_value B m1 e1 m2 e2 :
  valid_binary (S754_finite false m1 e1) = true ->
  valid_binary (S754_finite false m2 e2) = true ->
  SFleb (S754_finite false m1 e1) (S754_finite false m2 e2) = true ->
  B <= e1 -> B <= e2 ->
  Zpos m1 * 2 ^ (e1 - B) <= Zpos m2 * 2 ^ (e2 - B).
Proof.
  intros V1 V2 Hle HB1 HB2.
  destruct (valid_finite _ _ _ V1) as (Hu1 & He1 & Hn1).
  destruct (valid_finite _ _ _ V2) as (Hu2 & He2 & Hn2).
  unfold SFleb, SFcompare in Hle.
  destruct (Z.compare_spec e1 e2) as [->|Hlt|Hgt]; [| |discriminate].
  - change (Pos.compare_cont Eq m1 m2) with (Pos.compare m1 m2) in Hle.
    assert ((m1 <= m2)%positive).
    { revert Hle. destruct (Pos.compare_spec m1 m2); try lia; discriminate. }
    apply Z.mul_le_mono_nonneg_r; [|lia].
    apply Z.lt_le_incl, Z.pow_pos_nonneg; lia.
  - specialize (Hn2 ltac:(lia)).
    assert (E : 2 ^ (e2 - B) = 2 ^ (e2 - e1) * 2 ^ (e1 - B)).
    { rewrite <- pow2_split by lia. f_equal. lia. }
    assert (2 ^ 1 <= 2 ^ (e2 - e1)) by (apply Z.pow_le_mono_r; lia).
    assert (0 < 2 ^ (e1 - B)) by (apply Z.pow_pos_nonneg; lia).
    rewrite E. change (2 ^ 1) with 2 in *.
    set (P := 2 ^ (e1 - B)) in *. set (R := 2 ^ (e2 - e1)) in *.
    change (2 ^ 52) with 4503599627370496 in *.
    change (2 ^ 53) with 9007199254740992 in *.
    nia.
Qed.

(** ** Products *)

Lemma mul_bracket (mk mp : positive) :
  bracket (shr_record_of_loc (Zpos (mk * mp)) loc_Exact) (Zpos (mk * mp)) 1.
Proof. unfold bracket. cbn [shr_record_of_loc shr_m shr_r shr_s]. lia. Qed.

Lemma mul_shift (mk mp : positive) e :
  2 ^ 52 <= Zpos mp -> e <= fexp64 (Zdigits2 (Zpos (mk * mp)) + e).
Proof.
  intros Hp. rewrite fexp64_eq.
  assert (53 <= Zdigits2 (Zpos (mk * mp))).
  { apply (Zdigits2_ge _ 52); [lia|]. rewrite Pos2Z.inj_mul. nia. }
  lia.
Qed.

Lemma SFmul_nonneg k p :
  finite_nonneg k -> normal_pos p \/ p = S754_zero false -> nonneg (SF64mul k p).
Proof.
  intros Hk [Hp| ->].
  - destruct p as [?|?| |[|] mp ep]; try contradiction.
    destruct k as [?|?| |[|] mk ek]; try contradiction; [exact I|].
    cbn [SF64mul SFmul xorb].
    destruct (round_aux_spec (Zpos (mk * mp)) 1 (Zpos (mk * mp)) (ek + ep) loc_Exact
                ltac:(lia) (mul_bracket mk mp) (mul_shift mk mp _ (proj1 Hp)))
      as (a & _ & ((Ha & _) & _) & ->).
    apply norm_nonneg, Ha.
  - destruct k as [?|?| |[|] mk ek]; try contradiction; exact I.
Qed.

Lemma SFmul_mono k p1 p2 :
  finite_nonneg k ->
  normal_pos p1 \/ p1 = S754_zero false ->
  normal_pos p2 ->
  valid_binary p1 = true -> valid_binary p2 = true ->
  SFleb p1 p2 = true ->
  SFleb (SF64mul k p1) (SF64mul k p2) = true.
Proof.
  intros Hk Hp1 Hp2 V1 V2 Hle.
  destruct Hp1 as [Hp1| ->].
  2:{ assert (Hn : nonneg (SF64mul k p2)) by (apply SFmul_nonneg; auto).
      destruct k as [?|?| |[|] mk ek]; try contradiction;
        cbn [SF64mul SFmul] in *; apply leb_zero_nonneg; exact Hn. }
  destruct p1 as [?|?| |[|] mp1 ep1]; try contradiction.
  destruct p2 as [?|?| |[|] mp2 ep2]; try contradiction.
  destruct k as [?|?| |[|] mk ek]; try contradiction; [reflexivity|].
  cbn [SF64mul SFmul xorb].
  set (E0 := Z.min (-1074) (Z.min (ek + ep1) (ek + ep2))).
  apply (round_aux_mono E0 (Zpos (mk * mp1)) 1 _ _ _ (Zpos (mk * mp2)) 1);
    try (unfold E0; lia).
  - apply mul_bracket.
  - apply mul_bracket.
  - apply mul_shift, Hp1.
  - apply mul_shift, Hp2.
  - rewrite !Z.mul_1_r, !Pos2Z.inj_mul, <- !Z.mul_assoc.
    apply Z.mul_le_mono_nonneg_l; [lia|].
    pose proof (leb_value (E0 - ek) mp1 ep1 mp2 ep2 V1 V2 Hle
                  ltac:(unfold E0; lia) ltac:(unfold E0; lia)) as H.
    replace (ek + ep1 - E0) with (ep1 - (E0 - ek)) by lia.
    replace (ek + ep2 - E0) with (ep2 - (E0 - ek)) by lia.
    exact H.
Qed.

(** A product by a factor below 2^-2 does not overflow. *)
Lemma SFmul_finite k p :
  valid_binary k = true -> finite_nonneg k ->
  (exists mp ep, p = S754_finite false mp ep /\ 2 ^ 52 <= Zpos mp < 2 ^ 53 /\ ep <= -55) ->
  finite_nonneg (SF64mul k p).
Proof.
  intros Vk Hk (mp & ep & -> & Hmp & Hep).
  destruct k as [?|?| |[|] mk ek]; try contradiction; [exact I|].
  cbn [SF64mul SFmul xorb].
  destruct (valid_finite _ _ _ Vk) as (Hu & He & _).
  destruct (round_aux_spec (Zpos (mk * mp)) 1 (Zpos (mk * mp)) (ek + ep) loc_Exact
              ltac:(lia) (mul_bracket mk mp) (mul_shift mk mp _ (proj1 Hmp)))
    as (a & _ & ((Ha & _) & _) & ->).
  assert (Hd : Zdigits2 (Zpos (mk * mp)) <= 106).
  { apply Zdigits2_le; try lia. rewrite Pos2Z.inj_mul.
    change (2 ^ 106) with (2 ^ 53 * 2 ^ 53). nia. }
  assert (Hfe : fexp64 (Zdigits2 (Zpos (mk * mp)) + (ek + ep)) + 1 <= 971).
  { rewrite fexp64_eq. lia. }
  set (fe := fexp64 _) in *. clearbody fe.
  unfold norm. destruct a as [|q|q]; try lia; [exact I|].
  destruct (Zpos q =? 2 ^ 53).
  - destruct (Z.leb_spec (fe + 1) 971); [exact I|lia].
  - destruct (Z.leb_spec fe 971); [exact I|lia].
Qed.

(** ** Quotients *)

Lemma new_location_bracket D r q N :
  0 < D -> 0 <= q -> 0 <= r < D -> N = q * D + r ->
  bracket (shr_record_of_loc q (new_location D r)) N D.
Proof.
  intros HD Hq Hr ->. apply bracket_of_loc; try assumption.
  replace (q * D + r - q * D) with r by lia. cbv zeta. split; [exact Hr|].
  unfold new_location, new_location_even, new_location_odd.
  destruct (Z.even D) eqn:Hev; destruct (Z.eqb_spec r 0) as [|Hne]; try assumption.
  - destruct (Z.compare_spec (2 * r) D); lia.
  - destruct (Z.compare_spec (2 * r + 1) D) as [E|E|E]; try lia.
    assert (2 * r <> D).
    { intros <-. rewrite Z.even_mul in Hev. discriminate. }
    lia.
Qed.

(** The quotient and remainder kept by the division, as a bracket of
    [mx * 2 ^ s / my]. *)
Lemma div_core_spec (mx my : positive) (ex ey : Z) :
  exists q e' l s,
    SFdiv_core_binary prec emax (Zpos mx) ex (Zpos my) ey = (q, e', l)
    /\ 0 <= s /\ s + e' = ex - ey
    /\ Z.min (-1074) (ex - ey) <= e'
    /\ bracket (shr_record_of_loc q l) (Zpos mx * 2 ^ s) (Zpos my)
    /\ e' <= fexp64 (Zdigits2 q + e').
Proof.
  unfold SFdiv_core_binary.
  set (d1 := Zdigits2 (Zpos mx)). set (d2 := Zdigits2 (Zpos my)).
  set (e' := Z.min (fexp64 (d1 + ex - (d2 + ey))) (ex - ey)).
  set (s := ex - ey - e').
  assert (Hs : 0 <= s) by (unfold s, e'; lia).
  set (m' := match s with Z.pos _ => Z.shiftl (Zpos mx) s | 0 => Zpos mx | Z.neg _ => 0 end).
  assert (Hm' : m' = Zpos mx * 2 ^ s).
  { unfold m'. destruct s as [|p|p]; try lia.
    apply Z.shiftl_mul_pow2. lia. }
  pose proof (Z.div_mod m' (Zpos my) ltac:(lia)) as Hdm.
  pose proof (Z.mod_pos_bound m' (Zpos my) ltac:(lia)) as Hr.
  unfold Z.div, Z.modulo in Hdm, Hr.
  destruct (Z.div_eucl m' (Zpos my)) as [q r] eqn:Hqr.
  cbn [fst snd] in Hdm, Hr.
  assert (H2s : 0 < 2 ^ s) by (apply Z.pow_pos_nonneg; lia).
  assert (Hq : 0 <= q) by nia.
  exists q, e', (new_location (Zpos my) r), s.
  split; [reflexivity|]. split; [exact Hs|]. split; [unfold s; lia|].
  split; [unfold e'; rewrite fexp64_eq; lia|].
  split.
  - apply new_location_bracket; try lia.
  - rewrite fexp64_eq.
    destruct (Z_le_gt_dec e' (-1074)) as [|Hgt]; [lia|].
    assert (He' : e' <= d1 + ex - (d2 + ey) - 53).
    { unfold e' in *. rewrite fexp64_eq in *. lia. }
    pose proof (Zdigits2_bounds (Zpos mx) ltac:(lia)) as B1.
    pose proof (Zdigits2_upper (Zpos my) ltac:(lia)) as B2.
    fold d1 in B1. fold d2 in B2.
    assert (Hd1 : 0 < d1).
    { unfold d1. cbn. lia. }
    assert (Hd2 : 0 <= d2) by apply Zdigits2_nonneg.
    assert (Hlow : 2 ^ (d1 - 1) <= Zpos mx).
    { unfold d1. cbn [Zdigits2]. apply digits2_pos_bounds. }
    assert (Hbig : 2 ^ 52 * Zpos my <= m').
    { rewrite Hm'.
      assert (E : 2 ^ (d1 - 1) * 2 ^ s = 2 ^ 52 * 2 ^ d2 * 2 ^ (s - (d2 + 53 - d1))).
      { rewrite <- !pow2_split by lia. f_equal. lia. }
      assert (1 <= 2 ^ (s - (d2 + 53 - d1))).
      { apply (Z.pow_le_mono_r 2 0); unfold s; lia. }
      assert (0 < 2 ^ d2) by (apply Z.pow_pos_nonneg; lia).
      assert (2 ^ (d1 - 1) * 2 ^ s <= Zpos mx * 2 ^ s)
        by (apply Z.mul_le_mono_nonneg_r; lia).
      set (P := 2 ^ (s - (d2 + 53 - d1))) in *. set (Q := 2 ^ d2) in *.
      change (2 ^ 52) with 4503599627370496 in *. nia. }
    assert (2 ^ 52 <= q).
    { change (2 ^ 52) with 4503599627370496 in *. nia. }
    pose proof (Zdigits2_ge q 52 ltac:(lia) ltac:(assumption)). lia.
Qed.

Lemma SFdiv_finite mx ex my ey :
  exists q e' l s,
    SF64div (S754_finite false mx ex) (S754_finite false my ey)
    = binary_round_aux prec emax false q e' l
    /\ 0 <= s /\ s + e' = ex - ey
    /\ Z.min (-1074) (ex - ey) <= e'
    /\ bracket (shr_record_of_loc q l) (Zpos mx * 2 ^ s) (Zpos my)
    /\ e' <= fexp64 (Zdigits2 q + e').
Proof.
  destruct (div_core_spec mx my ex ey) as (q & e' & l & s & E & H).
  exists q, e', l, s. split; [|exact H].
  unfold SF64div, SFdiv. rewrite E. reflexivity.
Qed.

Lemma SFdiv_nonneg x my ey :
  nonneg x -> nonneg (SF64div x (S754_finite false my ey)).
Proof.
  destruct x as [?|[|]| |[|] mx ex]; try contradiction; intros _; try exact I.
  destruct (SFdiv_finite mx ex my ey) as (q & e' & l & s & -> & _ & _ & _ & Hb & Hn).
  destruct (round_aux_spec _ _ _ _ _ (Pos2Z.is_pos my) Hb Hn)
    as (a & _ & ((Ha & _) & _) & ->).
  apply norm_nonneg, Ha.
Qed.

Lemma SFdiv_mono x1 x2 my ey :
  nonneg x1 -> nonneg x2 ->
  valid_binary x1 = true -> valid_binary x2 = true ->
  SFleb x1 x2 = true ->
  SFleb (SF64div x1 (S754_finite false my ey))
        (SF64div x2 (S754_finite false my ey)) = true.
Proof.
  intros H1 H2 V1 V2 Hle.
  pose proof (SFdiv_nonneg x1 my ey H1) as N1.
  pose proof (SFdiv_nonneg x2 my ey H2) as N2.
  destruct x1 as [s1|[|]| |[|] m1 e1]; try contradiction.
  - apply leb_zero_nonneg, N2.
  - destruct x2 as [?|[|]| |[|] m2 e2]; try contradiction; try discriminate.
    reflexivity.
  - destruct x2 as [?|[|]| |[|] m2 e2]; try contradiction; try discriminate.
    + apply leb_nonneg_inf, N1.
    + destruct (SFdiv_finite m1 e1 my ey)
        as (q1 & e1' & l1 & s1 & -> & Hs1 & He1 & Hm1 & Hb1 & Hn1).
      destruct (SFdiv_finite m2 e2 my ey)
        as (q2 & e2' & l2 & s2 & -> & Hs2 & He2 & Hm2 & Hb2 & Hn2).
      set (E0 := Z.min (-1074) (Z.min (e1 - ey) (e2 - ey))).
      apply (round_aux_mono E0 (Zpos m1 * 2 ^ s1) (Zpos my) _ _ _
                            (Zpos m2 * 2 ^ s2) (Zpos my));
        try assumption; try (unfold E0; lia).
      apply Z.mul_le_mono_nonneg_r; [lia|].
      rewrite <- !Z.mul_assoc, <- !pow2_split by (unfold E0; lia).
      replace (s1 + (e1' - E0)) with (e1 - (E0 + ey)) by lia.
      replace (s2 + (e2' - E0)) with (e2 - (E0 + ey)) by lia.
      apply leb_value; try assumption; unfold E0; lia.
Qed.

(** * Primitive floats *)

(** Boolean forms, to settle the script's constants by evaluation. *)
Definition normal_posb (f : spec_float) : bool :=
  match f with
  | S754_finite false m _ => (2 ^ 52 <=? Zpos m) && (Zpos m <? 2 ^ 53)
  | _ => false
  end.

Definition zero_posb (f : spec_float) : bool :=
  match f with
  | S754_zero false => true
  | _ => false
  end.

(** A positive factor below one quarter. *)
Definition small_factorb (f : spec_float) : bool :=
  match f with
  | S754_finite false m e => (2 ^ 52 <=? Zpos m) && (Zpos m <? 2 ^ 53) && (e <=? -55)
  | _ => false
  end.

Lemma normal_posb_ok f : normal_posb f = true -> normal_pos f.
Proof.
  destruct f as [?|?| |[|] m e]; try discriminate. cbn.
  rewrite andb_true_iff, Z.leb_le, Z.ltb_lt. trivial.
Qed.

Lemma zero_or_normal f :
  zero_posb f || normal_posb f = true -> normal_pos f \/ f = S754_zero false.
Proof.
  rewrite orb_true_iff. intros [H|H].
  - right. destruct f as [[|]|?| |? ? ?]; try discriminate. reflexivity.
  - left. apply normal_posb_ok, H.
Qed.

Lemma small_factorb_ok f :
  small_factorb f = true ->
  exists mp ep, f = S754_finite false mp ep /\ 2 ^ 52 <= Zpos mp < 2 ^ 53 /\ ep <= -55.
Proof.
  destruct f as [?|?| |[|] m e]; try discriminate. cbn.
  rewrite !andb_true_iff, Z.leb_le, Z.ltb_lt, Z.leb_le. intros [[? ?] ?].
  exists m, e. auto.
Qed.

(** A float between zero and infinity, the latter excluded. *)
Lemma finite_nonneg_of_bounds (x : float) :
  PrimFloat.leb 0 x = true -> PrimFloat.ltb x infinity = true ->
  finite_nonneg (Prim2SF x).
Proof.
  rewrite leb_spec, ltb_spec.
  change (Prim2SF 0) with (S754_zero false).
  change (Prim2SF infinity) with (S754_infinity false).
  destruct (Prim2SF x) as [?|[|]| |[|] m e]; cbn; trivial; discriminate.
Qed.

Lemma mul_finite_nonneg (c k : float) :
  finite_nonneg (Prim2SF c) -> small_factorb (Prim2SF k) = true ->
  finite_nonneg (Prim2SF (c * k)).
Proof.
  intros Hc Hk. rewrite mul_spec.
  apply SFmul_finite; [apply Prim2SF_valid | exact Hc | apply small_factorb_ok, Hk].
Qed.

Lemma mul_nonneg (k p : float) :
  finite_nonneg (Prim2SF k) ->
  zero_posb (Prim2SF p) || normal_posb (Prim2SF p) = true ->
  nonneg (Prim2SF (k * p)).
Proof.
  intros Hk Hp. rewrite mul_spec. apply SFmul_nonneg; [exact Hk|].
  apply zero_or_normal, Hp.
Qed.

Lemma mul_mono (k p1 p2 : float) :
  finite_nonneg (Prim2SF k) ->
  zero_posb (Prim2SF p1) || normal_posb (Prim2SF p1) = true ->
  normal_posb (Prim2SF p2) = true ->
  PrimFloat.leb p1 p2 = true ->
  PrimFloat.leb (k * p1) (k * p2) = true.
Proof.
  intros Hk H1 H2. rewrite !leb_spec, !mul_spec.
  apply SFmul_mono; try apply Prim2SF_valid; try assumption.
  - apply zero_or_normal, H1.
  - apply normal_posb_ok, H2.
Qed.

Lemma div_mono (x1 x2 y : float) :
  nonneg (Prim2SF x1) -> nonneg (Prim2SF x2) ->
  normal_posb (Prim2SF y) = true ->
  PrimFloat.leb x1 x2 = true ->
  PrimFloat.leb (x1 / y) (x2 / y) = true.
Proof.
  intros H1 H2 Hy. rewrite !leb_spec, !div_spec.
  destruct (Prim2SF y) as [?|?| |[|] my ey]; try discriminate.
  apply SFdiv_mono; try apply Prim2SF_valid; assumption.
Qed.

End Rounding.

(* ================================================================== *)
(** * Binary64: the cation columns                                     *)
(* ================================================================== *)

Module B64Facts.

Import Rounding.

(** What an oxide cell may hold: nothing, or a finite number that is not
    negative ([0 <= x < inf]). *)
Definition finite_or_missing (x : float) : Prop :=
  isnan x = true
  \/ ((lit 0 <=? x)%py = true /\ (x <? PrimFloat.infinity)%py = true).

(** A profile that starts at zero or at a normal number, goes on with
    normal numbers and never decreases. *)
Fixpoint gradedb (xs : list float) : bool :=
  match xs with
  | x :: (y :: _) as rest =>
      (zero_posb (Prim2SF x) || normal_posb (Prim2SF x))
      && normal_posb (Prim2SF y) && (x <=? y)%py && gradedb rest
  | _ => true
  end.

Lemma or_default_finite (x d : float) :
  finite_or_missing x -> finite_nonneg (Prim2SF d) ->
  finite_nonneg (Prim2SF (or_default x d)).
Proof.
  unfold finite_or_missing, or_default, notna. cbn [isnan leb ltb lit binary64].
  intros [H|[H1 H2]] Hd.
  - rewrite H. exact Hd.
  - destruct (PrimFloat.is_nan x); [exact Hd|].
    apply finite_nonneg_of_bounds; assumption.
Qed.

Lemma scaled_nondecreasing_b64 (k : float) (profile : list float) :
  finite_nonneg (Prim2SF k) -> gradedb profile = true ->
  nondecreasing (per_thousand (scaled k profile)) = true.
Proof.
  intros Hk. induction profile as [|a [|b rest] IH]; intros Hg; trivial.
  cbn [gradedb] in Hg. rewrite !andb_true_iff in Hg.
  destruct Hg as [[[Ha Hb] Hab] Hg].
  change (nondecreasing (per_thousand (scaled k (a :: b :: rest))))
    with (PrimFloat.leb (PrimFloat.div (PrimFloat.mul k a) (lit 1000))
                        (PrimFloat.div (PrimFloat.mul k b) (lit 1000))
          && nondecreasing (per_thousand (scaled k (b :: rest)))).
  rewrite (IH Hg), andb_true_r.
  apply div_mono.
  - apply mul_nonneg; assumption.
  - apply mul_nonneg; [assumption|]. rewrite Hb. apply orb_true_r.
  - vm_compute. reflexivity.
  - apply mul_mono; assumption.
Qed.

Ltac column_b64 Hc :=
  apply scaled_nondecreasing_b64;
  [ apply mul_finite_nonneg; [exact Hc | vm_compute; reflexivity]
  | vm_compute; reflexivity ].

Lemma ca_nondecreasing_b64 (c : float) :
  finite_nonneg (Prim2SF c) -> nondecreasing (per_thousand (ca_values c)) = true.
Proof. intros Hc. unfold ca_values. column_b64 Hc. Qed.

Lemma mg_nondecreasing_b64 (c : float) :
  finite_nonneg (Prim2SF c) -> nondecreasing (per_thousand (mg_values c)) = true.
Proof. intros Hc. unfold mg_values. column_b64 Hc. Qed.

Lemma na_nondecreasing_b64 (c : float) :
  finite_nonneg (Prim2SF c) -> nondecreasing (per_thousand (na_values c)) = true.
Proof. intros Hc. unfold na_values. column_b64 Hc. Qed.

Lemma k_nondecreasing_b64 (c : float) :
  finite_nonneg (Prim2SF c) -> nondecreasing (per_thousand (k_values c)) = true.
Proof. intros Hc. unfold k_values. column_b64 Hc. Qed.

End B64Facts.

Definition cation_columns : list string := ["Ca+2"; "Mg+2"; "Na+"; "K+"].

(** C10 (as amended). Whenever the sample's CaO, MgO, Na2O and K2O
    percentages are missing or finite and not negative, each of the four
    cation columns of the synthetic table is non-decreasing over its seven
    rows, in exact arithmetic and in binary64 alike.  In exact arithmetic
    the Alk column equals HCO3- plus twice CO3-2 in every row.  In binary64
    the Alk column is the series [hco3 + 2 * co3] divided by 1000; compared
    with [HCO3- + 2 * CO3-2] on the table's columns it agrees in rows 0 and
    2 to 6 and differs in row 1. *)
Theorem cations_nondecreasing_alkalinity_sum :
  (forall s : Row Exact.t,
      ExactFacts.nonneg_or_missing (CaO_pct s) ->
      ExactFacts.nonneg_or_missing (MgO_pct s) ->
      ExactFacts.nonneg_or_missing (Na2O_pct s) ->
      ExactFacts.nonneg_or_missing (K2O_pct s) ->
      (forall name, In name cation_columns ->
         exists col, column nan (synthetic_results s) name = Some col
                     /\ length col = 7 /\ nondecreasing col = true)
      /\ alk_is_carbonate_sum (synthetic_results s) = true)
  /\ (forall s : Row float,
        B64Facts.finite_or_missing (CaO_pct s) ->
        B64Facts.finite_or_missing (MgO_pct s) ->
        B64Facts.finite_or_missing (Na2O_pct s) ->
        B64Facts.finite_or_missing (K2O_pct s) ->
        forall name, In name cation_columns ->
          exists col, column nan (synthetic_results s) name = Some col
                      /\ length col = 7 /\ nondecreasing col = true)
  /\ (forall s : Row float,
        column nan (synthetic_results s) "Alk" = Some (per_thousand alkalinity)
        /\ column nan (synthetic_results s) "HCO3-" = Some (per_thousand hco3_values)
        /\ column nan (synthetic_results s) "CO3-2" = Some (per_thousand co3_values)
        /\ alk_agrees (A:=float) (per_thousand alkalinity)
                      (per_thousand hco3_values) (per_thousand co3_values)
           = [true; false; true; true; true; true; true]).
Proof.
  split; [|split].
  - intros s Hca Hmg Hna Hk.
    destruct (ExactFacts.or_default_nonneg _ 5.0 Hca ltac:(discriminate)) as (ca & Eca & Pca).
    destruct (ExactFacts.or_default_nonneg _ 3.0 Hmg ltac:(discriminate)) as (mg & Emg & Pmg).
    destruct (ExactFacts.or_default_nonneg _ 3.0 Hna ltac:(discriminate)) as (na & Ena & Pna).
    destruct (ExactFacts.or_default_nonneg _ 2.0 Hk ltac:(discriminate)) as (k & Ek & Pk).
    unfold synthetic_results, cao_pct_of, mgo_pct_of, na2o_pct_of, k2o_pct_of.
    rewrite Eca, Emg, Ena, Ek.
    destruct (synthetic_columns (A:=Exact.t) (Some ca) (Some mg) (sio2_pct_of s)
                (Some na) (Some k))
      as (_ & Cca & Cmg & Cna & Ck & Ch & Cc & Calk).
    split.
    + intros name Hin. cbn in Hin.
      destruct Hin as [<-|[<-|[<-|[<-|[]]]]]; eexists; (split; [eassumption|]);
        (split; [reflexivity|]).
      * now apply ExactFacts.ca_nondecreasing.
      * now apply ExactFacts.mg_nondecreasing.
      * now apply ExactFacts.na_nondecreasing.
      * now apply ExactFacts.k_nondecreasing.
    + unfold alk_is_carbonate_sum. rewrite Calk, Ch, Cc. vm_compute. reflexivity.
  - intros s Hca Hmg Hna Hk name Hin.
    pose proof (B64Facts.or_default_finite _ (lit 5.0) Hca I) as Fca.
    pose proof (B64Facts.or_default_finite _ (lit 3.0) Hmg I) as Fmg.
    pose proof (B64Facts.or_default_finite _ (lit 3.0) Hna I) as Fna.
    pose proof (B64Facts.or_default_finite _ (lit 2.0) Hk I) as Fk.
    unfold synthetic_results.
    destruct (synthetic_columns (cao_pct_of s) (mgo_pct_of s) (sio2_pct_of s)
                (na2o_pct_of s) (k2o_pct_of s))
      as (_ & Cca & Cmg & Cna & Ck & _).
    cbn in Hin.
    destruct Hin as [<-|[<-|[<-|[<-|[]]]]]; eexists; (split; [eassumption|]);
      (split; [reflexivity|]).
    + apply B64Facts.ca_nondecreasing_b64, Fca.
    + apply B64Facts.mg_nondecreasing_b64, Fmg.
    + apply B64Facts.na_nondecreasing_b64, Fna.
    + apply B64Facts.k_nondecreasing_b64, Fk.
  - intros s. unfold synthetic_results.
    destruct (synthetic_columns (cao_pct_of s) (mgo_pct_of s) (sio2_pct_of s)
                (na2o_pct_of s) (k2o_pct_of s))
      as (_ & _ & _ & _ & _ & Ch & Cc & Calk).
    split; [exact Calk|]. split; [exact Ch|]. split; [exact Cc|].
    vm_compute. reflexivity.
Qed.


(* ================================================================== *)
(** * Instances of the conditional statements                          *)
(* ================================================================== *)

(** C1 at a world without engine: the second row is the first complete one
    and its synthetic table is what step 5 receives; the calcium column
    carries the basalt's 9.8 percent CaO. *)
Lemma fallback_without_engine :
  exists es sel sim,
    simulate (Examples.no_engine (Some [Examples.partial; Examples.basalt]))
    = (es, Ok (sel, sim))
    /\ engine_unavailable
         (Examples.no_engine (Some [Examples.partial; Examples.basalt])) (sample sel)
    /\ results_df sim = synthetic_results Examples.basalt
    /\ length (rows (results_df sim)) = 7
    /\ column nan (results_df sim) "Ca+2"
       = Some (map (fun p => (lit 9.8 * lit 0.08 * p / lit 1000)%py)
                   [lit 0; lit 0.1; lit 0.25; lit 0.45; lit 0.7; lit 0.9; lit 1.0])
    /\ snd (run (Examples.no_engine (Some [Examples.partial; Examples.basalt])))
       = Ok tt
    /\ rows (results_df sim) <> [].
Proof.
  assert (H : exists es sel sim,
             simulate (Examples.no_engine (Some [Examples.partial; Examples.basalt]))
             = (es, Ok (sel, sim)) /\ sample sel = Examples.basalt).
  { vm_compute. eexists _, _, _. split; reflexivity. }
  destruct H as (es & sel & sim & H & Hs).
  exists es, sel, sim.
  assert (U : engine_unavailable
                (Examples.no_engine (Some [Examples.partial; Examples.basalt]))
                (sample sel)) by (left; reflexivity).
  destruct (fallback_when_engine_unavailable _ es sel sim H) as [F R].
  destruct (F U) as ((T & L) & _ & _ & _ & Hca & _ & _ & _ & _ & _ & _ & _ & _ & _
                     & _ & _ & _ & Hout & _).
  rewrite Hs in T, Hca.
  split; [exact H|]. split; [exact U|]. split; [exact T|]. split; [exact L|].
  split; [exact Hca|]. split; [exact Hout|exact R].
Defined.

(** C4 at a world whose sixth listed database loads: the first six paths are
    tried, in order, and nothing after them. *)
Lemma database_search_stops_at_sixth :
  db_attempts
    (fst (run (Examples.with_engine [Examples.basalt] Examples.output_without_si)))
  = (firstn 5 database_paths ++ ["phreeqc.dat"])%list.
Proof.
  destruct (database_search_is_linear
              (Examples.with_engine [Examples.basalt] Examples.output_without_si))
    as (_ & _ & _ & H).
  destruct (H ltac:(discriminate) ltac:(reflexivity)) as [Hfirst _].
  apply (Hfirst (firstn 5 database_paths) "phreeqc.dat" ["llnl.dat"]).
  - reflexivity.
  - repeat constructor.
  - reflexivity.
Defined.

(** C8 at two tables: one whose only row lacks CaO, one whose second row is
    the first complete one. *)
Lemma first_complete_row_is_analysed :
  (snd (run (Examples.no_engine (Some [Examples.partial]))) = Exit 1%Z
   /\ Forall (fun e => downstream e = false)
             (fst (run (Examples.no_engine (Some [Examples.partial])))))
  /\ exists es sel sim,
       simulate (Examples.no_engine
                   (Some [Examples.partial; Examples.basalt; Examples.granite]))
       = (es, Ok (sel, sim))
       /\ sample sel = Examples.basalt.
Proof.
  split.
  - apply (sample_is_first_complete_row
             (Examples.no_engine (Some [Examples.partial])) [Examples.partial]
             eq_refl).
    repeat constructor.
  - destruct (sample_is_first_complete_row
                (Examples.no_engine
                   (Some [Examples.partial; Examples.basalt; Examples.granite]))
                [Examples.partial; Examples.basalt; Examples.granite] eq_refl)
      as [_ H].
    destruct (H [Examples.partial] Examples.basalt [Examples.granite] eq_refl
                ltac:(repeat constructor) ltac:(vm_compute; reflexivity))
      as (es & sel & sim & Hsim & Hs & _).
    exists es, sel, sim. auto.
Defined.

(** C10 at two samples.  In exact arithmetic: CaO 9.8, MgO 7.2, Na2O 2.6 and
    K2O missing.  In binary64: the row without a CaO value. *)
Lemma cations_nondecreasing_example :
  (let s : Row Exact.t :=
     mkRow "AK-0417" None (lit 49.5) (lit 9.8) (lit 7.2) (lit 2.6) nan (lit 11.3) nan in
   (forall name, In name cation_columns ->
      exists col, column nan (synthetic_results s) name = Some col
                  /\ length col = 7 /\ nondecreasing col = true)
   /\ alk_is_carbonate_sum (synthetic_results s) = true)
  /\ (forall name, In name cation_columns ->
        exists col, column nan (synthetic_results Examples.partial) name = Some col
                    /\ length col = 7 /\ nondecreasing col = true).
Proof.
  split.
  - apply (proj1 cations_nondecreasing_alkalinity_sum); cbn; trivial; discriminate.
  - apply (proj1 (proj2 cations_nondecreasing_alkalinity_sum)).
    + left. reflexivity.
    + right. split; reflexivity.
    + right. split; reflexivity.
    + right. split; reflexivity.
Defined.

(** A world without engine, with a writable report file: the run goes
    through all eight steps and writes the report. *)
Lemma fallback_run_example :
  snd (run (Examples.no_engine (Some [Examples.partial; Examples.basalt]))) = Ok tt
  /\ steps_of (fst (run (Examples.no_engine (Some [Examples.partial; Examples.basalt]))))
     = [1; 2; 3; 4; 5; 6; 7; 8]
  /\ In report_path
        (writes_of (fst (run (Examples.no_engine
                                (Some [Examples.partial; Examples.basalt]))))).
Proof.
  assert (H : exists es sel sim,
             simulate (Examples.no_engine (Some [Examples.partial; Examples.basalt]))
             = (es, Ok (sel, sim))).
  { vm_compute. eexists _, _, _. reflexivity. }
  destruct H as (es & sel & sim & H).
  apply (fallback_run_writes_report _ es sel sim H).
  - left. reflexivity.
  - reflexivity.
Defined.

(** A world whose engine answers with a usable table: the figure is not
    saved. *)
Lemma figure_lost_example :
  ~ In figure_path
       (writes_of
          (fst (run (Examples.with_engine [Examples.basalt]
                                          Examples.output_without_si)))).
Proof.
  assert (H : exists es sel sim,
             simulate (Examples.with_engine [Examples.basalt]
                                            Examples.output_without_si)
             = (es, Ok (sel, sim))
             /\ fallback_pcts sim = None).
  { vm_compute. eexists _, _, _. split; reflexivity. }
  destruct H as (es & sel & sim & H & Hnone).
  exact (figure_lost_when_engine_succeeds _ es sel sim H Hnone).
Defined.

(* ================================================================== *)
(** * The optional input files                                         *)
(* ================================================================== *)

Section OptionalInputs.

Context {A : Type} {num : PyFloat A}.

(** The same world with other answers for the mineralogy and the
    trace-element file. *)
Definition with_optional_files (env : Env A) (mineralogy trace : bool) : Env A :=
  mkEnv (fs_majors env) mineralogy trace (engine_new env)
        (engine_load_database env) (package_database env) (engine_run env)
        (parse_number env) (matplotlib_ok env) (savefig_ok env)
        (fs_write_ok env) (clock env).

(** X3. The mineralogy and trace-element tables are read and never used:
    whether these two files can be read changes nothing in a run, neither
    its events (the two reads are attempted either way) nor how it
    ends. *)
Theorem optional_files_are_inert (env : Env A) (mineralogy trace : bool) :
  run (with_optional_files env mineralogy trace) = run env.
Proof.
  destruct env as [majors m t new load pkg eng parse plot save write now].
  unfold with_optional_files. cbn [fs_majors engine_new engine_load_database
    package_database engine_run parse_number matplotlib_ok savefig_ok
    fs_write_ok clock].
  rewrite !run_eq. cbn [fs_majors].
  destruct majors as [rows|]; [|reflexivity].
  destruct (dropna rows) as [|s rest]; reflexivity.
Qed.

End OptionalInputs.

(* ================================================================== *)
(** * Which table reaches the analysis                                 *)
(* ================================================================== *)

Section EngineBranch.

Context {A : Type} {num : PyFloat A}.
Implicit Types (env : Env A) (s : Row A).

Lemma length_le_max_width {C} (data : list (list C)) (r : list C) :
  In r data -> length r <= max_width data.
Proof.
  induction data as [|d data IH]; [contradiction|].
  change (max_width (d :: data)) with (Nat.max (length d) (max_width data)).
  intros [<-|Hin]; [apply Nat.le_max_l|].
  specialize (IH Hin). etransitivity; [exact IH|apply Nat.le_max_r].
Qed.

Lemma length_pad_row {C} (fill : C) (n : nat) (r : list C) :
  length r <= n -> length (pad_row fill n r) = n.
Proof. intros H. unfold pad_row. rewrite length_app, repeat_length. lia. Qed.

(** The table built from a selected output whose widest row is as wide as
    the headings: the headings as labels, one row for each data row, each
    as wide as the headings. *)
Lemma coerced_output_shape env (cols : list string) (data : list (list (pyval A))) :
  max_width data = length cols ->
  columns (coerced_output env cols data) = cols
  /\ length (rows (coerced_output env cols data)) = length data
  /\ Forall (fun r => length r = length cols) (rows (coerced_output env cols data)).
Proof.
  intros Hw. unfold coerced_output. cbn [columns rows].
  split; [reflexivity|]. split; [now rewrite !length_map|].
  rewrite map_map. apply Forall_forall. intros r Hr.
  apply in_map_iff in Hr. destruct Hr as (r0 & <- & Hin).
  rewrite length_map. apply length_pad_row. rewrite <- Hw.
  now apply length_le_max_width.
Qed.

(** X4. The engine's selected output becomes the results table exactly
    when the engine was created, a database was loaded, the run returned
    headings and at least one row of data, the widest row has as many cells
    as there are headings and no heading occurs twice; the table then has
    the headings as column labels and one row for each row of data, filled
    up to the width of the headings.  In every other case the synthetic
    table is used; this includes a row wider than the headings and a
    repeated heading, on which the table construction and the numeric
    conversion raise inside the [try] block. *)
Theorem engine_table_used_exactly_when env s :
  (forall cols data,
      engine_new env = true -> database_found env = true ->
      engine_run env (generate_advanced_phreeqc_input s) = Some (OutRows cols data) ->
      data <> [] -> max_width data = length cols -> has_dup cols = false ->
      snd (step4_simulate env (synthetic_mode env) s)
      = Ok (mkSim (coerced_output env cols data) None)
      /\ columns (coerced_output env cols data) = cols
      /\ length (rows (coerced_output env cols data)) = length data
      /\ Forall (fun r => length r = length cols)
                (rows (coerced_output env cols data)))
  /\ (engine_new env = false \/ database_found env = false
      \/ engine_run env (generate_advanced_phreeqc_input s) = None
      \/ engine_run env (generate_advanced_phreeqc_input s) = Some OutEmpty
      \/ (exists cols data,
             engine_run env (generate_advanced_phreeqc_input s)
             = Some (OutRows cols data)
             /\ (data = [] \/ max_width data <> length cols \/ has_dup cols = true)) ->
      snd (step4_simulate env (synthetic_mode env) s) = Ok (synthetic_sim s)).
Proof.
  rewrite step4_simulate_eq. unfold synthetic_mode, engine_table. split.
  - intros cols data -> -> -> Hdata Hw Hdup. cbn [andb negb].
    destruct data as [|d data]; [congruence|].
    rewrite Hw, Nat.eqb_refl, Hdup. cbn [andb negb snd].
    split; [reflexivity|]. now apply coerced_output_shape.
  - intros [-> | [H | [H | [H | (cols & data & H & Hbad)]]]].
    + reflexivity.
    + rewrite H, andb_false_r. reflexivity.
    + rewrite H. destruct (negb _); reflexivity.
    + rewrite H. destruct (negb _); reflexivity.
    + rewrite H. destruct (negb _); [reflexivity|].
      destruct data as [|d data]; [reflexivity|].
      destruct Hbad as [Hbad | [Hbad | Hbad]]; [discriminate| |].
      * apply Nat.eqb_neq in Hbad. rewrite Hbad. reflexivity.
      * rewrite Hbad, andb_false_r. reflexivity.
Qed.

(** ** What step 5 needs of a table *)

Lemma index_of_absent (name : string) (cols : list string) :
  existsb (String.eqb name) cols = false -> index_of name cols = None.
Proof.
  induction cols as [|c cs IH]; cbn; [reflexivity|].
  destruct (String.eqb name c); [discriminate|]. intros H. now rewrite IH.
Qed.

Lemma index_of_present (name : string) (cols : list string) :
  existsb (String.eqb name) cols = true -> exists i, index_of name cols = Some i.
Proof.
  induction cols as [|c cs IH]; cbn; [discriminate|].
  destruct (String.eqb name c); [eauto|]. intros H.
  destruct (IH H) as [i ->]. cbn. eauto.
Qed.

Lemma getitem_absent (df : Frame A) name :
  has_column df name = false -> getitem df name = raise (KeyError name).
Proof.
  unfold has_column, getitem, column. intros H.
  now rewrite (index_of_absent _ _ H).
Qed.

Lemma getitem_present (df : Frame A) name :
  has_column df name = true -> rows df <> [] ->
  exists c, getitem df name = ret c /\ c <> [].
Proof.
  unfold has_column, getitem, column. intros H Hrows.
  destruct (index_of_present _ _ H) as [i ->]. cbn [option_map].
  eexists. split; [reflexivity|].
  destruct (rows df); [congruence|discriminate].
Qed.

Lemma iloc_first_ret (c : list A) : c <> [] -> iloc_first c = ret (hd nan c).
Proof. destruct c; [congruence|reflexivity]. Qed.

Lemma iloc_last_ret (c : list A) : c <> [] -> iloc_last c = ret (last c nan).
Proof. destruct c; [congruence|reflexivity]. Qed.

(** The column whose absence stops step 5, if any: the columns are read
    in this order. *)
Definition step5_missing (df : Frame A) : option string :=
  if negb (has_column df "pH") then Some "pH"
  else if negb (has_column df "Ca+2") then Some "Ca+2"
  else if negb (has_column df "Mg+2") then Some "Mg+2"
  else if has_column df "si_Calcite" && negb (has_column df "si_Dolomite")
       then Some "si_Dolomite"
  else None.

Lemma step5_outcome (df : Frame A) :
  rows df <> [] ->
  match step5_missing df with
  | Some k => snd (step5_analyse df) = Raise (KeyError k)
  | None =>
      exists an, snd (step5_analyse df) = Ok an
        /\ (if has_column df "si_Calcite"
            then (exists cs ds, final_calcite_si an = Some cs
                                /\ final_dolomite_si an = Some ds)
            else final_calcite_si an = None /\ final_dolomite_si an = None)
  end.
Proof.
  intros Hrows. unfold step5_missing, step5_analyse. rewrite bind_emit. cbn [snd].
  destruct (has_column df "pH") eqn:HpH; cbn [negb];
    [|rewrite (getitem_absent _ _ HpH); reflexivity].
  destruct (getitem_present _ _ HpH Hrows) as (pH & -> & HpH').
  rewrite bind_ret, (iloc_first_ret _ HpH'), bind_ret,
    (iloc_last_ret _ HpH'), bind_ret.
  destruct (has_column df "Ca+2") eqn:Hca; cbn [negb];
    [|rewrite (getitem_absent _ _ Hca); reflexivity].
  destruct (getitem_present _ _ Hca Hrows) as (ca & -> & Hca').
  rewrite bind_ret, (iloc_last_ret _ Hca'), bind_ret.
  destruct (has_column df "Mg+2") eqn:Hmg; cbn [negb];
    [|rewrite (getitem_absent _ _ Hmg); reflexivity].
  destruct (getitem_present _ _ Hmg Hrows) as (mg & -> & Hmg').
  rewrite bind_ret, (iloc_last_ret _ Hmg'), bind_ret.
  assert (Hcarbon : exists v,
             (if has_column df "HCO3-" then
                hco3 <- getitem df "HCO3-" ;;
                hco3_last <- iloc_last hco3 ;;
                alk <- (if has_column df "Alk" then getitem df "Alk" else ret hco3) ;;
                alk_last <- iloc_last alk ;;
                ret ((hco3_last * lit 1000 * lit 44)%py, (alk_last * lit 1000)%py)
              else ret (lit 0, lit 0)) = ret v).
  { destruct (has_column df "HCO3-") eqn:Hh; [|eauto].
    destruct (getitem_present _ _ Hh Hrows) as (hco3 & -> & Hh').
    rewrite bind_ret, (iloc_last_ret _ Hh'), bind_ret.
    destruct (has_column df "Alk") eqn:Ha.
    - destruct (getitem_present _ _ Ha Hrows) as (alk & -> & Ha').
      rewrite bind_ret, (iloc_last_ret _ Ha'), bind_ret. eauto.
    - rewrite bind_ret, (iloc_last_ret _ Hh'), bind_ret. eauto. }
  destruct Hcarbon as [carbon ->]. rewrite bind_ret.
  destruct (has_column df "si_Calcite") eqn:Hcal; cbn [andb].
  - destruct (getitem_present _ _ Hcal Hrows) as (cal & -> & Hcal').
    rewrite bind_ret, (iloc_last_ret _ Hcal'), bind_ret.
    destruct (has_column df "si_Dolomite") eqn:Hdol; cbn [negb];
      [|rewrite (getitem_absent _ _ Hdol); reflexivity].
    destruct (getitem_present _ _ Hdol Hrows) as (dol & -> & Hdol').
    rewrite bind_ret, (iloc_last_ret _ Hdol'), !bind_ret.
    eexists. split; [reflexivity|]. cbn. eauto.
  - rewrite !bind_ret. eexists. split; [reflexivity|]. cbn. auto.
Qed.

(** How steps 5 to 8 end on a table with at least one row. *)
Lemma publish_outcome env (sel : Selection A) (sim : Sim A) :
  rows (results_df sim) <> [] ->
  snd (publish env (sel, sim)) =
  match step5_missing (results_df sim) with
  | Some k => Raise (KeyError k)
  | None =>
      if has_column (results_df sim) "si_Calcite"
      then if fs_write_ok env then Ok tt else Raise OSError
      else Raise (NameError "final_calcite_si")
  end.
Proof.
  intros Hrows. rewrite publish_eq.
  pose proof (step5_outcome _ Hrows) as H5.
  destruct (step5_missing (results_df sim)) as [k|].
  - rewrite H5. reflexivity.
  - destruct H5 as (an & -> & Hsi).
    destruct (has_column (results_df sim) "si_Calcite").
    + destruct Hsi as (cs & ds & -> & ->). destruct (fs_write_ok env); reflexivity.
    + destruct Hsi as [-> _]. reflexivity.
Qed.

(** The table of a run that reaches step 5 has at least one row. *)
Lemma simulated_rows env es (sel : Selection A) (sim : Sim A) :
  simulate env = (es, Ok (sel, sim)) -> rows (results_df sim) <> [].
Proof.
  intros Hsim.
  destruct (simulate_inv _ _ _ _ Hsim) as (majors & s & rest & _ & _ & _ & H4).
  destruct (step4_table _ _ _ H4)
    as [-> | (_ & _ & cols & d & data & _ & ->)]; discriminate.
Qed.

End EngineBranch.

(* ================================================================== *)
(** * How a run can end                                                *)
(* ================================================================== *)

Section Outcomes.

Context {A : Type} {num : PyFloat A}.
Implicit Types (env : Env A) (s : Row A).

(** The three ways through the script: no majors table, no complete row,
    or a table for steps 5 to 8. *)
Lemma run_shape env :
  (fs_majors env = None /\ snd (run env) = Exit 1%Z)
  \/ (exists majors, fs_majors env = Some majors /\ dropna majors = []
                     /\ snd (run env) = Exit 1%Z)
  \/ (exists es sel sim,
         simulate env = (es, Ok (sel, sim))
         /\ fs_majors env <> None
         /\ (forall majors, fs_majors env = Some majors -> dropna majors <> [])
         /\ run env = ((es ++ fst (publish env (sel, sim)))%list,
                       snd (publish env (sel, sim)))).
Proof.
  destruct (fs_majors env) as [majors|] eqn:Hm.
  2:{ left. split; [reflexivity|]. rewrite run_eq, Hm. reflexivity. }
  right. destruct (dropna majors) as [|s rest] eqn:Hd.
  { left. exists majors. repeat split; trivial. rewrite run_eq, Hm, Hd. reflexivity. }
  right.
  destruct (step4_simulate_ok env (synthetic_mode env) s) as [sim H4].
  assert (Hsim : exists es, simulate env = (es, Ok (selection_of majors s, sim))).
  { rewrite simulate_eq, Hm, Hd, H4. eauto. }
  destruct Hsim as [es Hsim].
  exists es, (selection_of majors s), sim.
  split; [exact Hsim|]. split; [discriminate|]. split.
  - intros majors' [= <-]. congruence.
  - apply run_after_simulate, Hsim.
Qed.

(** The columns a table must have for steps 5 to 8 to go through. *)
Definition needed_columns : list string :=
  ["pH"; "Ca+2"; "Mg+2"; "si_Calcite"; "si_Dolomite"].

Lemma needed_columns_outcome (df : Frame A) :
  forallb (has_column df) needed_columns = true
  <-> step5_missing df = None /\ has_column df "si_Calcite" = true.
Proof.
  unfold needed_columns, step5_missing. cbn [forallb].
  destruct (has_column df "pH"), (has_column df "Ca+2"), (has_column df "Mg+2"),
    (has_column df "si_Calcite"), (has_column df "si_Dolomite");
    cbn; intuition discriminate.
Qed.

Lemma synthetic_has_needed_columns s :
  forallb (has_column (synthetic_results s)) needed_columns = true.
Proof. reflexivity. Qed.

(** X5. A run ends in one of five ways: normally; by [exit(1)]; with an
    uncaught [KeyError] for one of the columns pH, Ca+2, Mg+2 and
    si_Dolomite; with an uncaught [NameError] for [final_calcite_si]; or
    with an error of the operating system while the report is written.  It
    ends by [exit(1)] exactly when the majors table cannot be read or has
    no complete row.  A [KeyError] or [NameError] only happens on a table
    that came from the engine, never on the synthetic one. *)
Theorem run_ends_in_one_of_five_ways env :
  (snd (run env) = Ok tt
   \/ snd (run env) = Exit 1%Z
   \/ (exists k, In k ["pH"; "Ca+2"; "Mg+2"; "si_Dolomite"]
                 /\ snd (run env) = Raise (KeyError k))
   \/ snd (run env) = Raise (NameError "final_calcite_si")
   \/ snd (run env) = Raise OSError)
  /\ (snd (run env) = Exit 1%Z
      <-> fs_majors env = None
          \/ exists majors, fs_majors env = Some majors /\ dropna majors = [])
  /\ (snd (run env) = Raise OSError -> fs_write_ok env = false)
  /\ (forall e, snd (run env) = Raise e -> e <> OSError ->
        exists es sel sim,
          simulate env = (es, Ok (sel, sim)) /\ fallback_pcts sim = None).
Proof.
  destruct (run_shape env)
    as [[Hm Hr] | [(majors & Hm & Hd & Hr) | (es & sel & sim & Hsim & Hm & Hd & Hr)]].
  - rewrite Hr. repeat split; auto; try discriminate.
  - rewrite Hr. repeat split; eauto; try discriminate.
  - rewrite Hr. cbn [snd].
    rewrite (publish_outcome env sel sim (simulated_rows _ _ _ _ Hsim)).
    assert (Hsyn : fallback_pcts sim <> None ->
                   step5_missing (results_df sim) = None
                   /\ has_column (results_df sim) "si_Calcite" = true).
    { destruct (simulate_inv _ _ _ _ Hsim) as (mj & s & rest & _ & _ & _ & H4).
      revert H4. rewrite step4_simulate_eq.
      destruct (synthetic_mode env); [|destruct (engine_table env s)];
        intros [= <-]; intros Hp; try (split; reflexivity).
      exfalso. apply Hp. reflexivity. }
    unfold step5_missing in *.
    split; [|split; [|split]].
    + destruct (has_column (results_df sim) "pH"); cbn [negb];
        [|right; right; left; exists "pH"; cbn; auto 6].
      destruct (has_column (results_df sim) "Ca+2"); cbn [negb];
        [|right; right; left; exists "Ca+2"; cbn; auto 6].
      destruct (has_column (results_df sim) "Mg+2"); cbn [negb];
        [|right; right; left; exists "Mg+2"; cbn; auto 6].
      destruct (has_column (results_df sim) "si_Calcite"); cbn [andb];
        [|right; right; right; left; reflexivity].
      destruct (has_column (results_df sim) "si_Dolomite"); cbn [negb];
        [|right; right; left; exists "si_Dolomite"; cbn; auto 6].
      destruct (fs_write_ok env); auto 6.
    + split.
      * destruct (has_column (results_df sim) "pH"),
          (has_column (results_df sim) "Ca+2"),
          (has_column (results_df sim) "Mg+2"),
          (has_column (results_df sim) "si_Calcite"),
          (has_column (results_df sim) "si_Dolomite"),
          (fs_write_ok env); cbn; discriminate.
      * intros [H | (majors & H & Hd')]; [congruence|].
        exfalso. exact (Hd _ H Hd').
    + destruct (has_column (results_df sim) "pH"),
        (has_column (results_df sim) "Ca+2"),
        (has_column (results_df sim) "Mg+2"),
        (has_column (results_df sim) "si_Calcite"),
        (has_column (results_df sim) "si_Dolomite"),
        (fs_write_ok env); cbn; intros; congruence.
    + intros e He Hos. exists es, sel, sim. split; [exact Hsim|].
      destruct (fallback_pcts sim) eqn:Hp; [|reflexivity].
      exfalso. destruct Hsyn as [H1 H2]; [discriminate|].
      unfold step5_missing in H1. rewrite H1, H2 in He.
      destruct (fs_write_ok env); congruence.
Qed.

(** X6. A run ends normally exactly when the majors table loads, one of
    its rows is complete, the table that reaches step 5 has the columns
    pH, Ca+2, Mg+2, si_Calcite and si_Dolomite, and the report file can be
    written.  The synthetic table has these columns. *)
Theorem run_ends_normally_iff env :
  (snd (run env) = Ok tt
   <-> fs_write_ok env = true
       /\ exists es sel sim,
            simulate env = (es, Ok (sel, sim))
            /\ forallb (has_column (results_df sim)) needed_columns = true)
  /\ (forall s, forallb (has_column (synthetic_results s)) needed_columns = true).
Proof.
  split; [|apply synthetic_has_needed_columns].
  split.
  - intros Hok.
    destruct (run_shape env)
      as [[Hm Hr] | [(majors & Hm & Hd & Hr) | (es & sel & sim & Hsim & Hm & Hd & Hr)]];
      try congruence.
    rewrite Hr in Hok. cbn [snd] in Hok.
    rewrite (publish_outcome env sel sim (simulated_rows _ _ _ _ Hsim)) in Hok.
    destruct (step5_missing (results_df sim)) eqn:H5; [discriminate|].
    destruct (has_column (results_df sim) "si_Calcite") eqn:Hcal; [|discriminate].
    destruct (fs_write_ok env); [|discriminate].
    split; [reflexivity|]. exists es, sel, sim. split; [exact Hsim|].
    apply needed_columns_outcome. auto.
  - intros (Hw & es & sel & sim & Hsim & Hcols).
    rewrite (run_after_simulate _ _ _ Hsim). cbn [snd].
    rewrite (publish_outcome env sel sim (simulated_rows _ _ _ _ Hsim)).
    apply needed_columns_outcome in Hcols. destruct Hcols as [-> ->].
    now rewrite Hw.
Qed.

(** ** Calls of the engine *)

(** The payloads a trace passes to [run_string]. *)
Definition runs_of (es : list event) : list string :=
  flat_map (fun e => match e with EvRunString i => [i] | _ => [] end) es.

Lemma runs_of_app es1 es2 : runs_of (es1 ++ es2) = (runs_of es1 ++ runs_of es2)%list.
Proof. apply flat_map_app. Qed.

Lemma runs_of_loads l : runs_of (map EvLoadDatabase l) = [].
Proof. induction l; trivial. Qed.

Lemma runs_of_publish env (st : Selection A * Sim A) : runs_of (fst (publish env st)) = [].
Proof.
  destruct st as [sel sim]. rewrite publish_eq.
  destruct (snd (step5_analyse (results_df sim))) as [an|c|e]; [|reflexivity..].
  unfold figure_events.
  destruct (final_calcite_si an), (final_dolomite_si an), (fs_write_ok env),
    (reaches_savefig env sim); reflexivity.
Qed.

(** X7. The engine is asked to run at most once in an execution, and only
    the payload generated for the selected sample, the first complete row
    of the majors table; it is asked exactly when the majors table loads,
    has a complete row, the engine was created and a database loaded. *)
Theorem engine_runs_once_on_selected_sample env :
  runs_of (fst (run env)) =
  match fs_majors env with
  | None => []
  | Some majors =>
      match dropna majors with
      | [] => []
      | s :: _ =>
          if engine_new env && database_found env
          then [generate_advanced_phreeqc_input s]
          else []
      end
  end.
Proof.
  rewrite run_eq.
  destruct (fs_majors env) as [majors|]; [|reflexivity].
  destruct (dropna majors) as [|s rest].
  { cbn [fst]. rewrite !runs_of_app. unfold init_events. cbn.
    now rewrite ?runs_of_app, ?runs_of_loads. }
  assert (Hpre : forall es,
             runs_of (loading_events ++ init_events env ++ [EvStep 3] ++ es)%list
             = runs_of es).
  { intros es. rewrite !runs_of_app. unfold init_events. cbn.
    now rewrite ?runs_of_app, ?runs_of_loads. }
  rewrite step4_simulate_eq. unfold synthetic_mode.
  destruct (engine_new env && database_found env); cbn [negb].
  - destruct (engine_table env s); cbn [fst snd]; rewrite Hpre;
      rewrite ?runs_of_app, runs_of_publish; cbn; rewrite ?runs_of_app;
      reflexivity.
  - cbn [fst snd]. rewrite Hpre, runs_of_app, runs_of_publish. reflexivity.
Qed.

End Outcomes.

(* ================================================================== *)
(** * Binary64: the mineral amounts of the payload                     *)
(* ================================================================== *)

Module Amounts.

Import Rounding.

Local Open Scope Z_scope.

(** ** Numbers that are not negative *)

Lemma nan_spec (x : float) : PrimFloat.is_nan x = true -> Prim2SF x = S754_nan.
Proof. unfold Prim2SF. intros ->. reflexivity. Qed.

Lemma SFeqb_refl (X : spec_float) : X <> S754_nan -> SFeqb X X = true.
Proof.
  destruct X as [s|[|]| |[|] m e]; intros H; try reflexivity; try congruence;
    unfold SFeqb, SFcompare; rewrite Z.compare_refl;
    change (Pos.compare_cont Eq m m) with (Pos.compare m m);
    rewrite Pos.compare_refl; reflexivity.
Qed.

Lemma number_spec (x : float) : Prim2SF x <> S754_nan -> PrimFloat.is_nan x = false.
Proof.
  intros H. unfold PrimFloat.is_nan. rewrite eqb_spec, SFeqb_refl; trivial.
Qed.

Lemma nonneg_number (x : float) :
  nonneg (Prim2SF x) -> PrimFloat.is_nan x = false /\ PrimFloat.leb 0 x = true.
Proof.
  intros H. split.
  - apply number_spec. intros E. rewrite E in H. exact H.
  - rewrite leb_spec. change (Prim2SF 0) with (S754_zero false).
    apply leb_zero_nonneg, H.
Qed.

Lemma nonneg_of_leb (x : float) : PrimFloat.leb 0 x = true -> nonneg (Prim2SF x).
Proof.
  rewrite leb_spec. change (Prim2SF 0) with (S754_zero false).
  destruct (Prim2SF x) as [?|[|]| |[|] m e]; cbn; trivial; discriminate.
Qed.

Lemma nonneg_above (X1 X2 : spec_float) :
  nonneg X1 -> SFleb X1 X2 = true -> nonneg X2.
Proof.
  destruct X1 as [?|[|]| |[|] m1 e1]; try contradiction; intros _;
    destruct X2 as [?|[|]| |[|] m2 e2]; cbn; trivial; discriminate.
Qed.

(** ** Products by a positive constant on the right *)

Lemma SFmul_nonneg_l (x c : spec_float) :
  nonneg x -> normal_pos c -> nonneg (SF64mul x c).
Proof.
  intros Hx Hc.
  destruct c as [?|?| |[|] mc ec]; try contradiction.
  destruct x as [?|[|]| |[|] mx ex]; try contradiction; try exact I.
  cbn [SF64mul SFmul xorb].
  destruct (round_aux_spec (Zpos (mx * mc)) 1 (Zpos (mx * mc)) (ex + ec) loc_Exact
              ltac:(lia) (mul_bracket mx mc) (mul_shift mx mc _ (proj1 Hc)))
    as (a & _ & ((Ha & _) & _) & ->).
  apply norm_nonneg, Ha.
Qed.

Lemma SFmul_mono_l (x1 x2 c : spec_float) :
  nonneg x1 -> nonneg x2 -> normal_pos c ->
  valid_binary x1 = true -> valid_binary x2 = true ->
  SFleb x1 x2 = true ->
  SFleb (SF64mul x1 c) (SF64mul x2 c) = true.
Proof.
  intros H1 H2 Hc V1 V2 Hle.
  pose proof (SFmul_nonneg_l x1 c H1 Hc) as N1.
  pose proof (SFmul_nonneg_l x2 c H2 Hc) as N2.
  destruct c as [?|?| |[|] mc ec]; try contradiction.
  destruct x1 as [s1|[|]| |[|] m1 e1]; try contradiction.
  - apply leb_zero_nonneg, N2.
  - destruct x2 as [?|[|]| |[|] m2 e2]; try contradiction; try discriminate.
    reflexivity.
  - destruct x2 as [?|[|]| |[|] m2 e2]; try contradiction; try discriminate.
    + apply leb_nonneg_inf, N1.
    + cbn [SF64mul SFmul xorb].
      set (E0 := Z.min (-1074) (Z.min (e1 + ec) (e2 + ec))).
      apply (round_aux_mono E0 (Zpos (m1 * mc)) 1 _ _ _ (Zpos (m2 * mc)) 1);
        try (unfold E0; lia).
      * apply mul_bracket.
      * apply mul_bracket.
      * apply mul_shift, Hc.
      * apply mul_shift, Hc.
      * rewrite !Z.mul_1_r, !Pos2Z.inj_mul.
        rewrite !(Z.mul_comm _ (Zpos mc)), <- !Z.mul_assoc.
        apply Z.mul_le_mono_nonneg_l; [lia|].
        pose proof (leb_value (E0 - ec) m1 e1 m2 e2 V1 V2 Hle
                      ltac:(unfold E0; lia) ltac:(unfold E0; lia)) as H.
        replace (e1 + ec - E0) with (e1 - (E0 - ec)) by lia.
        replace (e2 + ec - E0) with (e2 - (E0 - ec)) by lia.
        exact H.
Qed.

Lemma mul_nonneg_l (x c : float) :
  nonneg (Prim2SF x) -> normal_posb (Prim2SF c) = true ->
  nonneg (Prim2SF (x * c)).
Proof.
  intros Hx Hc. rewrite mul_spec.
  apply SFmul_nonneg_l; [exact Hx | apply normal_posb_ok, Hc].
Qed.

Lemma mul_mono_l (x1 x2 c : float) :
  nonneg (Prim2SF x1) -> nonneg (Prim2SF x2) ->
  normal_posb (Prim2SF c) = true ->
  PrimFloat.leb x1 x2 = true ->
  PrimFloat.leb (x1 * c) (x2 * c) = true.
Proof.
  intros H1 H2 Hc. rewrite !leb_spec, !mul_spec.
  apply SFmul_mono_l; try apply Prim2SF_valid; try assumption.
  apply normal_posb_ok, Hc.
Qed.

Lemma div_nonneg (x y : float) :
  nonneg (Prim2SF x) -> normal_posb (Prim2SF y) = true ->
  nonneg (Prim2SF (x / y)).
Proof.
  intros Hx Hy. rewrite div_spec.
  destruct (Prim2SF y) as [?|?| |[|] my ey]; try discriminate.
  apply SFdiv_nonneg, Hx.
Qed.

Local Close Scope Z_scope.

(** ** The amounts *)

(** An oxide cell that is empty or holds a number that is not negative. *)
Definition nonneg_or_missing (x : float) : Prop :=
  isnan x = true \/ (lit 0 <=? x)%py = true.

(** [o / 100 * 1000 / w], the moles of a phase of molar mass [w] in a
    kilogram of rock with [o] percent of the oxide. *)
Definition moles (o w : float) : float := (o / lit 100 * lit 1000 / w)%py.

Lemma or_default_nonneg_b64 (x d : float) :
  nonneg_or_missing x -> nonneg (Prim2SF d) -> nonneg (Prim2SF (or_default x d)).
Proof.
  unfold nonneg_or_missing, or_default, notna. cbn [isnan leb lit binary64].
  intros [H|H] Hd.
  - rewrite H. exact Hd.
  - destruct (PrimFloat.is_nan x); [exact Hd|]. apply nonneg_of_leb, H.
Qed.

Lemma moles_nonneg (o w : float) :
  nonneg (Prim2SF o) -> normal_posb (Prim2SF w) = true ->
  nonneg (Prim2SF (moles o w)).
Proof.
  intros Ho Hw. unfold moles. cbn [div mul binary64].
  apply div_nonneg; [|exact Hw].
  apply mul_nonneg_l; [|vm_compute; reflexivity].
  apply div_nonneg; [exact Ho|vm_compute; reflexivity].
Qed.

Lemma moles_mono (o1 o2 w : float) :
  nonneg (Prim2SF o1) -> PrimFloat.leb o1 o2 = true ->
  normal_posb (Prim2SF w) = true ->
  PrimFloat.leb (moles o1 w) (moles o2 w) = true.
Proof.
  intros H1 Hle Hw.
  assert (H2 : nonneg (Prim2SF o2)).
  { apply (nonneg_above (Prim2SF o1)); [exact H1|]. now rewrite <- leb_spec. }
  unfold moles. cbn [div mul binary64].
  assert (Hc : normal_posb (Prim2SF (lit 100)) = true) by (vm_compute; reflexivity).
  assert (Hk : normal_posb (Prim2SF (lit 1000)) = true) by (vm_compute; reflexivity).
  apply div_mono; [| |exact Hw|].
  - apply mul_nonneg_l; [|exact Hk]. now apply div_nonneg.
  - apply mul_nonneg_l; [|exact Hk]. now apply div_nonneg.
  - apply mul_mono_l; [| |exact Hk|].
    + now apply div_nonneg.
    + now apply div_nonneg.
    + now apply div_mono.
Qed.

End Amounts.

(** X8. In binary64, when an oxide cell of the sample is empty or holds a
    number that is not negative, the amount of the corresponding mineral
    in the engine payload is a number and is not negative: a missing value
    never reaches the engine as NaN.  This holds for each of the six
    minerals. *)
Theorem mineral_amounts_are_numbers (s : Row float) :
  let m := mineral_moles_of (oxides_of s) in
  (Amounts.nonneg_or_missing (SiO2_pct s) ->
     isnan (quartz m) = false /\ (lit 0 <=? quartz m)%py = true)
  /\ (Amounts.nonneg_or_missing (CaO_pct s) ->
        isnan (anorthite m) = false /\ (lit 0 <=? anorthite m)%py = true)
  /\ (Amounts.nonneg_or_missing (MgO_pct s) ->
        isnan (forsterite m) = false /\ (lit 0 <=? forsterite m)%py = true)
  /\ (Amounts.nonneg_or_missing (Na2O_pct s) ->
        isnan (albite m) = false /\ (lit 0 <=? albite m)%py = true)
  /\ (Amounts.nonneg_or_missing (K2O_pct s) ->
        isnan (kfeldspar m) = false /\ (lit 0 <=? kfeldspar m)%py = true)
  /\ (Amounts.nonneg_or_missing (Fe2O3_pct s) ->
        isnan (hematite m) = false /\ (lit 0 <=? hematite m)%py = true).
Proof.
  cbv zeta.
  repeat apply conj; intros H; apply Amounts.nonneg_number;
    cbn [quartz anorthite forsterite albite kfeldspar hematite mineral_moles_of
         oxides_of o_SiO2 o_CaO o_MgO o_Na2O o_K2O o_Fe2O3];
    match goal with
    | |- Rounding.nonneg (Prim2SF (or_default ?x ?d / _ * _ / ?w)%py) =>
        apply (Amounts.moles_nonneg (or_default x d) w);
        [ apply Amounts.or_default_nonneg_b64; [exact H|vm_compute; exact I]
        | vm_compute; reflexivity ]
    end.
Qed.

(** X9. In binary64 the amount of a mineral in the payload does not
    decrease when the oxide percentage it is computed from increases: for
    two samples whose cell is present and not negative in the first and
    at least as large in the second, the amounts are in the same order.
    Dividing by 100, multiplying by 1000 and dividing by the molar mass,
    each rounded, keep the order. *)
Theorem mineral_amounts_follow_oxides (s1 s2 : Row float) :
  let m1 := mineral_moles_of (oxides_of s1) in
  let m2 := mineral_moles_of (oxides_of s2) in
  ((lit 0 <=? SiO2_pct s1)%py = true -> (SiO2_pct s1 <=? SiO2_pct s2)%py = true ->
     (quartz m1 <=? quartz m2)%py = true)
  /\ ((lit 0 <=? CaO_pct s1)%py = true -> (CaO_pct s1 <=? CaO_pct s2)%py = true ->
        (anorthite m1 <=? anorthite m2)%py = true)
  /\ ((lit 0 <=? MgO_pct s1)%py = true -> (MgO_pct s1 <=? MgO_pct s2)%py = true ->
        (forsterite m1 <=? forsterite m2)%py = true)
  /\ ((lit 0 <=? Na2O_pct s1)%py = true -> (Na2O_pct s1 <=? Na2O_pct s2)%py = true ->
        (albite m1 <=? albite m2)%py = true)
  /\ ((lit 0 <=? K2O_pct s1)%py = true -> (K2O_pct s1 <=? K2O_pct s2)%py = true ->
        (kfeldspar m1 <=? kfeldspar m2)%py = true)
  /\ ((lit 0 <=? Fe2O3_pct s1)%py = true -> (Fe2O3_pct s1 <=? Fe2O3_pct s2)%py = true ->
        (hematite m1 <=? hematite m2)%py = true).
Proof.
  cbv zeta.
  assert (Hkeep : forall x1 x2 d : float,
             PrimFloat.leb 0 x1 = true -> PrimFloat.leb x1 x2 = true ->
             or_default x1 d = x1 /\ or_default x2 d = x2
             /\ Rounding.nonneg (Prim2SF x1)).
  { intros x1 x2 d H0 Hle.
    pose proof (Amounts.nonneg_of_leb _ H0) as N1.
    assert (N2 : Rounding.nonneg (Prim2SF x2)).
    { apply (Amounts.nonneg_above (Prim2SF x1)); [exact N1|].
      now rewrite <- leb_spec. }
    destruct (Amounts.nonneg_number _ N1) as [E1 _].
    destruct (Amounts.nonneg_number _ N2) as [E2 _].
    unfold or_default, notna. cbn [isnan binary64]. rewrite E1, E2. auto. }
  repeat apply conj; intros H0 Hle;
    destruct (Hkeep _ _ (lit 0) H0 Hle) as (_ & _ & N1);
    cbn [quartz anorthite forsterite albite kfeldspar hematite mineral_moles_of
         oxides_of o_SiO2 o_CaO o_MgO o_Na2O o_K2O o_Fe2O3];
    match goal with
    | |- (or_default ?x1 ?d / _ * _ / ?w <=? or_default ?x2 ?d / _ * _ / ?w)%py = true =>
        destruct (Hkeep x1 x2 d H0 Hle) as (-> & -> & _);
        apply (Amounts.moles_mono x1 x2 w N1 Hle); vm_compute; reflexivity
    end.
Qed.

(* ================================================================== *)
(** * The report: ratings and headline figures                         *)
(* ================================================================== *)

Section Ratings.

Context {A : Type} {num : PyFloat A}.
Implicit Types (env : Env A) (an : Analysis A).

(** The three ratings of the report and the saturation state, as the
    conditional expressions of the report compute them. *)
Definition pH_buffering an : string :=
  if (lit 1.5 <? fabs (pH_change an))%py then "Excellent"
  else if (lit 1.0 <? fabs (pH_change an))%py then "Good" else "Moderate".

Definition cation_supply an : string :=
  if (lit 2.0 <? total_cation_release an)%py then "High"
  else if (lit 1.0 <? total_cation_release an)%py then "Medium" else "Low".

Definition co2_rating an : string :=
  if (lit 100 <? co2_sequestration an)%py then "High"
  else if (lit 50 <? co2_sequestration an)%py then "Medium" else "Low".

Definition saturation (si : A) : string :=
  if (lit 0 <? si)%py then "Supersaturated" else "Undersaturated".

(** Where the report carries them. *)
Lemma report_figures env (sel : Selection A) an (cs ds : A) :
  let lines := report_lines env sel an cs ds in
  In ("• Acid Neutralization Capacity: " ++ fmt_f 2 (fabs (pH_change an))
        ++ " pH units") lines
  /\ In ("• Total Cation Release: " ++ fmt_f 2 (total_cation_release an)
           ++ " mmol/L") lines
  /\ In ("• CO₂ Sequestration Potential: " ++ fmt_f 1 (co2_sequestration an)
           ++ " mg CO₂/L") lines
  /\ In ("• Alkalinity Generation: " ++ fmt_f 2 (alkalinity_generated an)
           ++ " meq/L") lines
  /\ In ("• Calcite (CaCO₃): " ++ saturation cs ++ " (SI = " ++ fmt_f 2 cs ++ ")")
        lines
  /\ In ("• Dolomite (CaMg(CO₃)₂): " ++ saturation ds ++ " (SI = " ++ fmt_f 2 ds
           ++ ")") lines
  /\ In ("• pH Buffering: " ++ pH_buffering an) lines
  /\ In ("• Cation Supply: " ++ cation_supply an) lines
  /\ In ("• CO₂ Sequestration: " ++ co2_rating an) lines.
Proof.
  cbv zeta. repeat apply conj.
  - apply (nth_error_In _ 29). reflexivity.
  - apply (nth_error_In _ 30). reflexivity.
  - apply (nth_error_In _ 33). reflexivity.
  - apply (nth_error_In _ 34). reflexivity.
  - apply (nth_error_In _ 37). reflexivity.
  - apply (nth_error_In _ 38). reflexivity.
  - apply (nth_error_In _ 41). reflexivity.
  - apply (nth_error_In _ 42). reflexivity.
  - apply (nth_error_In _ 43). reflexivity.
Qed.

(** ** What is written to the report file *)

Lemma written_path (es : list event) p content :
  In (EvWriteFile p content) es -> In p (writes_of es).
Proof.
  intros H. unfold writes_of. apply in_flat_map.
  exists (EvWriteFile p content). split; [exact H|]. now left.
Qed.

(** The text written to the report file is the report of the selected
    sample and of the analysis of the table that reached step 5. *)
Lemma report_written env es (sel : Selection A) (sim : Sim A) p content :
  simulate env = (es, Ok (sel, sim)) ->
  In (EvWriteFile p content) (fst (run env)) ->
  exists an cs ds,
    snd (step5_analyse (results_df sim)) = Ok an
    /\ final_calcite_si an = Some cs /\ final_dolomite_si an = Some ds
    /\ content = report_text env sel an cs ds.
Proof.
  intros Hsim Hin.
  rewrite (run_after_simulate _ _ _ Hsim) in Hin. cbn [fst] in Hin.
  apply in_app_or in Hin. destruct Hin as [Hin|Hin].
  { exfalso. apply written_path in Hin.
    replace es with (fst (simulate env)) in Hin by now rewrite Hsim.
    now rewrite writes_of_simulate in Hin. }
  rewrite publish_eq in Hin.
  assert (Hfig : ~ In (EvWriteFile p content) (figure_events env sim)).
  { unfold figure_events. destruct (reaches_savefig env sim); cbn;
      intuition discriminate. }
  destruct (snd (step5_analyse (results_df sim))) as [an|c|e];
    [|cbn in Hin; intuition discriminate..].
  destruct (final_calcite_si an) as [cs|] eqn:Hcs,
    (final_dolomite_si an) as [ds|] eqn:Hds;
    [destruct (fs_write_ok env)| | |];
    cbn [fst] in Hin;
    repeat match type of Hin with
           | In _ (_ :: _) => destruct Hin as [Hin|Hin]; [try discriminate Hin|]
           | In _ (_ ++ _)%list =>
               apply in_app_or in Hin; destruct Hin as [Hin|Hin];
               [contradiction (Hfig Hin)|]
           | In _ [] => destruct Hin
           end;
    injection Hin as _ <-; exists an, cs, ds; auto.
Qed.

(** The table is the synthetic one whenever the synthetic branch ran. *)
Lemma fallback_is_synthetic env es (sel : Selection A) (sim : Sim A) :
  simulate env = (es, Ok (sel, sim)) -> fallback_pcts sim <> None ->
  sim = synthetic_sim (sample sel).
Proof.
  intros Hsim Hp.
  destruct (simulate_inv _ _ _ _ Hsim) as (majors & s & rest & _ & _ & -> & H4).
  cbn [sample selection_of]. revert H4. rewrite step4_simulate_eq.
  destruct (synthetic_mode env); [|destruct (engine_table env s)];
    intros [= <-]; try reflexivity.
  exfalso. apply Hp. reflexivity.
Qed.

End Ratings.

(** X10. In binary64, every report written by a run on the synthetic
    table carries the same headline figures, whatever the sample: an acid
    neutralisation capacity of 2.40 pH units, a CO2 sequestration
    potential of 228.8 mg/L rated High, an alkalinity generation of 6.00
    meq/L, calcite and dolomite supersaturated at 1.10 and 1.00, and a pH
    buffering rated Excellent. *)
Theorem fallback_report_headlines (env : Env float) es (sel : Selection float)
        (sim : Sim float) content :
  simulate env = (es, Ok (sel, sim)) ->
  fallback_pcts sim <> None ->
  In (EvWriteFile report_path content) (fst (run env)) ->
  exists lines,
    content = String.concat nl lines
    /\ In "• Acid Neutralization Capacity: 2.40 pH units" lines
    /\ In "• CO₂ Sequestration Potential: 228.8 mg CO₂/L" lines
    /\ In "• Alkalinity Generation: 6.00 meq/L" lines
    /\ In "• Calcite (CaCO₃): Supersaturated (SI = 1.10)" lines
    /\ In "• Dolomite (CaMg(CO₃)₂): Supersaturated (SI = 1.00)" lines
    /\ In "• pH Buffering: Excellent" lines
    /\ In "• CO₂ Sequestration: High" lines.
Proof.
  intros Hsim Hp Hin.
  destruct (report_written _ _ _ _ _ _ Hsim Hin) as (an & cs & ds & H5 & Hcs & Hds & ->).
  rewrite (fallback_is_synthetic _ _ _ _ Hsim Hp) in H5.
  cbn [results_df synthetic_sim] in H5. rewrite step5_synthetic in H5.
  injection H5 as <-. injection Hcs as <-. injection Hds as <-.
  set (an := synthetic_analysis (sample sel)).
  exists (report_lines env sel an (lit 1.1) (lit 1.0)).
  split; [reflexivity|].
  destruct (report_figures env sel an (lit 1.1) (lit 1.0))
    as (H1 & _ & H3 & H4 & H5 & H6 & H7 & _ & H9).
  assert (E1 : fmt_f 2 (fabs (pH_change an)) = "2.40") by (vm_compute; reflexivity).
  assert (E3 : fmt_f 1 (co2_sequestration an) = "228.8") by (vm_compute; reflexivity).
  assert (E4 : fmt_f 2 (alkalinity_generated an) = "6.00") by (vm_compute; reflexivity).
  assert (E7 : pH_buffering an = "Excellent") by (vm_compute; reflexivity).
  assert (E9 : co2_rating an = "High") by (vm_compute; reflexivity).
  rewrite E1 in H1. rewrite E3 in H3. rewrite E4 in H4.
  rewrite E7 in H7. rewrite E9 in H9.
  repeat apply conj; assumption.
Qed.

(* ================================================================== *)
(** * Missing values in the report                                     *)
(* ================================================================== *)

Module NaN64.

(** Binary64 has one NaN as far as the script can tell. *)
Lemma nan_unique (x : float) : PrimFloat.is_nan x = true -> x = PrimFloat.nan.
Proof.
  intros H. rewrite <- (SF2Prim_Prim2SF x), (Amounts.nan_spec x H). reflexivity.
Qed.

Lemma number_is_not_nan (x : float) :
  PrimFloat.is_nan x = false -> Prim2SF x <> S754_nan.
Proof.
  intros H. unfold Prim2SF. rewrite H.
  destruct (is_zero x); [discriminate|].
  destruct (is_infinity x); [discriminate|].
  destruct (Z.frexp x) as [r e].
  destruct (shr_fexp prec emax _ _ _) as [shr e'].
  destruct (shr_m shr); discriminate.
Qed.

(** The text of a number starts with a digit or a sign. *)
Lemma digits_head (n : Z) :
  exists c rest, Fmt.digits n = String c rest /\ c <> "n"%char.
Proof.
  unfold Fmt.digits.
  destruct (N.to_uint (Z.to_N n)) as [|d|d|d|d|d|d|d|d|d|d];
    cbn; eexists _, _; (split; [reflexivity|discriminate]).
Qed.

Lemma fixed_is_not_nan (k : nat) (neg : bool) (n : Z) (d : positive) :
  Fmt.fixed k neg n d <> "nan".
Proof.
  unfold Fmt.fixed.
  destruct neg; [discriminate|].
  destruct (digits_head (Fmt.round_half_even (n * 10 ^ Z.of_nat k) d
                         / 10 ^ Z.of_nat k)) as (c & rest & -> & Hc).
  cbn. intros [= E _]. exact (Hc E).
Qed.

Lemma format_is_nan (k : nat) (x : float) :
  PrimFloat.is_nan x = true -> B64.format k x = "nan".
Proof. intros H. unfold B64.format. now rewrite (Amounts.nan_spec x H). Qed.

Lemma format_is_not_nan (k : nat) (x : float) :
  PrimFloat.is_nan x = false -> B64.format k x <> "nan".
Proof.
  intros H. apply number_is_not_nan in H. unfold B64.format.
  destruct (Prim2SF x) as [s|[|]| |s m [|e|e]];
    try discriminate; try congruence; apply fixed_is_not_nan.
Qed.

End NaN64.

(** X11. A value of the analysis that is NaN (as [pd.to_numeric] leaves
    an entry of the engine's output it cannot read) gets the lowest
    rating without notice: a NaN pH change is rated Moderate and printed
    as a capacity of nan pH units, a NaN cation release and a NaN CO2
    figure are rated Low, and a NaN saturation index is reported as
    Undersaturated (SI = nan). *)
Theorem missing_values_get_the_lowest_rating
        (env : Env float) (sel : Selection float) (an : Analysis float)
        (cs ds : float) :
  let lines := report_lines env sel an cs ds in
  (isnan (pH_change an) = true ->
     In "• pH Buffering: Moderate" lines
     /\ In "• Acid Neutralization Capacity: nan pH units" lines)
  /\ (isnan (total_cation_release an) = true -> In "• Cation Supply: Low" lines)
  /\ (isnan (co2_sequestration an) = true -> In "• CO₂ Sequestration: Low" lines)
  /\ (isnan cs = true -> In "• Calcite (CaCO₃): Undersaturated (SI = nan)" lines)
  /\ (isnan ds = true ->
        In "• Dolomite (CaMg(CO₃)₂): Undersaturated (SI = nan)" lines).
Proof.
  cbv zeta.
  destruct (report_figures env sel an cs ds)
    as (H1 & _ & _ & _ & H5 & H6 & H7 & H8 & H9).
  assert (Hlt : forall c : float, (c <? PrimFloat.nan)%py = false).
  { intros c. cbn [ltb binary64]. rewrite ltb_spec.
    change (Prim2SF PrimFloat.nan) with S754_nan.
    unfold SFltb, SFcompare. destruct (Prim2SF c); reflexivity. }
  assert (Habs : fabs PrimFloat.nan = PrimFloat.nan) by reflexivity.
  assert (Hfmt : forall k, fmt_f k PrimFloat.nan = "nan") by reflexivity.
  repeat apply conj; intros H; apply NaN64.nan_unique in H.
  - unfold pH_buffering in H7. rewrite H, Habs, !Hlt in H7.
    rewrite H, Habs, Hfmt in H1. split; [exact H7|exact H1].
  - unfold cation_supply in H8. rewrite H, !Hlt in H8. exact H8.
  - unfold co2_rating in H9. rewrite H, !Hlt in H9. exact H9.
  - subst cs. unfold saturation in H5. rewrite Hlt, Hfmt in H5. exact H5.
  - subst ds. unfold saturation in H6. rewrite Hlt, Hfmt in H6. exact H6.
Qed.

(* ================================================================== *)
(** * The sample in the report                                         *)
(* ================================================================== *)

Section SelectedSample.

Context {A : Type} {num : PyFloat A}.
Implicit Types (env : Env A) (s : Row A).

Lemma dropna_head_complete (majors : list (Row A)) s rest :
  dropna majors = s :: rest -> complete s = true.
Proof.
  intros H. assert (Hin : In s (dropna majors)) by (rewrite H; now left).
  unfold dropna in Hin. apply filter_In in Hin. tauto.
Qed.

(** The sample of a run that reaches step 4 is complete. *)
Lemma selected_is_complete env es (sel : Selection A) (sim : Sim A) :
  simulate env = (es, Ok (sel, sim)) ->
  complete (sample sel) = true
  /\ total_oxides sel = total_oxides_of (major_elements_of (sample sel)).
Proof.
  intros Hsim.
  destruct (simulate_inv _ _ _ _ Hsim) as (majors & s & rest & _ & Hd & -> & _).
  cbn [sample selection_of total_oxides]. split; [|reflexivity].
  eapply dropna_head_complete, Hd.
Qed.

(** X12. In every run that reaches step 4, the total of analysed oxides
    is the sum, from zero and in the order SiO2, CaO, MgO, Na2O, K2O,
    Fe2O3, of the six oxides the selection requires, plus Al2O3 when the
    sample has it: a missing Al2O3 is left out of the sum and does not
    turn it into NaN. *)
Theorem total_oxides_skips_missing_alumina env es (sel : Selection A) (sim : Sim A) :
  simulate env = (es, Ok (sel, sim)) ->
  let s := sample sel in
  let six := (lit 0 + SiO2_pct s + CaO_pct s + MgO_pct s + Na2O_pct s
              + K2O_pct s + Fe2O3_pct s)%py in
  total_oxides sel = if isnan (Al2O3_pct s) then six else (six + Al2O3_pct s)%py.
Proof.
  intros Hsim. cbv zeta.
  destruct (selected_is_complete _ _ _ _ Hsim) as [Hc ->].
  unfold complete in Hc. rewrite !andb_true_iff in Hc.
  destruct Hc as [[[[[H1 H2] H3] H4] H5] H6].
  unfold total_oxides_of, major_elements_of. cbn [map snd filter].
  rewrite H1, H2, H3, H4, H5, H6. unfold notna.
  destruct (isnan (Al2O3_pct (sample sel))); reflexivity.
Qed.

(** X13. The payload for the engine reads the sample's identifier and its
    SiO2, CaO, MgO, Na2O, K2O and Fe2O3 cells and nothing else: the Al2O3
    value, although defaulted to 15.0 with the others, and the rock type
    never reach the engine. *)
Theorem payload_ignores_alumina_and_rock_type s1 s2 :
  DDPD_ID s1 = DDPD_ID s2 ->
  SiO2_pct s1 = SiO2_pct s2 -> CaO_pct s1 = CaO_pct s2 ->
  MgO_pct s1 = MgO_pct s2 -> Na2O_pct s1 = Na2O_pct s2 ->
  K2O_pct s1 = K2O_pct s2 -> Fe2O3_pct s1 = Fe2O3_pct s2 ->
  generate_advanced_phreeqc_input s1 = generate_advanced_phreeqc_input s2.
Proof.
  intros Hid H1 H2 H3 H4 H5 H6.
  unfold generate_advanced_phreeqc_input, mineral_moles_of, oxides_of.
  cbn [quartz anorthite forsterite albite kfeldspar hematite
       o_SiO2 o_CaO o_MgO o_Na2O o_K2O o_Fe2O3].
  now rewrite Hid, H1, H2, H3, H4, H5, H6.
Qed.

End SelectedSample.

(** X14. In binary64, in every run that reaches step 4, the report's lines
    for SiO2, CaO, MgO, Na2O, K2O and Fe2O3 never read nan, because the
    selection requires these six cells; the selection does not require
    Al2O3, and when that cell is empty the report reads
    [Al₂O₃ (Alumina): nan%]. *)
Theorem report_oxide_lines (env : Env float) es (sel : Selection float)
        (sim : Sim float) :
  simulate env = (es, Ok (sel, sim)) ->
  let s := sample sel in
  (fmt_f 2 (SiO2_pct s) <> "nan" /\ fmt_f 2 (CaO_pct s) <> "nan"
   /\ fmt_f 2 (MgO_pct s) <> "nan" /\ fmt_f 2 (Na2O_pct s) <> "nan"
   /\ fmt_f 2 (K2O_pct s) <> "nan" /\ fmt_f 2 (Fe2O3_pct s) <> "nan")
  /\ (forall an cs ds,
        In ("• SiO₂ (Silica): " ++ fmt_f 2 (SiO2_pct s) ++ "%")
           (report_lines env sel an cs ds)
        /\ In ("• Fe₂O₃ (Iron oxide): " ++ fmt_f 2 (Fe2O3_pct s) ++ "%")
              (report_lines env sel an cs ds))
  /\ (isnan (Al2O3_pct s) = true ->
      forall an cs ds,
        In "• Al₂O₃ (Alumina): nan%" (report_lines env sel an cs ds)).
Proof.
  intros Hsim. cbv zeta.
  destruct (selected_is_complete _ _ _ _ Hsim) as [Hc _].
  unfold complete, notna in Hc. rewrite !andb_true_iff, !negb_true_iff in Hc.
  destruct Hc as [[[[[H1 H2] H3] H4] H5] H6].
  split; [|split].
  - repeat apply conj; apply NaN64.format_is_not_nan; assumption.
  - intros an cs ds. split.
    + apply (nth_error_In _ 19). reflexivity.
    + apply (nth_error_In _ 24). reflexivity.
  - intros H an cs ds. apply (nth_error_In _ 25).
    cbn [report_lines nth_error]. cbn [fmt_f binary64].
    now rewrite (NaN64.format_is_nan 2 _ H).
Qed.

(* ================================================================== *)
(** * The synthetic table holds numbers                                *)
(* ================================================================== *)

Module TableCells.

Import Rounding.

(** A cell of a cation column: percentage, rate, profile value, and the
    conversion to mol/L. *)
Lemma cation_cell (c k p : float) :
  finite_nonneg (Prim2SF c) -> small_factorb (Prim2SF k) = true ->
  zero_posb (Prim2SF p) || normal_posb (Prim2SF p) = true ->
  nonneg (Prim2SF (c * k * p / lit 1000)%py).
Proof.
  intros Hc Hk Hp. cbn [mul div binary64].
  apply Amounts.div_nonneg; [|vm_compute; reflexivity].
  apply mul_nonneg; [|exact Hp]. now apply mul_finite_nonneg.
Qed.

Ltac cell Hca Hmg Hna Hk :=
  cbn [mul div lit isnan leb binary64];
  first
    [ match goal with
      | |- context [PrimFloat.div (PrimFloat.mul (PrimFloat.mul ?c ?k) ?p) _] =>
          apply Amounts.nonneg_number;
          apply (cation_cell c k p);
          [ first [exact Hca | exact Hmg | exact Hna | exact Hk]
          | vm_compute; reflexivity | vm_compute; reflexivity ]
      end
    | vm_compute; reflexivity ].

End TableCells.

(** X15. In binary64, when the CaO, MgO, Na2O and K2O cells of the sample
    are each empty or a finite number that is not negative, no cell of the
    synthetic table is NaN, and every cell of the four cation columns is a
    number that is not negative. *)
Theorem synthetic_table_holds_numbers (s : Row float) :
  B64Facts.finite_or_missing (CaO_pct s) ->
  B64Facts.finite_or_missing (MgO_pct s) ->
  B64Facts.finite_or_missing (Na2O_pct s) ->
  B64Facts.finite_or_missing (K2O_pct s) ->
  Forall (Forall (fun x => isnan x = false)) (rows (synthetic_results s))
  /\ (forall name col,
        In name cation_columns ->
        column nan (synthetic_results s) name = Some col ->
        Forall (fun x => (lit 0 <=? x)%py = true) col).
Proof.
  intros Hca Hmg Hna Hk.
  pose proof (B64Facts.or_default_finite _ (lit 5.0) Hca I) as Fca.
  pose proof (B64Facts.or_default_finite _ (lit 3.0) Hmg I) as Fmg.
  pose proof (B64Facts.or_default_finite _ (lit 3.0) Hna I) as Fna.
  pose proof (B64Facts.or_default_finite _ (lit 2.0) Hk I) as Fk.
  fold (cao_pct_of s) in Fca. fold (mgo_pct_of s) in Fmg.
  fold (na2o_pct_of s) in Fna. fold (k2o_pct_of s) in Fk.
  split.
  - unfold synthetic_results, synthetic_table, frame_of_columns.
    cbn [rows map seq nth snd fst length pH_values ca_values mg_values na_values
         k_values per_thousand scaled ca_profile mg_profile na_profile k_profile
         si_values hco3_values co3_values calcite_si dolomite_si gibbsite_si
         alkalinity array_add].
    repeat (apply Forall_cons; [repeat (apply Forall_cons;
                                         [TableCells.cell Fca Fmg Fna Fk|]);
                                apply Forall_nil|]).
    apply Forall_nil.
  - intros name col Hin Hcol. unfold synthetic_results in Hcol.
    destruct (synthetic_columns (cao_pct_of s) (mgo_pct_of s) (sio2_pct_of s)
                (na2o_pct_of s) (k2o_pct_of s))
      as (_ & Cca & Cmg & Cna & Ck & _).
    cbn in Hin.
    destruct Hin as [<-|[<-|[<-|[<-|[]]]]];
      [rewrite Cca in Hcol | rewrite Cmg in Hcol | rewrite Cna in Hcol
       | rewrite Ck in Hcol];
      injection Hcol as <-;
      cbn [ca_values mg_values na_values k_values per_thousand scaled map
           ca_profile mg_profile na_profile k_profile];
      repeat (apply Forall_cons; [TableCells.cell Fca Fmg Fna Fk|]);
      apply Forall_nil.
Qed.

(* ================================================================== *)
(** * Binary64: sums of numbers that are not negative                  *)
(* ================================================================== *)

Module Sums.

Import Rounding.

Local Open Scope Z_scope.

(** ** Aligned mantissas *)

Lemma iter_xO (m d : positive) : Zpos (Pos.iter xO m d) = Zpos m * 2 ^ Zpos d.
Proof.
  induction d as [|d IH] using Pos.peano_ind.
  - cbn [Pos.iter]. lia.
  - rewrite Pos.iter_succ, Pos2Z.inj_xO, IH, Pos2Z.inj_succ, Z.pow_succ_r by lia.
    lia.
Qed.

Lemma shl_align_spec (mx : positive) ex ez :
  let '(mz, e) := shl_align mx ex ez in
  e = Z.min ex ez /\ Zpos mz = Zpos mx * 2 ^ (ex - e).
Proof.
  unfold shl_align. destruct (ez - ex) as [|d|d] eqn:E.
  - split; [lia|]. replace (ex - ex) with 0 by lia. lia.
  - split; [lia|]. replace (ex - ex) with 0 by lia. lia.
  - split; [lia|]. rewrite iter_xO. f_equal. f_equal. lia.
Qed.

Lemma Zdigits2_shift m d : 0 < m -> 0 <= d -> Zdigits2 (m * 2 ^ d) = Zdigits2 m + d.
Proof.
  intros Hm Hd.
  destruct (Zdigits2_bounds m Hm) as [Hlo Hhi].
  pose proof (Zdigits2_nonneg m) as H0.
  assert (Hp : 0 < 2 ^ d) by (apply Z.pow_pos_nonneg; lia).
  assert (H1 : Zdigits2 m <> 0).
  { intros E. rewrite E in Hhi. change (2 ^ 0) with 1 in Hhi. lia. }
  apply Z.le_antisymm.
  - apply Zdigits2_le; [nia|lia|]. rewrite Z.pow_add_r by lia. nia.
  - replace (Zdigits2 m + d) with (Zdigits2 m - 1 + d + 1) by lia.
    apply Zdigits2_ge; [lia|]. rewrite Z.pow_add_r by lia. nia.
Qed.

(** A positive integer times a power of two, rounded: the mantissa is
    first aligned on the exponent of its format. *)
Lemma binary_round_spec (m : positive) e :
  exists mz ez,
    binary_round prec emax false m e
    = binary_round_aux prec emax false (Zpos mz) ez loc_Exact
    /\ ez <= e /\ Z.min e (-1074) <= ez
    /\ Zpos mz = Zpos m * 2 ^ (e - ez)
    /\ ez <= fexp64 (Zdigits2 (Zpos mz) + ez).
Proof.
  unfold binary_round.
  pose proof (shl_align_spec m e (SpecFloat.fexp prec emax (Zpos (digits2_pos m) + e)))
    as H.
  destruct (shl_align m e _) as [mz ez]. destruct H as [He Hm].
  exists mz, ez. split; [reflexivity|].
  change (Zpos (digits2_pos m)) with (Zdigits2 (Zpos m)) in He.
  pose proof (fexp64_eq (Zdigits2 (Zpos m) + e)) as F.
  split; [lia|]. split; [lia|]. split; [exact Hm|].
  rewrite Hm, Zdigits2_shift by lia.
  replace (Zdigits2 (Zpos m) + (e - ez) + ez) with (Zdigits2 (Zpos m) + e) by lia.
  lia.
Qed.

Lemma SFadd_finite mx ex my ey :
  exists mz ez,
    SF64add (S754_finite false mx ex) (S754_finite false my ey)
    = binary_round_aux prec emax false (Zpos mz) ez loc_Exact
    /\ ez <= Z.min ex ey /\ Z.min (Z.min ex ey) (-1074) <= ez
    /\ Zpos mz = Zpos mx * 2 ^ (ex - ez) + Zpos my * 2 ^ (ey - ez)
    /\ ez <= fexp64 (Zdigits2 (Zpos mz) + ez).
Proof.
  unfold SF64add, SFadd. cbn [cond_Zopp].
  pose proof (shl_align_spec mx ex (Z.min ex ey)) as Hx.
  pose proof (shl_align_spec my ey (Z.min ex ey)) as Hy.
  destruct (shl_align mx ex (Z.min ex ey)) as [mx' ex'].
  destruct (shl_align my ey (Z.min ex ey)) as [my' ey'].
  destruct Hx as [Ex Hx]. destruct Hy as [Ey Hy]. cbn [fst].
  change (Zpos mx' + Zpos my') with (Zpos (mx' + my')). cbn [binary_normalize].
  destruct (binary_round_spec (mx' + my') (Z.min ex ey))
    as (mz & ez & -> & H1 & H2 & H3 & H4).
  exists mz, ez. split; [reflexivity|]. split; [exact H1|]. split; [exact H2|].
  split; [|exact H4].
  rewrite H3, Pos2Z.inj_add, Hx, Hy, Z.mul_add_distr_r, <- !Z.mul_assoc.
  rewrite <- !Z.pow_add_r by lia.
  f_equal; f_equal; f_equal; lia.
Qed.

Lemma exact_bracket (m : positive) :
  bracket (shr_record_of_loc (Zpos m) loc_Exact) (Zpos m) 1.
Proof. unfold bracket. cbn [shr_record_of_loc shr_m shr_r shr_s]. lia. Qed.

(** A float is the rounding of its own value. *)
Lemma round_self m e :
  valid_binary (S754_finite false m e) = true ->
  binary_round_aux prec emax false (Zpos m) e loc_Exact = S754_finite false m e.
Proof.
  intros V. pose proof V as V'.
  cbn [SpecFloat.valid_binary] in V'. unfold bounded, canonical_mantissa in V'.
  rewrite andb_true_iff, Z.eqb_eq, Z.leb_le in V'. destruct V' as [Hc He].
  change (Zpos (digits2_pos m)) with (Zdigits2 (Zpos m)) in Hc.
  destruct (valid_finite _ _ _ V) as (Hu & _ & _).
  destruct (round_aux_spec (Zpos m) 1 (Zpos m) e loc_Exact ltac:(lia)
              (exact_bracket m) ltac:(lia)) as (a & (Ha & _ & _) & _ & ->).
  rewrite Hc in *. replace (e - e) with 0 in Ha by lia.
  change (2 ^ 0) with 1 in Ha.
  assert (a = Zpos m) by lia. subst a.
  unfold norm. destruct (Z.eqb_spec (Zpos m) (2 ^ 53)) as [E|_]; [lia|].
  change (emax - prec) with 971 in He.
  destruct (Z.leb_spec e 971); [reflexivity|lia].
Qed.


(** ** The order of non-negative floats *)

Lemma SFleb_finite_refl m e :
  SFleb (S754_finite false m e) (S754_finite false m e) = true.
Proof.
  unfold SFleb, SFcompare. rewrite Z.compare_refl.
  change (Pos.compare_cont Eq m m) with (Pos.compare m m).
  now rewrite Pos.compare_refl.
Qed.

Lemma SFleb_nonneg_refl x : nonneg x -> SFleb x x = true.
Proof.
  destruct x as [?|[|]| |[|] m e]; try contradiction; intros _;
    try reflexivity. apply SFleb_finite_refl.
Qed.

(** Finite positive floats compare by exponent, then by mantissa. *)
Lemma SFleb_finite m1 e1 m2 e2 :
  SFleb (S754_finite false m1 e1) (S754_finite false m2 e2) = true
  <-> e1 < e2 \/ (e1 = e2 /\ (m1 <= m2)%positive).
Proof.
  unfold SFleb, SFcompare.
  change (Pos.compare_cont Eq m1 m2) with (Pos.compare m1 m2).
  destruct (Z.compare_spec e1 e2) as [->|H|H].
  - destruct (Pos.compare_spec m1 m2); split; intros H'; try reflexivity;
      try discriminate; lia.
  - split; [lia|reflexivity].
  - split; [discriminate|lia].
Qed.

Lemma SFltb_finite m1 e1 m2 e2 :
  SFltb (S754_finite false m1 e1) (S754_finite false m2 e2) = true
  <-> e1 < e2 \/ (e1 = e2 /\ (m1 < m2)%positive).
Proof.
  unfold SFltb, SFcompare.
  change (Pos.compare_cont Eq m1 m2) with (Pos.compare m1 m2).
  destruct (Z.compare_spec e1 e2) as [->|H|H].
  - destruct (Pos.compare_spec m1 m2); split; intros H'; try reflexivity;
      try discriminate; lia.
  - split; [lia|reflexivity].
  - split; [discriminate|lia].
Qed.

Lemma SFleb_trans x y z :
  nonneg x -> nonneg y -> nonneg z ->
  SFleb x y = true -> SFleb y z = true -> SFleb x z = true.
Proof.
  destruct x as [?|[|]| |[|] m1 e1]; try contradiction;
    destruct y as [?|[|]| |[|] m2 e2]; try contradiction;
    destruct z as [?|[|]| |[|] m3 e3]; try contradiction;
    intros _ _ _ H1 H2; try reflexivity; try discriminate.
  apply SFleb_finite in H1, H2. apply SFleb_finite. lia.
Qed.

Lemma SFltb_leb_trans x y z :
  nonneg x -> nonneg y -> nonneg z ->
  SFltb x y = true -> SFleb y z = true -> SFltb x z = true.
Proof.
  destruct x as [?|[|]| |[|] m1 e1]; try contradiction;
    destruct y as [?|[|]| |[|] m2 e2]; try contradiction;
    destruct z as [?|[|]| |[|] m3 e3]; try contradiction;
    intros _ _ _ H1 H2; try reflexivity; try discriminate.
  apply SFltb_finite in H1. apply SFleb_finite in H2. apply SFltb_finite. lia.
Qed.

(** ** Sums *)

Lemma SFadd_nonneg x y : nonneg x -> nonneg y -> nonneg (SF64add x y).
Proof.
  destruct x as [[|]|[|]| |[|] mx ex]; try contradiction;
    destruct y as [[|]|[|]| |[|] my ey]; try contradiction;
    intros _ _; try exact I.
  destruct (SFadd_finite mx ex my ey) as (mz & ez & -> & _ & _ & _ & Hn).
  destruct (round_aux_spec (Zpos mz) 1 (Zpos mz) ez loc_Exact ltac:(lia)
              (exact_bracket mz) Hn) as (a & _ & ((Ha & _) & _) & ->).
  apply norm_nonneg, Ha.
Qed.

(** The sum of two positive floats is not below either. *)
Lemma SFadd_above_l mx ex my ey :
  valid_binary (S754_finite false mx ex) = true ->
  SFleb (S754_finite false mx ex)
        (SF64add (S754_finite false mx ex) (S754_finite false my ey)) = true.
Proof.
  intros V. rewrite <- (round_self mx ex V) at 1.
  destruct (SFadd_finite mx ex my ey) as (mz & ez & -> & H1 & H2 & H3 & Hn).
  destruct (valid_finite _ _ _ V) as (_ & He & _).
  assert (Hc : ex <= fexp64 (Zdigits2 (Zpos mx) + ex)).
  { cbn [SpecFloat.valid_binary] in V. unfold bounded, canonical_mantissa in V.
    rewrite andb_true_iff, Z.eqb_eq in V. destruct V as [Hc _].
    change (Zpos (digits2_pos mx)) with (Zdigits2 (Zpos mx)) in Hc. lia. }
  set (E0 := Z.min ez (-1074)).
  apply (round_aux_mono E0 (Zpos mx) 1 _ _ _ (Zpos mz) 1);
    try (unfold E0; lia); try apply exact_bracket; try assumption.
  rewrite !Z.mul_1_r, H3, Z.mul_add_distr_r, <- !Z.mul_assoc.
  rewrite <- !Z.pow_add_r by (unfold E0; lia).
  replace (ex - ez + (ez - E0)) with (ex - E0) by lia.
  assert (0 <= Zpos my * 2 ^ (ey - ez + (ez - E0))).
  { apply Z.mul_nonneg_nonneg; [lia|apply Z.pow_nonneg; lia]. }
  lia.
Qed.

Lemma SFadd_above_r mx ex my ey :
  valid_binary (S754_finite false my ey) = true ->
  SFleb (S754_finite false my ey)
        (SF64add (S754_finite false mx ex) (S754_finite false my ey)) = true.
Proof.
  intros V. rewrite <- (round_self my ey V) at 1.
  destruct (SFadd_finite mx ex my ey) as (mz & ez & -> & H1 & H2 & H3 & Hn).
  destruct (valid_finite _ _ _ V) as (_ & He & _).
  assert (Hc : ey <= fexp64 (Zdigits2 (Zpos my) + ey)).
  { cbn [SpecFloat.valid_binary] in V. unfold bounded, canonical_mantissa in V.
    rewrite andb_true_iff, Z.eqb_eq in V. destruct V as [Hc _].
    change (Zpos (digits2_pos my)) with (Zdigits2 (Zpos my)) in Hc. lia. }
  set (E0 := Z.min ez (-1074)).
  apply (round_aux_mono E0 (Zpos my) 1 _ _ _ (Zpos mz) 1);
    try (unfold E0; lia); try apply exact_bracket; try assumption.
  rewrite !Z.mul_1_r, H3, Z.mul_add_distr_r, <- !Z.mul_assoc.
  rewrite <- !Z.pow_add_r by (unfold E0; lia).
  replace (ey - ez + (ez - E0)) with (ey - E0) by lia.
  assert (0 <= Zpos mx * 2 ^ (ex - ez + (ez - E0))).
  { apply Z.mul_nonneg_nonneg; [lia|apply Z.pow_nonneg; lia]. }
  lia.
Qed.

(** Two sums of positive floats, term by term in order. *)
Lemma SFadd_finite_mono mx1 ex1 my1 ey1 mx2 ex2 my2 ey2 :
  valid_binary (S754_finite false mx1 ex1) = true ->
  valid_binary (S754_finite false mx2 ex2) = true ->
  valid_binary (S754_finite false my1 ey1) = true ->
  valid_binary (S754_finite false my2 ey2) = true ->
  SFleb (S754_finite false mx1 ex1) (S754_finite false mx2 ex2) = true ->
  SFleb (S754_finite false my1 ey1) (S754_finite false my2 ey2) = true ->
  SFleb (SF64add (S754_finite false mx1 ex1) (S754_finite false my1 ey1))
        (SF64add (S754_finite false mx2 ex2) (S754_finite false my2 ey2)) = true.
Proof.
  intros Vx1 Vx2 Vy1 Vy2 Hx Hy.
  destruct (SFadd_finite mx1 ex1 my1 ey1) as (m1 & e1 & -> & A1 & B1 & C1 & N1).
  destruct (SFadd_finite mx2 ex2 my2 ey2) as (m2 & e2 & -> & A2 & B2 & C2 & N2).
  set (E0 := Z.min (Z.min e1 e2) (-1074)).
  assert (L0 : E0 <= -1074) by (unfold E0; lia).
  assert (L1 : E0 <= e1) by (unfold E0; lia).
  assert (L2 : E0 <= e2) by (unfold E0; lia).
  clearbody E0.
  assert (Lx1 : E0 <= ex1) by lia. assert (Ly1 : E0 <= ey1) by lia.
  assert (Lx2 : E0 <= ex2) by lia. assert (Ly2 : E0 <= ey2) by lia.
  pose proof (leb_value E0 mx1 ex1 mx2 ex2 Vx1 Vx2 Hx Lx1 Lx2) as Px.
  pose proof (leb_value E0 my1 ey1 my2 ey2 Vy1 Vy2 Hy Ly1 Ly2) as Py.
  apply (round_aux_mono E0 (Zpos m1) 1 _ _ _ (Zpos m2) 1);
    try assumption; try apply exact_bracket; try reflexivity.
  rewrite !Z.mul_1_r, C1, C2, !Z.mul_add_distr_r, <- !Z.mul_assoc.
  rewrite <- !(Z.pow_add_r 2) by (clear - A1 A2 L1 L2; lia).
  replace (ex1 - e1 + (e1 - E0)) with (ex1 - E0) by (clear; lia).
  replace (ey1 - e1 + (e1 - E0)) with (ey1 - E0) by (clear; lia).
  replace (ex2 - e2 + (e2 - E0)) with (ex2 - E0) by (clear; lia).
  replace (ey2 - e2 + (e2 - E0)) with (ey2 - E0) by (clear; lia).
  apply Z.add_le_mono; assumption.
Qed.

(** Adding a zero changes nothing (but the sign of a zero). *)
Lemma SFadd_zero_l s y :
  nonneg y -> SFleb (SF64add (S754_zero s) y) y = true.
Proof.
  destruct y as [[|]|[|]| |[|] m e]; try contradiction; intros _;
    try (destruct s; reflexivity).
  unfold SF64add, SFadd. apply SFleb_finite_refl.
Qed.

Lemma SFadd_zero_r x s :
  nonneg x -> SFleb (SF64add x (S754_zero s)) x = true.
Proof.
  destruct x as [[|]|[|]| |[|] m e]; try contradiction; intros _;
    try (destruct s; reflexivity).
  unfold SF64add, SFadd. apply SFleb_finite_refl.
Qed.

Lemma SFadd_inf_l y : nonneg y -> SF64add (S754_infinity false) y = S754_infinity false.
Proof. destruct y as [?|[|]| |[|] m e]; try contradiction; reflexivity. Qed.

Lemma SFadd_inf_r x : nonneg x -> SF64add x (S754_infinity false) = S754_infinity false.
Proof. destruct x as [?|[|]| |[|] m e]; try contradiction; reflexivity. Qed.

(** A sum is not below its terms. *)
Lemma SFadd_ge_l x y :
  nonneg x -> nonneg y -> valid_binary x = true -> SFleb x (SF64add x y) = true.
Proof.
  intros Nx Ny V.
  destruct x as [s|[|]| |[|] mx ex]; try contradiction.
  - apply leb_zero_nonneg, SFadd_nonneg; assumption.
  - now rewrite SFadd_inf_l.
  - destruct y as [t|[|]| |[|] my ey]; try contradiction.
    + unfold SF64add, SFadd. apply SFleb_finite_refl.
    + reflexivity.
    + now apply SFadd_above_l.
Qed.

Lemma SFadd_ge_r x y :
  nonneg x -> nonneg y -> valid_binary y = true -> SFleb y (SF64add x y) = true.
Proof.
  intros Nx Ny V.
  destruct y as [s|[|]| |[|] my ey]; try contradiction.
  - apply leb_zero_nonneg, SFadd_nonneg; assumption.
  - now rewrite SFadd_inf_r.
  - destruct x as [t|[|]| |[|] mx ex]; try contradiction.
    + unfold SF64add, SFadd. apply SFleb_finite_refl.
    + reflexivity.
    + now apply SFadd_above_r.
Qed.

Lemma SFadd_mono x1 y1 x2 y2 :
  nonneg x1 -> nonneg y1 -> nonneg x2 -> nonneg y2 ->
  valid_binary x1 = true -> valid_binary y1 = true ->
  valid_binary x2 = true -> valid_binary y2 = true ->
  SFleb x1 x2 = true -> SFleb y1 y2 = true ->
  SFleb (SF64add x1 y1) (SF64add x2 y2) = true.
Proof.
  intros Nx1 Ny1 Nx2 Ny2 Vx1 Vy1 Vx2 Vy2 Hx Hy.
  pose proof (SFadd_nonneg x2 y2 Nx2 Ny2) as N2.
  pose proof (SFadd_nonneg x1 y1 Nx1 Ny1) as N1.
  pose proof (SFadd_ge_l x2 y2 Nx2 Ny2 Vx2) as Gl.
  pose proof (SFadd_ge_r x2 y2 Nx2 Ny2 Vy2) as Gr.
  destruct x1 as [s1|[|]| |[|] mx1 ex1]; try contradiction.
  - (* 0 + y1 <= y1 <= y2 <= x2 + y2 *)
    apply (SFleb_trans _ y1); [assumption..|apply SFadd_zero_l, Ny1|].
    apply (SFleb_trans _ y2); assumption.
  - destruct x2 as [s2|[|]| |[|] mx2 ex2]; try contradiction; try discriminate Hx.
    rewrite !SFadd_inf_l by assumption. reflexivity.
  - destruct y1 as [t1|[|]| |[|] my1 ey1]; try contradiction.
    + (* x1 + 0 <= x1 <= x2 <= x2 + y2 *)
      apply (SFleb_trans _ (S754_finite false mx1 ex1));
        [assumption..|apply SFadd_zero_r, Nx1|].
      apply (SFleb_trans _ x2); assumption.
    + destruct y2 as [t2|[|]| |[|] my2 ey2]; try contradiction; try discriminate Hy.
      rewrite !SFadd_inf_r by assumption. reflexivity.
    + destruct x2 as [s2|[|]| |[|] mx2 ex2]; try contradiction; try discriminate Hx.
      { rewrite SFadd_inf_l by assumption. apply leb_nonneg_inf, N1. }
      destruct y2 as [t2|[|]| |[|] my2 ey2]; try contradiction; try discriminate Hy.
      { rewrite SFadd_inf_r by exact I. apply leb_nonneg_inf, N1. }
      now apply SFadd_finite_mono.
Qed.

End Sums.

(* ================================================================== *)
(** * Binary64: the cation figures of the fallback                     *)
(* ================================================================== *)

Module Release.

Import Rounding.

(** ** Sums, order and zeros of primitive floats *)

Lemma add_nonneg (x y : float) :
  nonneg (Prim2SF x) -> nonneg (Prim2SF y) -> nonneg (Prim2SF (x + y)).
Proof. rewrite add_spec. apply Sums.SFadd_nonneg. Qed.

Lemma leb_nonneg (x y : float) :
  nonneg (Prim2SF x) -> PrimFloat.leb x y = true -> nonneg (Prim2SF y).
Proof. rewrite leb_spec. apply Amounts.nonneg_above. Qed.

Lemma add_mono (x1 y1 x2 y2 : float) :
  nonneg (Prim2SF x1) -> nonneg (Prim2SF y1) ->
  PrimFloat.leb x1 x2 = true -> PrimFloat.leb y1 y2 = true ->
  PrimFloat.leb (x1 + y1) (x2 + y2) = true.
Proof.
  intros Nx Ny Hx Hy.
  pose proof (leb_nonneg _ _ Nx Hx). pose proof (leb_nonneg _ _ Ny Hy).
  rewrite leb_spec in *. rewrite !add_spec.
  apply Sums.SFadd_mono; try apply Prim2SF_valid; assumption.
Qed.

Lemma ltb_leb_trans (c x y : float) :
  nonneg (Prim2SF c) -> nonneg (Prim2SF x) ->
  PrimFloat.ltb c x = true -> PrimFloat.leb x y = true ->
  PrimFloat.ltb c y = true.
Proof.
  intros Nc Nx Hc Hx. pose proof (leb_nonneg _ _ Nx Hx).
  rewrite ltb_spec, leb_spec in *.
  now apply (Sums.SFltb_leb_trans _ (Prim2SF x)).
Qed.

(** A float above zero and below infinity. *)
Lemma finite_positive (y : float) :
  PrimFloat.ltb 0 y = true -> PrimFloat.ltb y infinity = true ->
  exists m e, Prim2SF y = S754_finite false m e.
Proof.
  rewrite !ltb_spec.
  change (Prim2SF 0) with (S754_zero false).
  change (Prim2SF infinity) with (S754_infinity false).
  destruct (Prim2SF y) as [?|[|]| |[|] m e]; try discriminate; eauto.
Qed.

Lemma div_pos_nonneg (x y : float) :
  nonneg (Prim2SF x) ->
  PrimFloat.ltb 0 y = true -> PrimFloat.ltb y infinity = true ->
  nonneg (Prim2SF (x / y)).
Proof.
  intros Nx H0 Hi. destruct (finite_positive y H0 Hi) as (m & e & E).
  rewrite div_spec, E. apply SFdiv_nonneg, Nx.
Qed.

Lemma div_pos_mono (x1 x2 y : float) :
  nonneg (Prim2SF x1) -> PrimFloat.leb x1 x2 = true ->
  PrimFloat.ltb 0 y = true -> PrimFloat.ltb y infinity = true ->
  PrimFloat.leb (x1 / y) (x2 / y) = true.
Proof.
  intros Nx Hx H0 Hi. pose proof (leb_nonneg _ _ Nx Hx).
  destruct (finite_positive y H0 Hi) as (m & e & E).
  rewrite leb_spec in *. rewrite !div_spec, E.
  apply SFdiv_mono; try apply Prim2SF_valid; assumption.
Qed.

(** A zero of either sign, through the operations of a cell. *)
Definition zero (x : float) : Prop := exists s, Prim2SF x = S754_zero s.

Lemma zero_nonneg (x : float) : zero x -> nonneg (Prim2SF x).
Proof. intros [s ->]. exact I. Qed.

Lemma zero_eqb (x : float) : zero x -> PrimFloat.eqb x 0 = true.
Proof. intros [s E]. rewrite eqb_spec, E. reflexivity. Qed.

Lemma mul_zero_r (k : float) : finite_nonneg (Prim2SF k) -> zero (k * 0).
Proof.
  unfold zero. rewrite mul_spec. change (Prim2SF 0) with (S754_zero false).
  destruct (Prim2SF k) as [s|?| |[|] m e]; try contradiction; intros _;
    eexists; reflexivity.
Qed.

Lemma mul_zero_l (x c : float) :
  zero x -> normal_posb (Prim2SF c) = true -> zero (x * c).
Proof.
  unfold zero. rewrite mul_spec. intros [s ->].
  destruct (Prim2SF c) as [?|?| |[|] m e]; try discriminate; intros _;
    eexists; reflexivity.
Qed.

Lemma div_zero_l (x y : float) :
  zero x -> PrimFloat.ltb 0 y = true -> PrimFloat.ltb y infinity = true ->
  zero (x / y).
Proof.
  unfold zero. intros [s E] H0 Hi. destruct (finite_positive y H0 Hi) as (m & e & Ey).
  rewrite div_spec, E, Ey. eexists. reflexivity.
Qed.

Lemma add_zero (x y : float) : zero x -> zero y -> zero (x + y).
Proof.
  unfold zero. rewrite add_spec. intros [s ->] [t ->].
  destruct s, t; eexists; reflexivity.
Qed.

(** ** The last cell of a cation column, in mmol/L *)

(** [c * rate * 1.0 / 1000 * 1000], as step 5 reads it off the table. *)
Definition released (c rate : float) : float :=
  (c * rate * lit 1.0 / lit 1000 * lit 1000)%py.

Lemma released_nonneg (c rate : float) :
  nonneg (Prim2SF c) -> normal_posb (Prim2SF rate) = true ->
  nonneg (Prim2SF (released c rate)).
Proof.
  intros Nc Hr. unfold released. cbn [mul div lit binary64].
  apply Amounts.mul_nonneg_l; [|vm_compute; reflexivity].
  apply Amounts.div_nonneg; [|vm_compute; reflexivity].
  apply Amounts.mul_nonneg_l; [|vm_compute; reflexivity].
  now apply Amounts.mul_nonneg_l.
Qed.

Lemma released_mono (c1 c2 rate : float) :
  nonneg (Prim2SF c1) -> PrimFloat.leb c1 c2 = true ->
  normal_posb (Prim2SF rate) = true ->
  PrimFloat.leb (released c1 rate) (released c2 rate) = true.
Proof.
  intros N1 Hle Hr. pose proof (leb_nonneg _ _ N1 Hle) as N2.
  unfold released. cbn [mul div lit binary64].
  assert (K : normal_posb (Prim2SF (B64.of_literal 1000)) = true)
    by (vm_compute; reflexivity).
  assert (U : normal_posb (Prim2SF (B64.of_literal 1.0)) = true)
    by (vm_compute; reflexivity).
  assert (A1 : nonneg (Prim2SF (c1 * rate))) by now apply Amounts.mul_nonneg_l.
  assert (A2 : nonneg (Prim2SF (c2 * rate))) by now apply Amounts.mul_nonneg_l.
  assert (B1 : nonneg (Prim2SF (c1 * rate * B64.of_literal 1.0)))
    by now apply Amounts.mul_nonneg_l.
  assert (B2 : nonneg (Prim2SF (c2 * rate * B64.of_literal 1.0)))
    by now apply Amounts.mul_nonneg_l.
  apply Amounts.mul_mono_l; [now apply Amounts.div_nonneg..|exact K|].
  apply div_mono; [exact B1|exact B2|exact K|].
  apply Amounts.mul_mono_l; [exact A1|exact A2|exact U|].
  now apply Amounts.mul_mono_l.
Qed.

End Release.

(** X16. In binary64, on the fallback the cation figures of step 5 follow
    the sample's CaO and MgO percentages (after defaulting): the total
    cation release is a number that is not negative, and of two samples
    the one with at least as much CaO and MgO has at least as large a
    calcium release, magnesium release and total.  Hence the rating
    "Cation Supply" of the report never drops when CaO or MgO go up: a
    sample rated High stays High, one rated Medium does not become Low,
    and a sample below one rated Low is rated Low. *)
Theorem fallback_cation_supply (s1 s2 : Row float) :
  Amounts.nonneg_or_missing (CaO_pct s1) ->
  Amounts.nonneg_or_missing (MgO_pct s1) ->
  (cao_pct_of s1 <=? cao_pct_of s2)%py = true ->
  (mgo_pct_of s1 <=? mgo_pct_of s2)%py = true ->
  let an1 := synthetic_analysis s1 in
  let an2 := synthetic_analysis s2 in
  step5_analyse (synthetic_results s1) = ([EvStep 5], Ok an1)
  /\ step5_analyse (synthetic_results s2) = ([EvStep 5], Ok an2)
  /\ isnan (total_cation_release an1) = false
  /\ (lit 0 <=? total_cation_release an1)%py = true
  /\ (total_ca_release an1 <=? total_ca_release an2)%py = true
  /\ (total_mg_release an1 <=? total_mg_release an2)%py = true
  /\ (total_cation_release an1 <=? total_cation_release an2)%py = true
  /\ (cation_supply an1 = "High" -> cation_supply an2 = "High")
  /\ (cation_supply an1 = "Medium" -> cation_supply an2 <> "Low")
  /\ (cation_supply an2 = "Low" -> cation_supply an1 = "Low")
  /\ (forall (env : Env float) sel cs ds,
        In ("• Cation Supply: " ++ cation_supply an1)
           (report_lines env sel an1 cs ds)).
Proof.
  intros Hca Hmg Lca Lmg an1 an2.
  assert (Nca : Rounding.nonneg (Prim2SF (cao_pct_of s1))).
  { apply Amounts.or_default_nonneg_b64; [exact Hca|vm_compute; exact I]. }
  assert (Nmg : Rounding.nonneg (Prim2SF (mgo_pct_of s1))).
  { apply Amounts.or_default_nonneg_b64; [exact Hmg|vm_compute; exact I]. }
  assert (R8 : Rounding.normal_posb (Prim2SF (lit 0.08)) = true)
    by (vm_compute; reflexivity).
  assert (R6 : Rounding.normal_posb (Prim2SF (lit 0.06)) = true)
    by (vm_compute; reflexivity).
  pose proof (Release.released_nonneg _ _ Nca R8) as Pca.
  pose proof (Release.released_nonneg _ _ Nmg R6) as Pmg.
  pose proof (Release.released_mono _ _ _ Nca Lca R8) as Mca.
  pose proof (Release.released_mono _ _ _ Nmg Lmg R6) as Mmg.
  pose proof (Release.add_nonneg _ _ Pca Pmg) as Pt.
  pose proof (Release.add_mono _ _ _ _ Pca Pmg Mca Mmg) as Mt.
  destruct (Amounts.nonneg_number _ Pt) as [Tn T0].
  split; [reflexivity|]. split; [reflexivity|].
  split; [exact Tn|]. split; [exact T0|].
  split; [exact Mca|]. split; [exact Mmg|]. split; [exact Mt|].
  assert (Hlt : forall c : float,
             Rounding.nonneg (Prim2SF c) ->
             (c <? total_cation_release an1)%py = true ->
             (c <? total_cation_release an2)%py = true).
  { intros c Nc H. exact (Release.ltb_leb_trans c _ _ Nc Pt H Mt). }
  assert (N2 : Rounding.nonneg (Prim2SF (lit 2.0))) by (vm_compute; exact I).
  assert (N1 : Rounding.nonneg (Prim2SF (lit 1.0))) by (vm_compute; exact I).
  specialize (Hlt (lit 2.0) N2) as H2. specialize (Hlt (lit 1.0) N1) as H1.
  split; [|split; [|split; [|intros env sel cs ds; apply report_figures]]];
    unfold cation_supply;
    destruct (lit 2.0 <? total_cation_release an1)%py;
    try rewrite (H2 eq_refl);
    destruct (lit 1.0 <? total_cation_release an1)%py;
    try rewrite (H1 eq_refl);
    try discriminate; trivial;
    destruct (lit 2.0 <? total_cation_release an2)%py;
    try discriminate; trivial;
    destruct (lit 1.0 <? total_cation_release an2)%py;
    try discriminate; trivial;
    intros _; discriminate.
Qed.

(* ================================================================== *)
(** * Panels 8 and 9 of the figure                                     *)
(* ================================================================== *)

Section Panels.

Context {A : Type} {num : PyFloat A}.

(** ** Panel 8: weathering efficiency *)

(** [(results_df['Ca+2'] + results_df['Mg+2']) * 1000] *)
Definition total_release (ca mg : list A) : list A :=
  map (fun x => (x * lit 1000)%py) (array_add ca mg).

(** [total_release / (cao_pct + mgo_pct) * 100] *)
Definition efficiency (ca mg : list A) (cao_pct mgo_pct : A) : list A :=
  map (fun x => (x / (cao_pct + mgo_pct) * lit 100)%py) (total_release ca mg).

(** The series panel 8 plots, if it plots one. *)
Definition panel8 (sim : Sim A) : M (option (list A)) :=
  let df := results_df sim in
  if has_column df "Ca+2" && has_column df "Mg+2" then
    ca <- getitem df "Ca+2" ;;
    mg <- getitem df "Mg+2" ;;
    match fallback_pcts sim with
    | Some (cao_pct, mgo_pct) => ret (Some (efficiency ca mg cao_pct mgo_pct))
    | None => raise (NameError "cao_pct")
    end
  else ret None.

(** ** Panel 9: rock composition *)

(** [pd.notna(v) and v > 0] *)
Definition charted (v : A) : bool := notna v && (lit 0 <? v)%py.

Definition composition_data (major_elements : list (string * A)) : list A :=
  filter charted (map snd major_elements).

Definition composition_labels (major_elements : list (string * A)) : list string :=
  map fst (filter (fun kv => charted (snd kv)) major_elements).

(** X17. The wedges of the composition chart and their labels are two
    separate selections from the major elements; they stay aligned: the
    labels and the values, paired in order, are exactly the major elements
    whose value is a number above zero.  No wedge is NaN, zero or
    negative, and no such element keeps its label. *)
Theorem pie_labels_match_wedges (major_elements : list (string * A)) :
  combine (composition_labels major_elements) (composition_data major_elements)
  = filter (fun kv => charted (snd kv)) major_elements
  /\ length (composition_labels major_elements)
     = length (composition_data major_elements)
  /\ Forall (fun v => isnan v = false /\ (lit 0 <? v)%py = true)
            (composition_data major_elements).
Proof.
  unfold composition_labels, composition_data.
  induction major_elements as [|[k v] rest (IH1 & IH2 & IH3)];
    [repeat split; constructor|].
  cbn [map filter snd fst]. destruct (charted v) eqn:Hv.
  - cbn [map combine fst length]. rewrite IH1, IH2.
    repeat split. constructor; [|exact IH3].
    unfold charted, notna in Hv. apply andb_true_iff in Hv.
    now rewrite negb_true_iff in Hv.
  - auto.
Qed.

End Panels.

(* ================================================================== *)
(** * Binary64: the efficiency series of panel 8                       *)
(* ================================================================== *)

Module Efficiency.

Import Rounding Release.

(** A denominator above zero and below infinity. *)
Definition positive_finite (d : float) : Prop :=
  PrimFloat.ltb 0 d = true /\ PrimFloat.ltb d infinity = true.

(** One cell of the series: [(a + b) * 1000 / d * 100]. *)
Definition cell (d a b : float) : float :=
  ((a + b) * lit 1000 / d * lit 100)%py.

Lemma efficiency_cells (ca mg : list float) (cao_pct mgo_pct : float) :
  efficiency ca mg cao_pct mgo_pct
  = map (fun ab => cell (cao_pct + mgo_pct)%py (fst ab) (snd ab)) (combine ca mg).
Proof.
  unfold efficiency, total_release.
  revert mg. induction ca as [|a ca IH]; intros [|b mg]; cbn; trivial.
  f_equal. apply IH.
Qed.

Lemma cell_nonneg (d a b : float) :
  positive_finite d -> nonneg (Prim2SF a) -> nonneg (Prim2SF b) ->
  nonneg (Prim2SF (cell d a b)).
Proof.
  intros [D0 Di] Na Nb. unfold cell. cbn [add mul div lit binary64].
  apply Amounts.mul_nonneg_l; [|vm_compute; reflexivity].
  apply div_pos_nonneg; [|exact D0|exact Di].
  apply Amounts.mul_nonneg_l; [|vm_compute; reflexivity].
  now apply add_nonneg.
Qed.

Lemma cell_mono (d a1 b1 a2 b2 : float) :
  positive_finite d -> nonneg (Prim2SF a1) -> nonneg (Prim2SF b1) ->
  PrimFloat.leb a1 a2 = true -> PrimFloat.leb b1 b2 = true ->
  PrimFloat.leb (cell d a1 b1) (cell d a2 b2) = true.
Proof.
  intros [D0 Di] Na Nb Ha Hb.
  pose proof (leb_nonneg _ _ Na Ha) as Na2.
  pose proof (leb_nonneg _ _ Nb Hb) as Nb2.
  assert (K : normal_posb (Prim2SF (B64.of_literal 1000)) = true)
    by (vm_compute; reflexivity).
  assert (C : normal_posb (Prim2SF (B64.of_literal 100)) = true)
    by (vm_compute; reflexivity).
  pose proof (add_nonneg _ _ Na Nb) as S1.
  pose proof (add_nonneg _ _ Na2 Nb2) as S2.
  pose proof (Amounts.mul_nonneg_l _ _ S1 K) as T1.
  pose proof (Amounts.mul_nonneg_l _ _ S2 K) as T2.
  unfold cell. cbn [add mul div lit binary64].
  apply Amounts.mul_mono_l; [now apply div_pos_nonneg..|exact C|].
  apply div_pos_mono; [exact T1| |exact D0|exact Di].
  apply Amounts.mul_mono_l; [exact S1|exact S2|exact K|].
  now apply add_mono.
Qed.

Lemma cell_zero (d a b : float) :
  positive_finite d -> zero a -> zero b -> zero (cell d a b).
Proof.
  intros [D0 Di] Za Zb. unfold cell. cbn [add mul div lit binary64].
  apply mul_zero_l; [|vm_compute; reflexivity].
  apply div_zero_l; [|exact D0|exact Di].
  apply mul_zero_l; [|vm_compute; reflexivity].
  now apply add_zero.
Qed.

(** A series that starts at a number that is not negative and never
    decreases stays there. *)
Lemma nondecreasing_nonneg (xs : list float) :
  nonneg (Prim2SF (hd 0%float xs)) -> nondecreasing xs = true ->
  Forall (fun x => nonneg (Prim2SF x)) xs.
Proof.
  induction xs as [|x [|y rest] IH]; intros H0 Hs; [constructor| |].
  - constructor; [exact H0|constructor].
  - cbn [nondecreasing] in Hs. apply andb_true_iff in Hs. destruct Hs as [Hxy Hs].
    constructor; [exact H0|]. apply IH; [|exact Hs].
    exact (leb_nonneg _ _ H0 Hxy).
Qed.

(** Cell by cell, two series that never decrease give one that never
    decreases. *)
Lemma cells_nondecreasing (d : float) (ca mg : list float) :
  positive_finite d ->
  Forall (fun x => nonneg (Prim2SF x)) ca ->
  Forall (fun x => nonneg (Prim2SF x)) mg ->
  nondecreasing ca = true -> nondecreasing mg = true ->
  nondecreasing (map (fun ab => cell d (fst ab) (snd ab)) (combine ca mg)) = true
  /\ Forall (fun x => nonneg (Prim2SF x))
            (map (fun ab => cell d (fst ab) (snd ab)) (combine ca mg)).
Proof.
  intros Hd. revert mg.
  induction ca as [|a ca IH]; intros mg Fa Fb Sa Sb.
  { split; [reflexivity|constructor]. }
  destruct mg as [|b mg]; [split; [reflexivity|constructor]|].
  inversion Fa as [|? ? Na Fa']; inversion Fb as [|? ? Nb Fb']; subst.
  assert (Sa' : nondecreasing ca = true).
  { destruct ca; [reflexivity|]. cbn [nondecreasing] in Sa.
    now apply andb_true_iff in Sa. }
  assert (Sb' : nondecreasing mg = true).
  { destruct mg; [reflexivity|]. cbn [nondecreasing] in Sb.
    now apply andb_true_iff in Sb. }
  destruct (IH mg Fa' Fb' Sa' Sb') as [IH1 IH2].
  cbn [combine map fst snd].
  split; [|constructor; [now apply cell_nonneg|exact IH2]].
  destruct ca as [|a' ca], mg as [|b' mg]; try reflexivity.
  cbn [combine map fst snd nondecreasing] in *.
  apply andb_true_iff in Sa, Sb. destruct Sa as [Ha _]. destruct Sb as [Hb _].
  rewrite IH1, andb_true_r. now apply cell_mono.
Qed.

(** The head of a cation column of the synthetic table is a zero. *)
Lemma column_head_zero (c rate p : float) :
  finite_nonneg (Prim2SF c) -> small_factorb (Prim2SF rate) = true ->
  zero p -> zero (c * rate * p / lit 1000)%py.
Proof.
  intros Hc Hr Zp. cbn [mul div lit binary64].
  apply div_zero_l; [|vm_compute; reflexivity..].
  destruct Zp as [s Ep]. unfold zero. rewrite mul_spec, Ep.
  pose proof (mul_finite_nonneg c rate Hc Hr) as F.
  destruct (Prim2SF (c * rate)) as [t|?| |[|] m e]; try contradiction;
    eexists; reflexivity.
Qed.

End Efficiency.

(** X18. Panel 8 plots, for each row, the calcium and magnesium released
    as a percentage of the sample's CaO and MgO.  In binary64, on the
    synthetic table of a sample whose CaO and MgO cells are empty or
    finite and not negative, with a sum above zero and below infinity,
    the panel plots seven numbers: the series starts at zero, never
    decreases and holds no NaN and no negative value.  On a table of the
    engine the panel fails on the unbound name [cao_pct]; on a table that
    lacks one of the two columns nothing is plotted. *)
Theorem fallback_efficiency_rises_from_zero :
  (forall s : Row float,
      B64Facts.finite_or_missing (CaO_pct s) ->
      B64Facts.finite_or_missing (MgO_pct s) ->
      (lit 0 <? cao_pct_of s + mgo_pct_of s)%py = true ->
      (cao_pct_of s + mgo_pct_of s <? PrimFloat.infinity)%py = true ->
      exists series,
        panel8 (synthetic_sim s) = ret (Some series)
        /\ length series = 7
        /\ (hd nan series =? lit 0)%py = true
        /\ nondecreasing series = true
        /\ Forall (fun e => isnan e = false /\ (lit 0 <=? e)%py = true) series)
  /\ (forall {A} {num : PyFloat A} (sim : Sim A),
        rows (results_df sim) <> [] ->
        has_column (results_df sim) "Ca+2" = true ->
        has_column (results_df sim) "Mg+2" = true ->
        fallback_pcts sim = None ->
        panel8 sim = raise (NameError "cao_pct"))
  /\ (forall {A} {num : PyFloat A} (sim : Sim A),
        has_column (results_df sim) "Ca+2" = false
        \/ has_column (results_df sim) "Mg+2" = false ->
        panel8 sim = ret None).
Proof.
  split; [|split].
  - intros s Hca Hmg D0 Di.
    assert (Fca : Rounding.finite_nonneg (Prim2SF (cao_pct_of s))).
    { apply B64Facts.or_default_finite; [exact Hca|vm_compute; exact I]. }
    assert (Fmg : Rounding.finite_nonneg (Prim2SF (mgo_pct_of s))).
    { apply B64Facts.or_default_finite; [exact Hmg|vm_compute; exact I]. }
    assert (Hd : Efficiency.positive_finite (cao_pct_of s + mgo_pct_of s)%py)
      by (split; assumption).
    set (ca := per_thousand (ca_values (cao_pct_of s))).
    set (mg := per_thousand (mg_values (mgo_pct_of s))).
    assert (Zca : Release.zero (hd PrimFloat.zero ca)).
    { apply Efficiency.column_head_zero;
        [exact Fca|vm_compute; reflexivity|exists false; vm_compute; reflexivity]. }
    assert (Zmg : Release.zero (hd PrimFloat.zero mg)).
    { apply Efficiency.column_head_zero;
        [exact Fmg|vm_compute; reflexivity|exists false; vm_compute; reflexivity]. }
    assert (Sca : nondecreasing ca = true) by now apply B64Facts.ca_nondecreasing_b64.
    assert (Smg : nondecreasing mg = true) by now apply B64Facts.mg_nondecreasing_b64.
    pose proof (Efficiency.nondecreasing_nonneg ca (Release.zero_nonneg _ Zca) Sca) as Nca.
    pose proof (Efficiency.nondecreasing_nonneg mg (Release.zero_nonneg _ Zmg) Smg) as Nmg.
    destruct (Efficiency.cells_nondecreasing _ ca mg Hd Nca Nmg Sca Smg) as [S N].
    exists (efficiency ca mg (cao_pct_of s) (mgo_pct_of s)).
    split; [reflexivity|]. rewrite Efficiency.efficiency_cells.
    split; [reflexivity|]. split; [|split; [exact S|]].
    + apply Release.zero_eqb. now apply Efficiency.cell_zero.
    + eapply Forall_impl; [|exact N]. intros e. apply Amounts.nonneg_number.
  - intros A num sim Hrows Hca Hmg Hnone. unfold panel8.
    rewrite Hca, Hmg. cbn [andb].
    destruct (getitem_present _ _ Hca Hrows) as (ca & -> & _).
    destruct (getitem_present _ _ Hmg Hrows) as (mg & -> & _).
    rewrite !bind_ret, Hnone. reflexivity.
  - intros A num sim [H|H]; unfold panel8; rewrite H, ?andb_false_r; reflexivity.
Qed.

(* ================================================================== *)
(** * The closing summary                                              *)
(* ================================================================== *)

Section Summary.

Context {A : Type} {num : PyFloat A}.
Implicit Types (env : Env A).

(** The five lines under the heading of the completion summary, as
    functions of the names they read: [majors] and [use_synthetic]. *)
Definition completion_summary (majors : list (Row A)) (use_synthetic : bool)
  : list string :=
  [ "✅ Data Processing: " ++ Fmt.commas (length majors) ++ " samples analyzed";
    "✅ Geochemical Modeling: "
      ++ (if negb use_synthetic then "PHREEQC simulation" else "Synthetic modeling");
    "✅ Visualization: 9-panel advanced analysis suite";
    "✅ Technical Report: Comprehensive documentation";
    "✅ Quality Control: Multi-database validation" ].

(** Step 8 with what it prints first: the completion summary, from
    [majors] and [use_synthetic] as they are bound when the step begins. *)
Definition step8_printed (majors : list (Row A)) (use_synthetic : bool)
           (an : Analysis A) : M (list string) :=
  emit (EvStep 8) ;;;
  let printed := completion_summary majors use_synthetic in
  cs <- bound "final_calcite_si" (final_calcite_si an) ;;
  ret printed.

(** The script with the summary it prints as its value: the same eight
    steps, the names of steps 1 and 2 carried to step 8. *)
Definition script_printed (env : Env A) : M (list string) :=
  majors <- step1_load env ;;
  use_synthetic <- step2_init env ;;
  sel <- step3_select majors ;;
  sim <- step4_simulate env use_synthetic (sample sel) ;;
  an <- step5_analyse (results_df sim) ;;
  step6_visualise env sim ;;;
  step7_report env sel an ;;;
  step8_printed majors use_synthetic an.

(** Forgetting the value of a computation. *)
Definition forget {X} (m : M X) : M unit :=
  (fst m, match snd m with Ok _ => Ok tt | Exit c => Exit c | Raise e => Raise e end).

Lemma forget_bind {X Y} (m : M X) (k : X -> M Y) (k' : X -> M unit) :
  (forall x, forget (k x) = k' x) -> forget (bind m k) = bind m k'.
Proof.
  intros Hk. destruct m as [es [x|c|e]]; cbn; try reflexivity.
  rewrite <- Hk. unfold forget. destruct (k x) as [es' r]. reflexivity.
Qed.

Lemma bind_assoc {X Y Z} (m : M X) (f : X -> M Y) (g : Y -> M Z) :
  bind (bind m f) g = bind m (fun x => bind (f x) g).
Proof.
  destruct m as [es [x|c|e]]; cbn; try reflexivity.
  destruct (f x) as [es' [y|c|e]]; cbn; try reflexivity.
  destruct (g y) as [es'' r]. now rewrite app_assoc.
Qed.

Lemma step8_printed_forget (majors : list (Row A)) (b : bool) (an : Analysis A) :
  forget (step8_printed majors b an) = step8_summary an.
Proof.
  unfold step8_printed, step8_summary.
  destruct (final_calcite_si an); reflexivity.
Qed.

(** The script that returns its summary is the script: same events, same
    end. *)
Lemma script_printed_run env : forget (script_printed env) = run env.
Proof.
  unfold run, script, simulate, script_printed.
  rewrite bind_assoc. apply forget_bind. intros majors.
  rewrite bind_assoc. apply forget_bind. intros use_synthetic.
  rewrite bind_assoc. apply forget_bind. intros sel.
  rewrite bind_assoc. apply forget_bind. intros sim.
  rewrite bind_ret. unfold publish. cbn [fst snd].
  apply forget_bind. intros an.
  apply forget_bind. intros _.
  apply forget_bind. intros _.
  apply step8_printed_forget.
Qed.

(** What the script has printed as its summary when it ends normally. *)
Lemma script_printed_value env printed :
  snd (script_printed env) = Ok printed ->
  exists majors,
    fs_majors env = Some majors
    /\ printed = completion_summary majors (synthetic_mode env).
Proof.
  intros H. unfold script_printed in H.
  apply bind_ok_inv in H. destruct H as (majors & H1 & H).
  apply bind_ok_inv in H. destruct H as (b & H2 & H).
  apply bind_ok_inv in H. destruct H as (sel & _ & H).
  apply bind_ok_inv in H. destruct H as (sim & _ & H).
  apply bind_ok_inv in H. destruct H as (an & _ & H).
  apply bind_ok_inv in H. destruct H as (? & _ & H).
  apply bind_ok_inv in H. destruct H as (? & _ & H).
  unfold step8_printed in H. rewrite bind_emit in H. cbn [snd] in H.
  apply bind_ok_inv in H. destruct H as (cs & _ & H).
  injection H as <-.
  rewrite step1_load_eq in H1. rewrite step2_init_eq in H2.
  destruct (fs_majors env) as [majors'|]; [|discriminate H1].
  injection H1 as ->. injection H2 as <-.
  exists majors. split; reflexivity.
Qed.

(** X19. The closing summary names the modelling method from
    [use_synthetic] alone, the flag step 2 sets; step 4 does not update
    it.  So a run in which the engine was initialised with a database but
    gave no usable table computes everything from the synthetic table,
    ends normally, and has printed [Geochemical Modeling: PHREEQC
    simulation]. *)
Theorem summary_names_engine_on_synthetic_results env es (sel : Selection A)
        (sim : Sim A) :
  simulate env = (es, Ok (sel, sim)) ->
  synthetic_mode env = false ->
  fallback_pcts sim <> None ->
  fs_write_ok env = true ->
  results_df sim = synthetic_results (sample sel)
  /\ In EvSynthetic (fst (run env))
  /\ snd (run env) = Ok tt
  /\ fst (script_printed env) = fst (run env)
  /\ exists printed,
       snd (script_printed env) = Ok printed
       /\ In "✅ Geochemical Modeling: PHREEQC simulation" printed
       /\ ~ In "✅ Geochemical Modeling: Synthetic modeling" printed.
Proof.
  intros Hsim Hmode Hp Hw.
  pose proof (fallback_is_synthetic _ _ _ _ Hsim Hp) as E. rewrite E in *.
  destruct (run_on_synthetic _ _ _ Hsim) as (_ & Hout & _). rewrite Hw in Hout.
  split; [reflexivity|]. split; [|split; [exact Hout|]].
  { rewrite (run_after_simulate _ _ _ Hsim). cbn [fst]. apply in_or_app. left.
    revert Hsim. rewrite simulate_eq.
    destruct (fs_majors env) as [majors|]; [|discriminate].
    destruct (dropna majors) as [|s rest]; [discriminate|].
    rewrite step4_simulate_eq, Hmode.
    destruct (engine_table env s); cbn [fst snd]; intros H;
      [apply (f_equal (fun r => match snd r with
                                | Ok st => fallback_pcts (snd st)
                                | _ => None
                                end)) in H; discriminate H|].
    apply (f_equal fst) in H. cbn [fst] in H. rewrite <- H.
    repeat (apply in_or_app; right). cbn. auto. }
  pose proof (script_printed_run env) as R.
  split; [exact (f_equal fst R)|].
  apply (f_equal snd) in R. unfold forget in R. cbn [snd] in R.
  destruct (snd (script_printed env)) as [printed|c|e] eqn:P;
    rewrite Hout in R; try discriminate R.
  exists printed. split; [reflexivity|].
  destruct (script_printed_value _ _ P) as (majors & _ & ->).
  rewrite Hmode. split.
  - right. left. reflexivity.
  - cbn. intros [H|[H|[H|[H|[H|[]]]]]]; discriminate H.
Qed.

End Summary.

(* ================================================================== *)
(** * The carbon figures of step 5                                     *)
(* ================================================================== *)

Section Carbon.

Context {A : Type} {num : PyFloat A}.

Lemma column_absent (df : Frame A) name :
  has_column df name = false -> column nan df name = None.
Proof.
  unfold has_column, column. intros H. now rewrite (index_of_absent _ _ H).
Qed.

Lemma column_present (df : Frame A) name :
  has_column df name = true -> rows df <> [] ->
  exists c, column nan df name = Some c /\ c <> [].
Proof.
  unfold has_column, column. intros H Hrows.
  destruct (index_of_present _ _ H) as [i ->]. cbn [option_map].
  eexists. split; [reflexivity|].
  destruct (rows df); [congruence|discriminate].
Qed.

Lemma getitem_column (df : Frame A) name c :
  column nan df name = Some c -> getitem df name = ret c.
Proof. unfold getitem. now intros ->. Qed.

(** X20. Step 5 takes both carbon figures from the column HCO3-: when the
    table has no such column the CO2 sequestration and the alkalinity are
    both reported as 0, even if the table has a column Alk; when it has
    one, the CO2 figure is the last HCO3- value times 1000 times 44, and
    the alkalinity is the last Alk value times 1000, or the last HCO3-
    value times 1000 when there is no column Alk. *)
Theorem carbon_figures_need_bicarbonate (df : Frame A) (an : Analysis A) :
  has_dup (columns df) = false ->
  rows df <> [] ->
  snd (step5_analyse df) = Ok an ->
  (has_column df "HCO3-" = false ->
     co2_sequestration an = lit 0 /\ alkalinity_generated an = lit 0)
  /\ (forall h,
        column nan df "HCO3-" = Some h ->
        co2_sequestration an = (last h nan * lit 1000 * lit 44)%py
        /\ (has_column df "Alk" = false ->
            alkalinity_generated an = (last h nan * lit 1000)%py)
        /\ (forall a, column nan df "Alk" = Some a ->
                      alkalinity_generated an = (last a nan * lit 1000)%py)).
Proof.
  intros _ Hrows. unfold step5_analyse. rewrite bind_emit. cbn [snd].
  destruct (has_column df "pH") eqn:HpH;
    [|rewrite (getitem_absent _ _ HpH); discriminate].
  destruct (getitem_present _ _ HpH Hrows) as (pH & -> & HpH').
  rewrite bind_ret, (iloc_first_ret _ HpH'), bind_ret,
    (iloc_last_ret _ HpH'), bind_ret.
  destruct (has_column df "Ca+2") eqn:Hca;
    [|rewrite (getitem_absent _ _ Hca); discriminate].
  destruct (getitem_present _ _ Hca Hrows) as (ca & -> & Hca').
  rewrite bind_ret, (iloc_last_ret _ Hca'), bind_ret.
  destruct (has_column df "Mg+2") eqn:Hmg;
    [|rewrite (getitem_absent _ _ Hmg); discriminate].
  destruct (getitem_present _ _ Hmg Hrows) as (mg & -> & Hmg').
  rewrite bind_ret, (iloc_last_ret _ Hmg'), bind_ret.
  assert (Hcarbon :
            (if has_column df "HCO3-" then
               hco3 <- getitem df "HCO3-" ;;
               hco3_last <- iloc_last hco3 ;;
               alk <- (if has_column df "Alk" then getitem df "Alk" else ret hco3) ;;
               alk_last <- iloc_last alk ;;
               ret ((hco3_last * lit 1000 * lit 44)%py, (alk_last * lit 1000)%py)
             else ret (lit 0, lit 0))
            = ret match column nan df "HCO3-" with
                  | None => (lit 0, lit 0)
                  | Some h =>
                      ((last h nan * lit 1000 * lit 44)%py,
                       match column nan df "Alk" with
                       | Some a => (last a nan * lit 1000)%py
                       | None => (last h nan * lit 1000)%py
                       end)
                  end).
  { destruct (has_column df "HCO3-") eqn:Hh;
      [|now rewrite (column_absent _ _ Hh)].
    destruct (column_present _ _ Hh Hrows) as (h & Ch & Hh').
    rewrite Ch, (getitem_column _ _ _ Ch), bind_ret, (iloc_last_ret _ Hh'), bind_ret.
    destruct (has_column df "Alk") eqn:Ha.
    - destruct (column_present _ _ Ha Hrows) as (a & Ca & Ha').
      rewrite Ca, (getitem_column _ _ _ Ca), bind_ret, (iloc_last_ret _ Ha'), bind_ret.
      reflexivity.
    - rewrite (column_absent _ _ Ha), bind_ret, (iloc_last_ret _ Hh'), bind_ret.
      reflexivity. }
  rewrite Hcarbon, bind_ret. clear Hcarbon.
  set (carbon := match column nan df "HCO3-" with
                 | None => (lit 0, lit 0)
                 | Some h => _
                 end).
  assert (Hfields : forall an', snd
            (si <- (if has_column df "si_Calcite"
                    then calcite <- getitem df "si_Calcite";;
                         final_calcite_si <- iloc_last calcite;;
                         dolomite <- getitem df "si_Dolomite";;
                         final_dolomite_si <- iloc_last dolomite;;
                         ret (Some final_calcite_si, Some final_dolomite_si)
                    else ret (None, None)) ;;
             ret (mkAnalysis (hd nan pH) (last pH nan) (last pH nan - hd nan pH)%py
                    (last ca nan * lit 1000)%py (last mg nan * lit 1000)%py
                    (last ca nan * lit 1000 + last mg nan * lit 1000)%py
                    (fst carbon) (snd carbon) (fst si) (snd si))) = Ok an' ->
            co2_sequestration an' = fst carbon
            /\ alkalinity_generated an' = snd carbon).
  { intros an' H. apply bind_ok_inv in H. destruct H as (si & _ & H).
    injection H as <-. split; reflexivity. }
  intros H. destruct (Hfields _ H) as [-> ->]. clear H Hfields.
  unfold carbon. split.
  - intros Hh. rewrite (column_absent _ _ Hh). split; reflexivity.
  - intros h ->. split; [reflexivity|]. split.
    + intros Ha. now rewrite (column_absent _ _ Ha).
    + intros a ->. reflexivity.
Qed.

End Carbon.

(* ================================================================== *)
(** * Failures of the plotting library                                 *)
(* ================================================================== *)

Section Plotting.

Context {A : Type} {num : PyFloat A}.
Implicit Types (env : Env A).

(** The same world with other answers of the plotting library. *)
Definition with_plotting env (drawing saving : bool) : Env A :=
  mkEnv (fs_majors env) (fs_mineralogy env) (fs_trace env) (engine_new env)
        (engine_load_database env) (package_database env) (engine_run env)
        (parse_number env) drawing saving (fs_write_ok env) (clock env).

(** A trace without its [savefig] events. *)
Definition without_savefig (es : list event) : list event :=
  filter (fun e => match e with EvSaveFig _ => false | _ => true end) es.

Lemma without_savefig_app es1 es2 :
  without_savefig (es1 ++ es2) = (without_savefig es1 ++ without_savefig es2)%list.
Proof. apply filter_app. Qed.

Lemma without_savefig_figure env (sim : Sim A) :
  without_savefig (figure_events env sim) = [].
Proof. unfold figure_events. destruct (reaches_savefig env sim); reflexivity. Qed.

Lemma without_savefig_step (n : nat) es :
  without_savefig (EvStep n :: es) = EvStep n :: without_savefig es.
Proof. reflexivity. Qed.

Lemma publish_without_savefig env (st : Selection A * Sim A) drawing saving :
  without_savefig (fst (publish (with_plotting env drawing saving) st))
  = without_savefig (fst (publish env st))
  /\ snd (publish (with_plotting env drawing saving) st) = snd (publish env st).
Proof.
  destruct st as [sel sim]. rewrite !publish_eq.
  destruct (snd (step5_analyse (results_df sim))) as [an|c|e];
    [|split; reflexivity..].
  change (fs_write_ok (with_plotting env drawing saving)) with (fs_write_ok env).
  change (report_text (with_plotting env drawing saving)) with (report_text env).
  destruct (final_calcite_si an), (final_dolomite_si an), (fs_write_ok env);
    cbn [fst snd];
    rewrite !without_savefig_step, !without_savefig_app, !without_savefig_figure;
    split; reflexivity.
Qed.

(** X21. A failure of the plotting library is contained in step 6:
    whether the drawing calls and [savefig] return changes neither how a
    run ends nor anything it does apart from saving the figure; in
    particular the report is written with the same content. *)
Theorem plotting_failures_are_contained env (drawing saving : bool) :
  snd (run (with_plotting env drawing saving)) = snd (run env)
  /\ without_savefig (fst (run (with_plotting env drawing saving)))
     = without_savefig (fst (run env)).
Proof.
  assert (Hsim : simulate (with_plotting env drawing saving) = simulate env).
  { destruct env as [majors m t new load pkg eng parse plot save write now].
    unfold with_plotting. cbn [fs_majors fs_mineralogy fs_trace
      engine_new engine_load_database package_database engine_run parse_number
      fs_write_ok clock].
    rewrite !simulate_eq. cbn [fs_majors].
    destruct majors as [rows|]; [|reflexivity].
    destruct (dropna rows) as [|s rest]; reflexivity. }
  unfold run, script. rewrite Hsim.
  destruct (simulate env) as [es [st|c|e]]; [|split; reflexivity..].
  rewrite !bind_pair.
  destruct (publish_without_savefig env st drawing saving) as [Hes Hr].
  cbn [fst snd]. rewrite !without_savefig_app, Hes, Hr. split; reflexivity.
Qed.

End Plotting.

(* ================================================================== *)
(** * Panel 7: cumulative release                                      *)
(* ================================================================== *)

Section Cumulative.

Context {A : Type} {num : PyFloat A}.

(** [np.cumsum] of an array: each cell added to the sum of those before
    it, from left to right. *)
Fixpoint cumsum_from (acc : A) (xs : list A) : list A :=
  match xs with
  | [] => []
  | x :: xs' => (acc + x)%py :: cumsum_from (acc + x)%py xs'
  end.

Definition cumsum (xs : list A) : list A :=
  match xs with
  | [] => []
  | x :: xs' => x :: cumsum_from x xs'
  end.

(** [np.cumsum] of a column of the table.  The column is a pandas Series,
    so the call is answered by [Series.cumsum] with [skipna=True]: missing
    cells are summed as 0.0 and set to NaN in the result. *)
Definition fill_missing (xs : list A) : list A :=
  map (fun x => if isnan x then lit 0.0 else x) xs.

Fixpoint mask_missing (xs sums : list A) : list A :=
  match xs, sums with
  | x :: xs', r :: sums' => (if isnan x then nan else r) :: mask_missing xs' sums'
  | _, _ => []
  end.

Definition series_cumsum (xs : list A) : list A :=
  mask_missing xs (cumsum (fill_missing xs)).

(** [np.cumsum(results_df[name]*1000) if name in results_df.columns else
    np.zeros(len(results_df))] *)
Definition cumulative (df : Frame A) (name : string) : M (list A) :=
  if has_column df name then
    c <- getitem df name ;;
    ret (series_cumsum (map (fun x => (x * lit 1000)%py) c))
  else ret (repeat (lit 0) (length (rows df))).

Lemma length_cumsum_from (acc : A) xs : length (cumsum_from acc xs) = length xs.
Proof. revert acc. induction xs as [|x xs IH]; intros acc; cbn; auto. Qed.

Lemma length_cumsum xs : length (cumsum xs) = length xs.
Proof. destruct xs; cbn; [reflexivity|]. now rewrite length_cumsum_from. Qed.

Lemma length_mask_missing xs sums :
  length sums = length xs -> length (mask_missing xs sums) = length xs.
Proof.
  revert sums. induction xs as [|x xs IH]; intros [|r sums]; cbn;
    try discriminate; auto.
Qed.

Lemma length_series_cumsum xs : length (series_cumsum xs) = length xs.
Proof.
  unfold series_cumsum, fill_missing. apply length_mask_missing.
  now rewrite length_cumsum, length_map.
Qed.

(** A column without missing cells is summed as an array is. *)
Lemma mask_missing_none xs sums :
  forallb (fun x => negb (isnan x)) xs = true -> length sums = length xs ->
  mask_missing xs sums = sums.
Proof.
  revert sums. induction xs as [|x xs IH]; intros [|r sums]; cbn;
    try discriminate; trivial.
  rewrite andb_true_iff, negb_true_iff. intros [-> Hxs] [= Hlen].
  now rewrite IH.
Qed.

Lemma fill_missing_none xs :
  forallb (fun x => negb (isnan x)) xs = true -> fill_missing xs = xs.
Proof.
  unfold fill_missing. induction xs as [|x xs IH]; cbn; trivial.
  rewrite andb_true_iff, negb_true_iff. intros [-> Hxs]. now rewrite IH.
Qed.

(** What a missing cell does to the sums: its own cell is NaN, every cell
    at another place is what it would be with 0.0 in its stead. *)
Lemma mask_missing_nth xs sums i x :
  nth_error xs i = Some x -> length sums = length xs ->
  nth_error (mask_missing xs sums) i
  = if isnan x then Some nan else nth_error sums i.
Proof.
  revert sums i. induction xs as [|y xs IH]; intros [|r sums] [|i]; cbn;
    try discriminate.
  - intros [= ->] _. now destruct (isnan x).
  - intros Hx [= Hlen]. now apply IH.
Qed.

(** X22. Each of the two cumulative series of panel 7 has exactly one
    value for every row of the table, whether or not the table has the
    column: a missing column gives a series of zeros of that length, so
    the bands of the chart are always drawn over arrays of the length of
    the index, and the panel never fails on a missing cation column.  A
    missing cell of the column is NaN in the series and counts as zero in
    the cells after it; a column without missing cells is summed from
    left to right. *)
Theorem cumulative_series_fit_the_index (df : Frame A) (name : string) :
  exists c,
    cumulative df name = ret c
    /\ length c = length (rows df)
    /\ (has_column df name = false -> c = repeat (lit 0) (length (rows df)))
    /\ (forall col, column nan df name = Some col ->
          let scaled := map (fun x => (x * lit 1000)%py) col in
          c = series_cumsum scaled
          /\ (forall i x, nth_error scaled i = Some x ->
                nth_error c i
                = if isnan x then Some nan
                  else nth_error (cumsum (fill_missing scaled)) i)
          /\ (forallb (fun x => negb (isnan x)) scaled = true ->
                c = cumsum scaled)).
Proof.
  unfold cumulative, getitem.
  destruct (has_column df name) eqn:H.
  - unfold has_column in H. destruct (index_of_present _ _ H) as [i Hi].
    unfold column. rewrite Hi. cbn [option_map]. rewrite bind_ret.
    eexists. split; [reflexivity|]. split; [|split].
    + now rewrite length_series_cumsum, !length_map.
    + discriminate.
    + intros col [= <-]. cbv zeta. split; [reflexivity|]. split.
      * intros k x Hk. unfold series_cumsum. apply mask_missing_nth; [exact Hk|].
        unfold fill_missing. now rewrite length_cumsum, length_map.
      * intros Hall. unfold series_cumsum.
        rewrite (fill_missing_none _ Hall).
        apply mask_missing_none; [exact Hall|apply length_cumsum].
  - eexists. split; [reflexivity|]. split; [apply repeat_length|]. split.
    + reflexivity.
    + intros col Hc. now rewrite (column_absent _ _ H) in Hc.
Qed.

End Cumulative.

(* ================================================================== *)
(** * More concrete worlds                                             *)
(* ================================================================== *)

Module Worlds.

(** The engine is created and loads a database, but the run raises. *)
Definition engine_without_answer : Env float :=
  mkEnv (Some [Examples.basalt]) true true true
        (fun p => String.eqb p "phreeqc.dat") Examples.package_db
        (fun _ => None) (fun _ => None) true true true Examples.timestamp.

(** A selected output whose pH entries cannot be read as numbers. *)
Definition unreadable_pH : Frame float :=
  coerced_output engine_without_answer
    ["pH"; "Ca+2"; "Mg+2"; "si_Calcite"; "si_Dolomite"]
    [ [PyStr "n/a"; PyNum (lit 0); PyNum (lit 0); PyNum (lit (-2.8));
       PyNum (lit (-3.5))];
      [PyStr "n/a"; PyNum (lit 0.0007); PyNum (lit 0.0004); PyNum (lit 1.1);
       PyNum (lit 1.0)] ].

(** The table of [Examples.output_without_si]. *)
Definition without_si : Frame float :=
  mkFrame ["pH"; "Ca+2"; "Mg+2"; "HCO3-"]
          [ [lit 5.6; lit 0; lit 0; lit 0.00005];
            [lit 7.9; lit 0.0007; lit 0.0004; lit 0.005] ].

(** The basalt sample under another rock type and without its Al2O3. *)
Definition basalt_unlabelled : Row float :=
  mkRow "AK-0417" None
        (lit 49.5) (lit 9.8) (lit 7.2) (lit 2.6) (lit 0.9) (lit 11.3) nan.

End Worlds.

(* ================================================================== *)
(** * Instances of the further properties                              *)
(* ================================================================== *)

(** X4 at an engine that answers with two rows under four headings. *)
Lemma engine_table_used_example :
  snd (step4_simulate
         (Examples.with_engine [Examples.basalt] Examples.output_without_si)
         (synthetic_mode
            (Examples.with_engine [Examples.basalt] Examples.output_without_si))
         Examples.basalt)
  = Ok (mkSim Worlds.without_si None).
Proof.
  destruct (engine_table_used_exactly_when
              (Examples.with_engine [Examples.basalt] Examples.output_without_si)
              Examples.basalt) as [Hused _].
  exact (proj1 (Hused ["pH"; "Ca+2"; "Mg+2"; "HCO3-"]
                  [ [PyNum (lit 5.6); PyNum (lit 0); PyNum (lit 0);
                     PyNum (lit 0.00005)];
                    [PyNum (lit 7.9); PyNum (lit 0.0007); PyNum (lit 0.0004);
                     PyNum (lit 0.005)] ]
                  eq_refl eq_refl eq_refl ltac:(discriminate) eq_refl eq_refl)).
Defined.

(** X8 and X9 at the row without a CaO value and the basalt sample. *)
Lemma mineral_amounts_example :
  isnan (anorthite (mineral_moles_of (oxides_of Examples.partial))) = false
  /\ (lit 0 <=? anorthite (mineral_moles_of (oxides_of Examples.partial)))%py = true.
Proof.
  destruct (mineral_amounts_are_numbers Examples.partial) as (_ & Hca & _).
  apply Hca. left. reflexivity.
Defined.

Lemma mineral_amounts_order_example :
  (forsterite (mineral_moles_of (oxides_of Examples.granite))
   <=? forsterite (mineral_moles_of (oxides_of Examples.basalt)))%py = true.
Proof.
  destruct (mineral_amounts_follow_oxides Examples.granite Examples.basalt)
    as (_ & _ & Hmg & _).
  apply Hmg; reflexivity.
Defined.

(** X10 at a world without engine. *)
Lemma fallback_report_headlines_example :
  exists content lines,
    In (EvWriteFile report_path content)
       (fst (run (Examples.no_engine (Some [Examples.partial; Examples.basalt]))))
    /\ content = String.concat nl lines
    /\ In "• CO₂ Sequestration Potential: 228.8 mg CO₂/L" lines
    /\ In "• pH Buffering: Excellent" lines.
Proof.
  assert (H : exists es sel sim content,
             simulate (Examples.no_engine (Some [Examples.partial; Examples.basalt]))
             = (es, Ok (sel, sim))
             /\ fallback_pcts sim <> None
             /\ nth_error
                  (fst (run (Examples.no_engine
                               (Some [Examples.partial; Examples.basalt])))) 13
                = Some (EvWriteFile report_path content)).
  { vm_compute. eexists _, _, _, _. split; [reflexivity|].
    split; [discriminate|reflexivity]. }
  destruct H as (es & sel & sim & content & Hsim & Hp & Hnth).
  apply nth_error_In in Hnth.
  destruct (fallback_report_headlines _ es sel sim content Hsim Hp Hnth)
    as (lines & E & _ & H2 & _ & _ & _ & H6 & _).
  exists content, lines. auto.
Defined.

(** X11 at a table whose pH column could not be read. *)
Lemma unreadable_pH_is_rated_moderate :
  exists an,
    snd (step5_analyse Worlds.unreadable_pH) = Ok an
    /\ isnan (pH_change an) = true
    /\ forall env sel cs ds,
         In "• pH Buffering: Moderate" (report_lines env sel an cs ds).
Proof.
  assert (H : exists an, snd (step5_analyse Worlds.unreadable_pH) = Ok an
                         /\ isnan (pH_change an) = true).
  { vm_compute. eexists. split; reflexivity. }
  destruct H as (an & H5 & Hnan).
  exists an. split; [exact H5|]. split; [exact Hnan|].
  intros env sel cs ds.
  destruct (missing_values_get_the_lowest_rating env sel an cs ds) as [H _].
  exact (proj1 (H Hnan)).
Defined.

(** X12, X14 at a world without engine: the sample is the basalt row. *)
Lemma total_oxides_example :
  exists es sel sim,
    simulate (Examples.no_engine (Some [Examples.partial; Examples.basalt]))
    = (es, Ok (sel, sim))
    /\ total_oxides sel
       = (lit 0 + lit 49.5 + lit 9.8 + lit 7.2 + lit 2.6 + lit 0.9 + lit 11.3
          + lit 14.1)%py.
Proof.
  assert (H : exists es sel sim,
             simulate (Examples.no_engine (Some [Examples.partial; Examples.basalt]))
             = (es, Ok (sel, sim)) /\ sample sel = Examples.basalt).
  { vm_compute. eexists _, _, _. split; reflexivity. }
  destruct H as (es & sel & sim & Hsim & Hs).
  exists es, sel, sim. split; [exact Hsim|].
  rewrite (total_oxides_skips_missing_alumina _ es sel sim Hsim), Hs.
  reflexivity.
Defined.

Lemma report_oxide_lines_example :
  exists es sel sim,
    simulate (Examples.no_engine (Some [Worlds.basalt_unlabelled]))
    = (es, Ok (sel, sim))
    /\ fmt_f 2 (CaO_pct (sample sel)) <> "nan"
    /\ forall an cs ds,
         In "• Al₂O₃ (Alumina): nan%"
            (report_lines (Examples.no_engine (Some [Worlds.basalt_unlabelled]))
                          sel an cs ds).
Proof.
  assert (H : exists es sel sim,
             simulate (Examples.no_engine (Some [Worlds.basalt_unlabelled]))
             = (es, Ok (sel, sim))
             /\ isnan (Al2O3_pct (sample sel)) = true).
  { vm_compute. eexists _, _, _. split; reflexivity. }
  destruct H as (es & sel & sim & Hsim & Hal).
  exists es, sel, sim. split; [exact Hsim|].
  destruct (report_oxide_lines _ es sel sim Hsim) as ((_ & Hca & _) & _ & Hnan).
  split; [exact Hca|]. exact (Hnan Hal).
Defined.

(** X13 at the basalt sample and its unlabelled copy. *)
Lemma payload_ignores_alumina_example :
  generate_advanced_phreeqc_input Examples.basalt
  = generate_advanced_phreeqc_input Worlds.basalt_unlabelled.
Proof.
  apply payload_ignores_alumina_and_rock_type; reflexivity.
Defined.

(** X15 at the row without a CaO value. *)
Lemma synthetic_table_numbers_example :
  Forall (Forall (fun x => isnan x = false))
         (rows (synthetic_results Examples.partial)).
Proof.
  apply (synthetic_table_holds_numbers Examples.partial).
  - left. reflexivity.
  - right. split; reflexivity.
  - right. split; reflexivity.
  - right. split; reflexivity.
Defined.

(** X16 at a granite and a basalt: the basalt has more CaO and more MgO,
    and its total is not below the granite's. *)
Lemma fallback_cation_supply_example :
  (cao_pct_of Examples.granite <=? cao_pct_of Examples.basalt)%py = true
  /\ (mgo_pct_of Examples.granite <=? mgo_pct_of Examples.basalt)%py = true
  /\ (total_cation_release (synthetic_analysis Examples.granite)
      <=? total_cation_release (synthetic_analysis Examples.basalt))%py = true
  /\ (cation_supply (synthetic_analysis Examples.granite) = "High" ->
      cation_supply (synthetic_analysis Examples.basalt) = "High").
Proof.
  assert (Hca : (cao_pct_of Examples.granite <=? cao_pct_of Examples.basalt)%py = true)
    by (vm_compute; reflexivity).
  assert (Hmg : (mgo_pct_of Examples.granite <=? mgo_pct_of Examples.basalt)%py = true)
    by (vm_compute; reflexivity).
  destruct (fallback_cation_supply Examples.granite Examples.basalt
              ltac:(right; vm_compute; reflexivity)
              ltac:(right; vm_compute; reflexivity) Hca Hmg)
    as (_ & _ & _ & _ & _ & _ & Ht & Hhigh & _).
  auto.
Defined.

(** X18 at a sample with 9.8 percent CaO and 7.2 percent MgO. *)
Lemma fallback_efficiency_example :
  exists series,
    panel8 (synthetic_sim Examples.basalt) = ret (Some series)
    /\ length series = 7
    /\ nondecreasing series = true.
Proof.
  destruct (proj1 fallback_efficiency_rises_from_zero Examples.basalt)
    as (series & H & Hlen & _ & Hs & _).
  - right. split; vm_compute; reflexivity.
  - right. split; vm_compute; reflexivity.
  - vm_compute. reflexivity.
  - vm_compute. reflexivity.
  - exists series. auto.
Defined.

(** X22 at a calcium column whose first cell is missing: the cell stays
    missing and the sum goes on from the second cell. *)
Lemma cumulative_skips_missing_example :
  let df := mkFrame ["pH"; "Ca+2"] [[lit 5.6; nan]; [lit 7.9; lit 0.0007]] in
  exists c,
    cumulative df "Ca+2" = ret c
    /\ c = [nan; (lit 0.0 + lit 0.0007 * lit 1000)%py].
Proof.
  cbv zeta.
  destruct (cumulative_series_fit_the_index
              (mkFrame ["pH"; "Ca+2"] [[lit 5.6; nan]; [lit 7.9; lit 0.0007]])
              "Ca+2") as (c & Hc & _ & _ & H).
  destruct (H [nan; lit 0.0007] eq_refl) as (E & _ & _).
  exists c. split; [exact Hc|]. rewrite E. vm_compute. reflexivity.
Defined.

(** X19 at an engine that loads a database and then fails to run. *)
Lemma summary_names_engine_example :
  exists es sel sim printed,
    simulate Worlds.engine_without_answer = (es, Ok (sel, sim))
    /\ results_df sim = synthetic_results (sample sel)
    /\ snd (script_printed Worlds.engine_without_answer) = Ok printed
    /\ In "✅ Geochemical Modeling: PHREEQC simulation" printed.
Proof.
  assert (H : exists es sel sim,
             simulate Worlds.engine_without_answer = (es, Ok (sel, sim))
             /\ fallback_pcts sim <> None).
  { vm_compute. eexists _, _, _. split; [reflexivity|discriminate]. }
  destruct H as (es & sel & sim & Hsim & Hp).
  destruct (summary_names_engine_on_synthetic_results _ es sel sim Hsim
              ltac:(reflexivity) Hp ltac:(reflexivity))
    as (H1 & _ & _ & _ & printed & H2 & H3 & _).
  exists es, sel, sim, printed. auto.
Defined.

(** X20 at a table with a column HCO3- and no column Alk. *)
Lemma carbon_figures_example :
  exists an,
    snd (step5_analyse Worlds.without_si) = Ok an
    /\ co2_sequestration an = (lit 0.005 * lit 1000 * lit 44)%py
    /\ alkalinity_generated an = (lit 0.005 * lit 1000)%py.
Proof.
  assert (H : exists an, snd (step5_analyse Worlds.without_si) = Ok an).
  { vm_compute. eexists. reflexivity. }
  destruct H as (an & H5). exists an. split; [exact H5|].
  destruct (carbon_figures_need_bicarbonate Worlds.without_si an
              ltac:(reflexivity) ltac:(discriminate) H5) as [_ H].
  destruct (H [lit 0.00005; lit 0.005] ltac:(reflexivity)) as (Hco2 & Halk & _).
  split; [exact Hco2|]. apply Halk. reflexivity.
Defined.
